(** * EcoChef: view-state orchestration, roster editing and provider gateway

    A shallow embedding of the application component ([App], file
    [src/unnamed/part_000]), of the provider gateway
    ([services/geminiService], file [src/unnamed/part_001]) and of the data
    contracts of [src/types.ts].

    React state is an explicit record threaded through a small handler
    monad; everything a handler does to the outside world ([alert],
    [console], provider requests, media tracks, the hidden canvas) is
    recorded in an effect trace.  What the outside world hands back (the
    clock, the provider's reply, the DOM elements behind the refs) is an
    explicit argument of the handler that consumes it.

    A string of the program is held as the bytes of its UTF-8 form.  A
    character of the Basic Multilingual Plane is one UTF-16 code unit and
    one to three bytes here; a character outside it is two code units (a
    surrogate pair) and four bytes here, its lead byte standing for the
    first unit and its three continuation bytes for the second.  The case
    mapping is the full upper-case mapping of Unicode 14.0 (an engine
    built on a later version knows, in addition, the few pairs that
    version introduced), the white space the [WhiteSpace] and
    [LineTerminator] productions of ECMAScript. *)

From Stdlib Require Import List Bool Arith ZArith Lia QArith.
From Stdlib Require Import Ascii String.
From Stdlib Require Import DecimalString DecimalPos DecimalNat DecimalZ.
Import ListNotations.

Close Scope Q_scope.
Open Scope nat_scope.
Open Scope list_scope.
Open Scope string_scope.

(** ** ECMAScript string primitives used by the sources *)

Module Js.

Fixpoint ofBytes (l : list nat) : string :=
  match l with
  | [] => EmptyString
  | n :: rest => String (ascii_of_nat n) (ofBytes rest)
  end.

Fixpoint firstBytes (n : nat) (s : string) : string :=
  match n, s with
  | S k, String c rest => String c (firstBytes k rest)
  | _, _ => EmptyString
  end.

Fixpoint dropBytes (n : nat) (s : string) : string :=
  match n, s with
  | S k, String _ rest => dropBytes k rest
  | _, _ => s
  end.

(** The bytes that make the code unit starting with byte [c]: two after
    a lead byte 110xxxxx, three after 1110xxxx, one otherwise (an ASCII
    character, or the lead byte of a four-byte character, which stands
    for the first unit of its surrogate pair). *)
Definition unitBytes (c : ascii) : nat :=
  let n := nat_of_ascii c in
  if Nat.leb 192 n && Nat.ltb n 224 then 2
  else if Nat.leb 224 n && Nat.ltb n 240 then 3
  else 1.

(** [String.prototype.charAt(0)]: the first code unit as a string, the
    empty string when there is none. *)
Definition charAt0 (s : string) : string :=
  match s with
  | EmptyString => EmptyString
  | String c _ => firstBytes (unitBytes c) s
  end.

(** [String.prototype.slice(1)]: everything after the first code unit. *)
Definition slice1 (s : string) : string :=
  match s with
  | EmptyString => EmptyString
  | String c _ => dropBytes (unitBytes c) s
  end.

(** [stripPrefix p s] is what follows [p] in [s] when [s] starts with
    [p]. *)
Fixpoint stripPrefix (p s : string) : option string :=
  match p with
  | EmptyString => Some s
  | String a p' =>
      match s with
      | EmptyString => None
      | String b s' => if Ascii.eqb a b then stripPrefix p' s' else None
      end
  end.

(** The characters that change under [toUpperCase], each with its upper
    case form (Unicode 14.0, full case mapping: the form can be several
    characters long). *)
Definition caseTable00 : list (string * string) :=
  [("a", "A"); ("b", "B"); ("c", "C"); ("d", "D"); ("e", "E"); ("f", "F");
   ("g", "G"); ("h", "H"); ("i", "I"); ("j", "J"); ("k", "K"); ("l", "L");
   ("m", "M"); ("n", "N"); ("o", "O"); ("p", "P"); ("q", "Q"); ("r", "R");
   ("s", "S"); ("t", "T"); ("u", "U"); ("v", "V"); ("w", "W"); ("x", "X");
   ("y", "Y"); ("z", "Z"); ("µ", "Μ"); ("ß", "SS"); ("à", "À");
   ("á", "Á"); ("â", "Â"); ("ã", "Ã"); ("ä", "Ä"); ("å", "Å");
   ("æ", "Æ"); ("ç", "Ç"); ("è", "È"); ("é", "É"); ("ê", "Ê");
   ("ë", "Ë"); ("ì", "Ì"); ("í", "Í"); ("î", "Î"); ("ï", "Ï");
   ("ð", "Ð"); ("ñ", "Ñ"); ("ò", "Ò"); ("ó", "Ó"); ("ô", "Ô");
   ("õ", "Õ"); ("ö", "Ö"); ("ø", "Ø"); ("ù", "Ù"); ("ú", "Ú");
   ("û", "Û"); ("ü", "Ü"); ("ý", "Ý"); ("þ", "Þ"); ("ÿ", "Ÿ");
   ("ā", "Ā")].

Definition caseTable01 : list (string * string) :=
  [("ă", "Ă"); ("ą", "Ą"); ("ć", "Ć"); ("ĉ", "Ĉ"); ("ċ", "Ċ");
   ("č", "Č"); ("ď", "Ď"); ("đ", "Đ"); ("ē", "Ē"); ("ĕ", "Ĕ");
   ("ė", "Ė"); ("ę", "Ę"); ("ě", "Ě"); ("ĝ", "Ĝ"); ("ğ", "Ğ");
   ("ġ", "Ġ"); ("ģ", "Ģ"); ("ĥ", "Ĥ"); ("ħ", "Ħ"); ("ĩ", "Ĩ");
   ("ī", "Ī"); ("ĭ", "Ĭ"); ("į", "Į"); ("ı", "I"); ("ĳ", "Ĳ");
   ("ĵ", "Ĵ"); ("ķ", "Ķ"); ("ĺ", "Ĺ"); ("ļ", "Ļ"); ("ľ", "Ľ");
   ("ŀ", "Ŀ"); ("ł", "Ł"); ("ń", "Ń"); ("ņ", "Ņ"); ("ň", "Ň");
   ("ŉ", "ʼN"); ("ŋ", "Ŋ"); ("ō", "Ō"); ("ŏ", "Ŏ"); ("ő", "Ő");
   ("œ", "Œ"); ("ŕ", "Ŕ"); ("ŗ", "Ŗ"); ("ř", "Ř"); ("ś", "Ś");
   ("ŝ", "Ŝ"); ("ş", "Ş"); ("š", "Š"); ("ţ", "Ţ"); ("ť", "Ť");
   ("ŧ", "Ŧ"); ("ũ", "Ũ"); ("ū", "Ū"); ("ŭ", "Ŭ"); ("ů", "Ů");
   ("ű", "Ű"); ("ų", "Ų"); ("ŵ", "Ŵ"); ("ŷ", "Ŷ"); ("ź", "Ź")].

Definition caseTable02 : list (string * string) :=
  [("ż", "Ż"); ("ž", "Ž"); ("ſ", "S"); ("ƀ", "Ƀ"); ("ƃ", "Ƃ");
   ("ƅ", "Ƅ"); ("ƈ", "Ƈ"); ("ƌ", "Ƌ"); ("ƒ", "Ƒ"); ("ƕ", "Ƕ");
   ("ƙ", "Ƙ"); ("ƚ", "Ƚ"); ("ƞ", "Ƞ"); ("ơ", "Ơ"); ("ƣ", "Ƣ");
   ("ƥ", "Ƥ"); ("ƨ", "Ƨ"); ("ƭ", "Ƭ"); ("ư", "Ư"); ("ƴ", "Ƴ");
   ("ƶ", "Ƶ"); ("ƹ", "Ƹ"); ("ƽ", "Ƽ"); ("ƿ", "Ƿ"); ("ǅ", "Ǆ");
   ("ǆ", "Ǆ"); ("ǈ", "Ǉ"); ("ǉ", "Ǉ"); ("ǋ", "Ǌ"); ("ǌ", "Ǌ");
   ("ǎ", "Ǎ"); ("ǐ", "Ǐ"); ("ǒ", "Ǒ"); ("ǔ", "Ǔ"); ("ǖ", "Ǖ");
   ("ǘ", "Ǘ"); ("ǚ", "Ǚ"); ("ǜ", "Ǜ"); ("ǝ", "Ǝ"); ("ǟ", "Ǟ");
   ("ǡ", "Ǡ"); ("ǣ", "Ǣ"); ("ǥ", "Ǥ"); ("ǧ", "Ǧ"); ("ǩ", "Ǩ");
   ("ǫ", "Ǫ"); ("ǭ", "Ǭ"); ("ǯ", "Ǯ"); ("ǰ", "J̌"); ("ǲ", "Ǳ");
   ("ǳ", "Ǳ"); ("ǵ", "Ǵ"); ("ǹ", "Ǹ"); ("ǻ", "Ǻ"); ("ǽ", "Ǽ");
   ("ǿ", "Ǿ"); ("ȁ", "Ȁ"); ("ȃ", "Ȃ"); ("ȅ", "Ȅ"); ("ȇ", "Ȇ")].

Definition caseTable03 : list (string * string) :=
  [("ȉ", "Ȉ"); ("ȋ", "Ȋ"); ("ȍ", "Ȍ"); ("ȏ", "Ȏ"); ("ȑ", "Ȑ");
   ("ȓ", "Ȓ"); ("ȕ", "Ȕ"); ("ȗ", "Ȗ"); ("ș", "Ș"); ("ț", "Ț");
   ("ȝ", "Ȝ"); ("ȟ", "Ȟ"); ("ȣ", "Ȣ"); ("ȥ", "Ȥ"); ("ȧ", "Ȧ");
   ("ȩ", "Ȩ"); ("ȫ", "Ȫ"); ("ȭ", "Ȭ"); ("ȯ", "Ȯ"); ("ȱ", "Ȱ");
   ("ȳ", "Ȳ"); ("ȼ", "Ȼ"); ("ȿ", "Ȿ"); ("ɀ", "Ɀ"); ("ɂ", "Ɂ");
   ("ɇ", "Ɇ"); ("ɉ", "Ɉ"); ("ɋ", "Ɋ"); ("ɍ", "Ɍ"); ("ɏ", "Ɏ");
   ("ɐ", "Ɐ"); ("ɑ", "Ɑ"); ("ɒ", "Ɒ"); ("ɓ", "Ɓ"); ("ɔ", "Ɔ");
   ("ɖ", "Ɖ"); ("ɗ", "Ɗ"); ("ə", "Ə"); ("ɛ", "Ɛ"); ("ɜ", "Ɜ");
   ("ɠ", "Ɠ"); ("ɡ", "Ɡ"); ("ɣ", "Ɣ"); ("ɥ", "Ɥ"); ("ɦ", "Ɦ");
   ("ɨ", "Ɨ"); ("ɩ", "Ɩ"); ("ɪ", "Ɪ"); ("ɫ", "Ɫ"); ("ɬ", "Ɬ");
   ("ɯ", "Ɯ"); ("ɱ", "Ɱ"); ("ɲ", "Ɲ"); ("ɵ", "Ɵ"); ("ɽ", "Ɽ");
   ("ʀ", "Ʀ"); ("ʂ", "Ʂ"); ("ʃ", "Ʃ"); ("ʇ", "Ʇ"); ("ʈ", "Ʈ")].

Definition caseTable04 : list (string * string) :=
  [("ʉ", "Ʉ"); ("ʊ", "Ʊ"); ("ʋ", "Ʋ"); ("ʌ", "Ʌ"); ("ʒ", "Ʒ");
   ("ʝ", "Ʝ"); ("ʞ", "Ʞ"); ("ͅ", "Ι"); ("ͱ", "Ͱ"); ("ͳ", "Ͳ");
   ("ͷ", "Ͷ"); ("ͻ", "Ͻ"); ("ͼ", "Ͼ"); ("ͽ", "Ͽ"); ("ΐ", "Ϊ́");
   ("ά", "Ά"); ("έ", "Έ"); ("ή", "Ή"); ("ί", "Ί"); ("ΰ", "Ϋ́");
   ("α", "Α"); ("β", "Β"); ("γ", "Γ"); ("δ", "Δ"); ("ε", "Ε");
   ("ζ", "Ζ"); ("η", "Η"); ("θ", "Θ"); ("ι", "Ι"); ("κ", "Κ");
   ("λ", "Λ"); ("μ", "Μ"); ("ν", "Ν"); ("ξ", "Ξ"); ("ο", "Ο");
   ("π", "Π"); ("ρ", "Ρ"); ("ς", "Σ"); ("σ", "Σ"); ("τ", "Τ");
   ("υ", "Υ"); ("φ", "Φ"); ("χ", "Χ"); ("ψ", "Ψ"); ("ω", "Ω");
   ("ϊ", "Ϊ"); ("ϋ", "Ϋ"); ("ό", "Ό"); ("ύ", "Ύ"); ("ώ", "Ώ");
   ("ϐ", "Β"); ("ϑ", "Θ"); ("ϕ", "Φ"); ("ϖ", "Π"); ("ϗ", "Ϗ");
   ("ϙ", "Ϙ"); ("ϛ", "Ϛ"); ("ϝ", "Ϝ"); ("ϟ", "Ϟ"); ("ϡ", "Ϡ")].

Definition caseTable05 : list (string * string) :=
  [("ϣ", "Ϣ"); ("ϥ", "Ϥ"); ("ϧ", "Ϧ"); ("ϩ", "Ϩ"); ("ϫ", "Ϫ");
   ("ϭ", "Ϭ"); ("ϯ", "Ϯ"); ("ϰ", "Κ"); ("ϱ", "Ρ"); ("ϲ", "Ϲ");
   ("ϳ", "Ϳ"); ("ϵ", "Ε"); ("ϸ", "Ϸ"); ("ϻ", "Ϻ"); ("а", "А");
   ("б", "Б"); ("в", "В"); ("г", "Г"); ("д", "Д"); ("е", "Е");
   ("ж", "Ж"); ("з", "З"); ("и", "И"); ("й", "Й"); ("к", "К");
   ("л", "Л"); ("м", "М"); ("н", "Н"); ("о", "О"); ("п", "П");
   ("р", "Р"); ("с", "С"); ("т", "Т"); ("у", "У"); ("ф", "Ф");
   ("х", "Х"); ("ц", "Ц"); ("ч", "Ч"); ("ш", "Ш"); ("щ", "Щ");
   ("ъ", "Ъ"); ("ы", "Ы"); ("ь", "Ь"); ("э", "Э"); ("ю", "Ю");
   ("я", "Я"); ("ѐ", "Ѐ"); ("ё", "Ё"); ("ђ", "Ђ"); ("ѓ", "Ѓ");
   ("є", "Є"); ("ѕ", "Ѕ"); ("і", "І"); ("ї", "Ї"); ("ј", "Ј");
   ("љ", "Љ"); ("њ", "Њ"); ("ћ", "Ћ"); ("ќ", "Ќ"); ("ѝ", "Ѝ")].

Definition caseTable06 : list (string * string) :=
  [("ў", "Ў"); ("џ", "Џ"); ("ѡ", "Ѡ"); ("ѣ", "Ѣ"); ("ѥ", "Ѥ");
   ("ѧ", "Ѧ"); ("ѩ", "Ѩ"); ("ѫ", "Ѫ"); ("ѭ", "Ѭ"); ("ѯ", "Ѯ");
   ("ѱ", "Ѱ"); ("ѳ", "Ѳ"); ("ѵ", "Ѵ"); ("ѷ", "Ѷ"); ("ѹ", "Ѹ");
   ("ѻ", "Ѻ"); ("ѽ", "Ѽ"); ("ѿ", "Ѿ"); ("ҁ", "Ҁ"); ("ҋ", "Ҋ");
   ("ҍ", "Ҍ"); ("ҏ", "Ҏ"); ("ґ", "Ґ"); ("ғ", "Ғ"); ("ҕ", "Ҕ");
   ("җ", "Җ"); ("ҙ", "Ҙ"); ("қ", "Қ"); ("ҝ", "Ҝ"); ("ҟ", "Ҟ");
   ("ҡ", "Ҡ"); ("ң", "Ң"); ("ҥ", "Ҥ"); ("ҧ", "Ҧ"); ("ҩ", "Ҩ");
   ("ҫ", "Ҫ"); ("ҭ", "Ҭ"); ("ү", "Ү"); ("ұ", "Ұ"); ("ҳ", "Ҳ");
   ("ҵ", "Ҵ"); ("ҷ", "Ҷ"); ("ҹ", "Ҹ"); ("һ", "Һ"); ("ҽ", "Ҽ");
   ("ҿ", "Ҿ"); ("ӂ", "Ӂ"); ("ӄ", "Ӄ"); ("ӆ", "Ӆ"); ("ӈ", "Ӈ");
   ("ӊ", "Ӊ"); ("ӌ", "Ӌ"); ("ӎ", "Ӎ"); ("ӏ", "Ӏ"); ("ӑ", "Ӑ");
   ("ӓ", "Ӓ"); ("ӕ", "Ӕ"); ("ӗ", "Ӗ"); ("ә", "Ә"); ("ӛ", "Ӛ")].

Definition caseTable07 : list (string * string) :=
  [("ӝ", "Ӝ"); ("ӟ", "Ӟ"); ("ӡ", "Ӡ"); ("ӣ", "Ӣ"); ("ӥ", "Ӥ");
   ("ӧ", "Ӧ"); ("ө", "Ө"); ("ӫ", "Ӫ"); ("ӭ", "Ӭ"); ("ӯ", "Ӯ");
   ("ӱ", "Ӱ"); ("ӳ", "Ӳ"); ("ӵ", "Ӵ"); ("ӷ", "Ӷ"); ("ӹ", "Ӹ");
   ("ӻ", "Ӻ"); ("ӽ", "Ӽ"); ("ӿ", "Ӿ"); ("ԁ", "Ԁ"); ("ԃ", "Ԃ");
   ("ԅ", "Ԅ"); ("ԇ", "Ԇ"); ("ԉ", "Ԉ"); ("ԋ", "Ԋ"); ("ԍ", "Ԍ");
   ("ԏ", "Ԏ"); ("ԑ", "Ԑ"); ("ԓ", "Ԓ"); ("ԕ", "Ԕ"); ("ԗ", "Ԗ");
   ("ԙ", "Ԙ"); ("ԛ", "Ԛ"); ("ԝ", "Ԝ"); ("ԟ", "Ԟ"); ("ԡ", "Ԡ");
   ("ԣ", "Ԣ"); ("ԥ", "Ԥ"); ("ԧ", "Ԧ"); ("ԩ", "Ԩ"); ("ԫ", "Ԫ");
   ("ԭ", "Ԭ"); ("ԯ", "Ԯ"); ("ա", "Ա"); ("բ", "Բ"); ("գ", "Գ");
   ("դ", "Դ"); ("ե", "Ե"); ("զ", "Զ"); ("է", "Է"); ("ը", "Ը");
   ("թ", "Թ"); ("ժ", "Ժ"); ("ի", "Ի"); ("լ", "Լ"); ("խ", "Խ");
   ("ծ", "Ծ"); ("կ", "Կ"); ("հ", "Հ"); ("ձ", "Ձ"); ("ղ", "Ղ")].

Definition caseTable08 : list (string * string) :=
  [("ճ", "Ճ"); ("մ", "Մ"); ("յ", "Յ"); ("ն", "Ն"); ("շ", "Շ");
   ("ո", "Ո"); ("չ", "Չ"); ("պ", "Պ"); ("ջ", "Ջ"); ("ռ", "Ռ");
   ("ս", "Ս"); ("վ", "Վ"); ("տ", "Տ"); ("ր", "Ր"); ("ց", "Ց");
   ("ւ", "Ւ"); ("փ", "Փ"); ("ք", "Ք"); ("օ", "Օ"); ("ֆ", "Ֆ");
   ("և", "ԵՒ"); ("ა", "Ა"); ("ბ", "Ბ"); ("გ", "Გ");
   ("დ", "Დ"); ("ე", "Ე"); ("ვ", "Ვ"); ("ზ", "Ზ");
   ("თ", "Თ"); ("ი", "Ი"); ("კ", "Კ"); ("ლ", "Ლ");
   ("მ", "Მ"); ("ნ", "Ნ"); ("ო", "Ო"); ("პ", "Პ");
   ("ჟ", "Ჟ"); ("რ", "Რ"); ("ს", "Ს"); ("ტ", "Ტ");
   ("უ", "Უ"); ("ფ", "Ფ"); ("ქ", "Ქ"); ("ღ", "Ღ");
   ("ყ", "Ყ"); ("შ", "Შ"); ("ჩ", "Ჩ"); ("ც", "Ც");
   ("ძ", "Ძ"); ("წ", "Წ"); ("ჭ", "Ჭ"); ("ხ", "Ხ");
   ("ჯ", "Ჯ"); ("ჰ", "Ჰ"); ("ჱ", "Ჱ"); ("ჲ", "Ჲ");
   ("ჳ", "Ჳ"); ("ჴ", "Ჴ"); ("ჵ", "Ჵ"); ("ჶ", "Ჶ")].

Definition caseTable09 : list (string * string) :=
  [("ჷ", "Ჷ"); ("ჸ", "Ჸ"); ("ჹ", "Ჹ"); ("ჺ", "Ჺ");
   ("ჽ", "Ჽ"); ("ჾ", "Ჾ"); ("ჿ", "Ჿ"); ("ᏸ", "Ᏸ");
   ("ᏹ", "Ᏹ"); ("ᏺ", "Ᏺ"); ("ᏻ", "Ᏻ"); ("ᏼ", "Ᏼ");
   ("ᏽ", "Ᏽ"); ("ᲀ", "В"); ("ᲁ", "Д"); ("ᲂ", "О"); ("ᲃ", "С");
   ("ᲄ", "Т"); ("ᲅ", "Т"); ("ᲆ", "Ъ"); ("ᲇ", "Ѣ"); ("ᲈ", "Ꙋ");
   ("ᵹ", "Ᵹ"); ("ᵽ", "Ᵽ"); ("ᶎ", "Ᶎ"); ("ḁ", "Ḁ");
   ("ḃ", "Ḃ"); ("ḅ", "Ḅ"); ("ḇ", "Ḇ"); ("ḉ", "Ḉ");
   ("ḋ", "Ḋ"); ("ḍ", "Ḍ"); ("ḏ", "Ḏ"); ("ḑ", "Ḑ");
   ("ḓ", "Ḓ"); ("ḕ", "Ḕ"); ("ḗ", "Ḗ"); ("ḙ", "Ḙ");
   ("ḛ", "Ḛ"); ("ḝ", "Ḝ"); ("ḟ", "Ḟ"); ("ḡ", "Ḡ");
   ("ḣ", "Ḣ"); ("ḥ", "Ḥ"); ("ḧ", "Ḧ"); ("ḩ", "Ḩ");
   ("ḫ", "Ḫ"); ("ḭ", "Ḭ"); ("ḯ", "Ḯ"); ("ḱ", "Ḱ");
   ("ḳ", "Ḳ"); ("ḵ", "Ḵ"); ("ḷ", "Ḷ"); ("ḹ", "Ḹ");
   ("ḻ", "Ḻ"); ("ḽ", "Ḽ"); ("ḿ", "Ḿ"); ("ṁ", "Ṁ");
   ("ṃ", "Ṃ"); ("ṅ", "Ṅ")].

Definition caseTable10 : list (string * string) :=
  [("ṇ", "Ṇ"); ("ṉ", "Ṉ"); ("ṋ", "Ṋ"); ("ṍ", "Ṍ");
   ("ṏ", "Ṏ"); ("ṑ", "Ṑ"); ("ṓ", "Ṓ"); ("ṕ", "Ṕ");
   ("ṗ", "Ṗ"); ("ṙ", "Ṙ"); ("ṛ", "Ṛ"); ("ṝ", "Ṝ");
   ("ṟ", "Ṟ"); ("ṡ", "Ṡ"); ("ṣ", "Ṣ"); ("ṥ", "Ṥ");
   ("ṧ", "Ṧ"); ("ṩ", "Ṩ"); ("ṫ", "Ṫ"); ("ṭ", "Ṭ");
   ("ṯ", "Ṯ"); ("ṱ", "Ṱ"); ("ṳ", "Ṳ"); ("ṵ", "Ṵ");
   ("ṷ", "Ṷ"); ("ṹ", "Ṹ"); ("ṻ", "Ṻ"); ("ṽ", "Ṽ");
   ("ṿ", "Ṿ"); ("ẁ", "Ẁ"); ("ẃ", "Ẃ"); ("ẅ", "Ẅ");
   ("ẇ", "Ẇ"); ("ẉ", "Ẉ"); ("ẋ", "Ẋ"); ("ẍ", "Ẍ");
   ("ẏ", "Ẏ"); ("ẑ", "Ẑ"); ("ẓ", "Ẓ"); ("ẕ", "Ẕ");
   ("ẖ", "H̱"); ("ẗ", "T̈"); ("ẘ", "W̊"); ("ẙ", "Y̊");
   ("ẚ", "Aʾ"); ("ẛ", "Ṡ"); ("ạ", "Ạ"); ("ả", "Ả");
   ("ấ", "Ấ"); ("ầ", "Ầ"); ("ẩ", "Ẩ"); ("ẫ", "Ẫ");
   ("ậ", "Ậ"); ("ắ", "Ắ"); ("ằ", "Ằ"); ("ẳ", "Ẳ");
   ("ẵ", "Ẵ"); ("ặ", "Ặ"); ("ẹ", "Ẹ"); ("ẻ", "Ẻ")].

Definition caseTable11 : list (string * string) :=
  [("ẽ", "Ẽ"); ("ế", "Ế"); ("ề", "Ề"); ("ể", "Ể");
   ("ễ", "Ễ"); ("ệ", "Ệ"); ("ỉ", "Ỉ"); ("ị", "Ị");
   ("ọ", "Ọ"); ("ỏ", "Ỏ"); ("ố", "Ố"); ("ồ", "Ồ");
   ("ổ", "Ổ"); ("ỗ", "Ỗ"); ("ộ", "Ộ"); ("ớ", "Ớ");
   ("ờ", "Ờ"); ("ở", "Ở"); ("ỡ", "Ỡ"); ("ợ", "Ợ");
   ("ụ", "Ụ"); ("ủ", "Ủ"); ("ứ", "Ứ"); ("ừ", "Ừ");
   ("ử", "Ử"); ("ữ", "Ữ"); ("ự", "Ự"); ("ỳ", "Ỳ");
   ("ỵ", "Ỵ"); ("ỷ", "Ỷ"); ("ỹ", "Ỹ"); ("ỻ", "Ỻ");
   ("ỽ", "Ỽ"); ("ỿ", "Ỿ"); ("ἀ", "Ἀ"); ("ἁ", "Ἁ");
   ("ἂ", "Ἂ"); ("ἃ", "Ἃ"); ("ἄ", "Ἄ"); ("ἅ", "Ἅ");
   ("ἆ", "Ἆ"); ("ἇ", "Ἇ"); ("ἐ", "Ἐ"); ("ἑ", "Ἑ");
   ("ἒ", "Ἒ"); ("ἓ", "Ἓ"); ("ἔ", "Ἔ"); ("ἕ", "Ἕ");
   ("ἠ", "Ἠ"); ("ἡ", "Ἡ"); ("ἢ", "Ἢ"); ("ἣ", "Ἣ");
   ("ἤ", "Ἤ"); ("ἥ", "Ἥ"); ("ἦ", "Ἦ"); ("ἧ", "Ἧ");
   ("ἰ", "Ἰ"); ("ἱ", "Ἱ"); ("ἲ", "Ἲ"); ("ἳ", "Ἳ")].

Definition caseTable12 : list (string * string) :=
  [("ἴ", "Ἴ"); ("ἵ", "Ἵ"); ("ἶ", "Ἶ"); ("ἷ", "Ἷ");
   ("ὀ", "Ὀ"); ("ὁ", "Ὁ"); ("ὂ", "Ὂ"); ("ὃ", "Ὃ");
   ("ὄ", "Ὄ"); ("ὅ", "Ὅ"); ("ὐ", "Υ̓"); ("ὑ", "Ὑ");
   ("ὒ", "Υ̓̀"); ("ὓ", "Ὓ"); ("ὔ", "Υ̓́"); ("ὕ", "Ὕ");
   ("ὖ", "Υ̓͂"); ("ὗ", "Ὗ"); ("ὠ", "Ὠ"); ("ὡ", "Ὡ");
   ("ὢ", "Ὢ"); ("ὣ", "Ὣ"); ("ὤ", "Ὤ"); ("ὥ", "Ὥ");
   ("ὦ", "Ὦ"); ("ὧ", "Ὧ"); ("ὰ", "Ὰ"); ("ά", "Ά");
   ("ὲ", "Ὲ"); ("έ", "Έ"); ("ὴ", "Ὴ"); ("ή", "Ή");
   ("ὶ", "Ὶ"); ("ί", "Ί"); ("ὸ", "Ὸ"); ("ό", "Ό");
   ("ὺ", "Ὺ"); ("ύ", "Ύ"); ("ὼ", "Ὼ"); ("ώ", "Ώ");
   ("ᾀ", "ἈΙ"); ("ᾁ", "ἉΙ"); ("ᾂ", "ἊΙ"); ("ᾃ", "ἋΙ");
   ("ᾄ", "ἌΙ"); ("ᾅ", "ἍΙ"); ("ᾆ", "ἎΙ"); ("ᾇ", "ἏΙ");
   ("ᾈ", "ἈΙ"); ("ᾉ", "ἉΙ"); ("ᾊ", "ἊΙ"); ("ᾋ", "ἋΙ");
   ("ᾌ", "ἌΙ"); ("ᾍ", "ἍΙ"); ("ᾎ", "ἎΙ"); ("ᾏ", "ἏΙ");
   ("ᾐ", "ἨΙ"); ("ᾑ", "ἩΙ"); ("ᾒ", "ἪΙ"); ("ᾓ", "ἫΙ")].

Definition caseTable13 : list (string * string) :=
  [("ᾔ", "ἬΙ"); ("ᾕ", "ἭΙ"); ("ᾖ", "ἮΙ"); ("ᾗ", "ἯΙ");
   ("ᾘ", "ἨΙ"); ("ᾙ", "ἩΙ"); ("ᾚ", "ἪΙ"); ("ᾛ", "ἫΙ");
   ("ᾜ", "ἬΙ"); ("ᾝ", "ἭΙ"); ("ᾞ", "ἮΙ"); ("ᾟ", "ἯΙ");
   ("ᾠ", "ὨΙ"); ("ᾡ", "ὩΙ"); ("ᾢ", "ὪΙ"); ("ᾣ", "ὫΙ");
   ("ᾤ", "ὬΙ"); ("ᾥ", "ὭΙ"); ("ᾦ", "ὮΙ"); ("ᾧ", "ὯΙ");
   ("ᾨ", "ὨΙ"); ("ᾩ", "ὩΙ"); ("ᾪ", "ὪΙ"); ("ᾫ", "ὫΙ");
   ("ᾬ", "ὬΙ"); ("ᾭ", "ὭΙ"); ("ᾮ", "ὮΙ"); ("ᾯ", "ὯΙ");
   ("ᾰ", "Ᾰ"); ("ᾱ", "Ᾱ"); ("ᾲ", "ᾺΙ"); ("ᾳ", "ΑΙ");
   ("ᾴ", "ΆΙ"); ("ᾶ", "Α͂"); ("ᾷ", "Α͂Ι"); ("ᾼ", "ΑΙ");
   ("ι", "Ι"); ("ῂ", "ῊΙ"); ("ῃ", "ΗΙ"); ("ῄ", "ΉΙ");
   ("ῆ", "Η͂"); ("ῇ", "Η͂Ι"); ("ῌ", "ΗΙ"); ("ῐ", "Ῐ");
   ("ῑ", "Ῑ"); ("ῒ", "Ϊ̀"); ("ΐ", "Ϊ́"); ("ῖ", "Ι͂");
   ("ῗ", "Ϊ͂"); ("ῠ", "Ῠ"); ("ῡ", "Ῡ"); ("ῢ", "Ϋ̀");
   ("ΰ", "Ϋ́"); ("ῤ", "Ρ̓"); ("ῥ", "Ῥ"); ("ῦ", "Υ͂");
   ("ῧ", "Ϋ͂"); ("ῲ", "ῺΙ"); ("ῳ", "ΩΙ"); ("ῴ", "ΏΙ")].

Definition caseTable14 : list (string * string) :=
  [("ῶ", "Ω͂"); ("ῷ", "Ω͂Ι"); ("ῼ", "ΩΙ"); ("ⅎ", "Ⅎ");
   ("ⅰ", "Ⅰ"); ("ⅱ", "Ⅱ"); ("ⅲ", "Ⅲ"); ("ⅳ", "Ⅳ");
   ("ⅴ", "Ⅴ"); ("ⅵ", "Ⅵ"); ("ⅶ", "Ⅶ"); ("ⅷ", "Ⅷ");
   ("ⅸ", "Ⅸ"); ("ⅹ", "Ⅹ"); ("ⅺ", "Ⅺ"); ("ⅻ", "Ⅻ");
   ("ⅼ", "Ⅼ"); ("ⅽ", "Ⅽ"); ("ⅾ", "Ⅾ"); ("ⅿ", "Ⅿ");
   ("ↄ", "Ↄ"); ("ⓐ", "Ⓐ"); ("ⓑ", "Ⓑ"); ("ⓒ", "Ⓒ");
   ("ⓓ", "Ⓓ"); ("ⓔ", "Ⓔ"); ("ⓕ", "Ⓕ"); ("ⓖ", "Ⓖ");
   ("ⓗ", "Ⓗ"); ("ⓘ", "Ⓘ"); ("ⓙ", "Ⓙ"); ("ⓚ", "Ⓚ");
   ("ⓛ", "Ⓛ"); ("ⓜ", "Ⓜ"); ("ⓝ", "Ⓝ"); ("ⓞ", "Ⓞ");
   ("ⓟ", "Ⓟ"); ("ⓠ", "Ⓠ"); ("ⓡ", "Ⓡ"); ("ⓢ", "Ⓢ");
   ("ⓣ", "Ⓣ"); ("ⓤ", "Ⓤ"); ("ⓥ", "Ⓥ"); ("ⓦ", "Ⓦ");
   ("ⓧ", "Ⓧ"); ("ⓨ", "Ⓨ"); ("ⓩ", "Ⓩ"); ("ⰰ", "Ⰰ");
   ("ⰱ", "Ⰱ"); ("ⰲ", "Ⰲ"); ("ⰳ", "Ⰳ"); ("ⰴ", "Ⰴ");
   ("ⰵ", "Ⰵ"); ("ⰶ", "Ⰶ"); ("ⰷ", "Ⰷ"); ("ⰸ", "Ⰸ");
   ("ⰹ", "Ⰹ"); ("ⰺ", "Ⰺ"); ("ⰻ", "Ⰻ"); ("ⰼ", "Ⰼ")].

Definition caseTable15 : list (string * string) :=
  [("ⰽ", "Ⰽ"); ("ⰾ", "Ⰾ"); ("ⰿ", "Ⰿ"); ("ⱀ", "Ⱀ");
   ("ⱁ", "Ⱁ"); ("ⱂ", "Ⱂ"); ("ⱃ", "Ⱃ"); ("ⱄ", "Ⱄ");
   ("ⱅ", "Ⱅ"); ("ⱆ", "Ⱆ"); ("ⱇ", "Ⱇ"); ("ⱈ", "Ⱈ");
   ("ⱉ", "Ⱉ"); ("ⱊ", "Ⱊ"); ("ⱋ", "Ⱋ"); ("ⱌ", "Ⱌ");
   ("ⱍ", "Ⱍ"); ("ⱎ", "Ⱎ"); ("ⱏ", "Ⱏ"); ("ⱐ", "Ⱐ");
   ("ⱑ", "Ⱑ"); ("ⱒ", "Ⱒ"); ("ⱓ", "Ⱓ"); ("ⱔ", "Ⱔ");
   ("ⱕ", "Ⱕ"); ("ⱖ", "Ⱖ"); ("ⱗ", "Ⱗ"); ("ⱘ", "Ⱘ");
   ("ⱙ", "Ⱙ"); ("ⱚ", "Ⱚ"); ("ⱛ", "Ⱛ"); ("ⱜ", "Ⱜ");
   ("ⱝ", "Ⱝ"); ("ⱞ", "Ⱞ"); ("ⱟ", "Ⱟ"); ("ⱡ", "Ⱡ");
   ("ⱥ", "Ⱥ"); ("ⱦ", "Ⱦ"); ("ⱨ", "Ⱨ"); ("ⱪ", "Ⱪ");
   ("ⱬ", "Ⱬ"); ("ⱳ", "Ⱳ"); ("ⱶ", "Ⱶ"); ("ⲁ", "Ⲁ");
   ("ⲃ", "Ⲃ"); ("ⲅ", "Ⲅ"); ("ⲇ", "Ⲇ"); ("ⲉ", "Ⲉ");
   ("ⲋ", "Ⲋ"); ("ⲍ", "Ⲍ"); ("ⲏ", "Ⲏ"); ("ⲑ", "Ⲑ");
   ("ⲓ", "Ⲓ"); ("ⲕ", "Ⲕ"); ("ⲗ", "Ⲗ"); ("ⲙ", "Ⲙ");
   ("ⲛ", "Ⲛ"); ("ⲝ", "Ⲝ"); ("ⲟ", "Ⲟ"); ("ⲡ", "Ⲡ")].

Definition caseTable16 : list (string * string) :=
  [("ⲣ", "Ⲣ"); ("ⲥ", "Ⲥ"); ("ⲧ", "Ⲧ"); ("ⲩ", "Ⲩ");
   ("ⲫ", "Ⲫ"); ("ⲭ", "Ⲭ"); ("ⲯ", "Ⲯ"); ("ⲱ", "Ⲱ");
   ("ⲳ", "Ⲳ"); ("ⲵ", "Ⲵ"); ("ⲷ", "Ⲷ"); ("ⲹ", "Ⲹ");
   ("ⲻ", "Ⲻ"); ("ⲽ", "Ⲽ"); ("ⲿ", "Ⲿ"); ("ⳁ", "Ⳁ");
   ("ⳃ", "Ⳃ"); ("ⳅ", "Ⳅ"); ("ⳇ", "Ⳇ"); ("ⳉ", "Ⳉ");
   ("ⳋ", "Ⳋ"); ("ⳍ", "Ⳍ"); ("ⳏ", "Ⳏ"); ("ⳑ", "Ⳑ");
   ("ⳓ", "Ⳓ"); ("ⳕ", "Ⳕ"); ("ⳗ", "Ⳗ"); ("ⳙ", "Ⳙ");
   ("ⳛ", "Ⳛ"); ("ⳝ", "Ⳝ"); ("ⳟ", "Ⳟ"); ("ⳡ", "Ⳡ");
   ("ⳣ", "Ⳣ"); ("ⳬ", "Ⳬ"); ("ⳮ", "Ⳮ"); ("ⳳ", "Ⳳ");
   ("ⴀ", "Ⴀ"); ("ⴁ", "Ⴁ"); ("ⴂ", "Ⴂ"); ("ⴃ", "Ⴃ");
   ("ⴄ", "Ⴄ"); ("ⴅ", "Ⴅ"); ("ⴆ", "Ⴆ"); ("ⴇ", "Ⴇ");
   ("ⴈ", "Ⴈ"); ("ⴉ", "Ⴉ"); ("ⴊ", "Ⴊ"); ("ⴋ", "Ⴋ");
   ("ⴌ", "Ⴌ"); ("ⴍ", "Ⴍ"); ("ⴎ", "Ⴎ"); ("ⴏ", "Ⴏ");
   ("ⴐ", "Ⴐ"); ("ⴑ", "Ⴑ"); ("ⴒ", "Ⴒ"); ("ⴓ", "Ⴓ");
   ("ⴔ", "Ⴔ"); ("ⴕ", "Ⴕ"); ("ⴖ", "Ⴖ"); ("ⴗ", "Ⴗ")].

Definition caseTable17 : list (string * string) :=
  [("ⴘ", "Ⴘ"); ("ⴙ", "Ⴙ"); ("ⴚ", "Ⴚ"); ("ⴛ", "Ⴛ");
   ("ⴜ", "Ⴜ"); ("ⴝ", "Ⴝ"); ("ⴞ", "Ⴞ"); ("ⴟ", "Ⴟ");
   ("ⴠ", "Ⴠ"); ("ⴡ", "Ⴡ"); ("ⴢ", "Ⴢ"); ("ⴣ", "Ⴣ");
   ("ⴤ", "Ⴤ"); ("ⴥ", "Ⴥ"); ("ⴧ", "Ⴧ"); ("ⴭ", "Ⴭ");
   ("ꙁ", "Ꙁ"); ("ꙃ", "Ꙃ"); ("ꙅ", "Ꙅ"); ("ꙇ", "Ꙇ");
   ("ꙉ", "Ꙉ"); ("ꙋ", "Ꙋ"); ("ꙍ", "Ꙍ"); ("ꙏ", "Ꙏ");
   ("ꙑ", "Ꙑ"); ("ꙓ", "Ꙓ"); ("ꙕ", "Ꙕ"); ("ꙗ", "Ꙗ");
   ("ꙙ", "Ꙙ"); ("ꙛ", "Ꙛ"); ("ꙝ", "Ꙝ"); ("ꙟ", "Ꙟ");
   ("ꙡ", "Ꙡ"); ("ꙣ", "Ꙣ"); ("ꙥ", "Ꙥ"); ("ꙧ", "Ꙧ");
   ("ꙩ", "Ꙩ"); ("ꙫ", "Ꙫ"); ("ꙭ", "Ꙭ"); ("ꚁ", "Ꚁ");
   ("ꚃ", "Ꚃ"); ("ꚅ", "Ꚅ"); ("ꚇ", "Ꚇ"); ("ꚉ", "Ꚉ");
   ("ꚋ", "Ꚋ"); ("ꚍ", "Ꚍ"); ("ꚏ", "Ꚏ"); ("ꚑ", "Ꚑ");
   ("ꚓ", "Ꚓ"); ("ꚕ", "Ꚕ"); ("ꚗ", "Ꚗ"); ("ꚙ", "Ꚙ");
   ("ꚛ", "Ꚛ"); ("ꜣ", "Ꜣ"); ("ꜥ", "Ꜥ"); ("ꜧ", "Ꜧ");
   ("ꜩ", "Ꜩ"); ("ꜫ", "Ꜫ"); ("ꜭ", "Ꜭ"); ("ꜯ", "Ꜯ")].

Definition caseTable18 : list (string * string) :=
  [("ꜳ", "Ꜳ"); ("ꜵ", "Ꜵ"); ("ꜷ", "Ꜷ"); ("ꜹ", "Ꜹ");
   ("ꜻ", "Ꜻ"); ("ꜽ", "Ꜽ"); ("ꜿ", "Ꜿ"); ("ꝁ", "Ꝁ");
   ("ꝃ", "Ꝃ"); ("ꝅ", "Ꝅ"); ("ꝇ", "Ꝇ"); ("ꝉ", "Ꝉ");
   ("ꝋ", "Ꝋ"); ("ꝍ", "Ꝍ"); ("ꝏ", "Ꝏ"); ("ꝑ", "Ꝑ");
   ("ꝓ", "Ꝓ"); ("ꝕ", "Ꝕ"); ("ꝗ", "Ꝗ"); ("ꝙ", "Ꝙ");
   ("ꝛ", "Ꝛ"); ("ꝝ", "Ꝝ"); ("ꝟ", "Ꝟ"); ("ꝡ", "Ꝡ");
   ("ꝣ", "Ꝣ"); ("ꝥ", "Ꝥ"); ("ꝧ", "Ꝧ"); ("ꝩ", "Ꝩ");
   ("ꝫ", "Ꝫ"); ("ꝭ", "Ꝭ"); ("ꝯ", "Ꝯ"); ("ꝺ", "Ꝺ");
   ("ꝼ", "Ꝼ"); ("ꝿ", "Ꝿ"); ("ꞁ", "Ꞁ"); ("ꞃ", "Ꞃ");
   ("ꞅ", "Ꞅ"); ("ꞇ", "Ꞇ"); ("ꞌ", "Ꞌ"); ("ꞑ", "Ꞑ");
   ("ꞓ", "Ꞓ"); ("ꞔ", "Ꞔ"); ("ꞗ", "Ꞗ"); ("ꞙ", "Ꞙ");
   ("ꞛ", "Ꞛ"); ("ꞝ", "Ꞝ"); ("ꞟ", "Ꞟ"); ("ꞡ", "Ꞡ");
   ("ꞣ", "Ꞣ"); ("ꞥ", "Ꞥ"); ("ꞧ", "Ꞧ"); ("ꞩ", "Ꞩ");
   ("ꞵ", "Ꞵ"); ("ꞷ", "Ꞷ"); ("ꞹ", "Ꞹ"); ("ꞻ", "Ꞻ");
   ("ꞽ", "Ꞽ"); ("ꞿ", "Ꞿ"); ("ꟁ", "Ꟁ"); ("ꟃ", "Ꟃ")].

Definition caseTable19 : list (string * string) :=
  [("ꟈ", "Ꟈ"); ("ꟊ", "Ꟊ"); ("ꟑ", "Ꟑ"); ("ꟗ", "Ꟗ");
   ("ꟙ", "Ꟙ"); ("ꟶ", "Ꟶ"); ("ꭓ", "Ꭓ"); ("ꭰ", "Ꭰ");
   ("ꭱ", "Ꭱ"); ("ꭲ", "Ꭲ"); ("ꭳ", "Ꭳ"); ("ꭴ", "Ꭴ");
   ("ꭵ", "Ꭵ"); ("ꭶ", "Ꭶ"); ("ꭷ", "Ꭷ"); ("ꭸ", "Ꭸ");
   ("ꭹ", "Ꭹ"); ("ꭺ", "Ꭺ"); ("ꭻ", "Ꭻ"); ("ꭼ", "Ꭼ");
   ("ꭽ", "Ꭽ"); ("ꭾ", "Ꭾ"); ("ꭿ", "Ꭿ"); ("ꮀ", "Ꮀ");
   ("ꮁ", "Ꮁ"); ("ꮂ", "Ꮂ"); ("ꮃ", "Ꮃ"); ("ꮄ", "Ꮄ");
   ("ꮅ", "Ꮅ"); ("ꮆ", "Ꮆ"); ("ꮇ", "Ꮇ"); ("ꮈ", "Ꮈ");
   ("ꮉ", "Ꮉ"); ("ꮊ", "Ꮊ"); ("ꮋ", "Ꮋ"); ("ꮌ", "Ꮌ");
   ("ꮍ", "Ꮍ"); ("ꮎ", "Ꮎ"); ("ꮏ", "Ꮏ"); ("ꮐ", "Ꮐ");
   ("ꮑ", "Ꮑ"); ("ꮒ", "Ꮒ"); ("ꮓ", "Ꮓ"); ("ꮔ", "Ꮔ");
   ("ꮕ", "Ꮕ"); ("ꮖ", "Ꮖ"); ("ꮗ", "Ꮗ"); ("ꮘ", "Ꮘ");
   ("ꮙ", "Ꮙ"); ("ꮚ", "Ꮚ"); ("ꮛ", "Ꮛ"); ("ꮜ", "Ꮜ");
   ("ꮝ", "Ꮝ"); ("ꮞ", "Ꮞ"); ("ꮟ", "Ꮟ"); ("ꮠ", "Ꮠ");
   ("ꮡ", "Ꮡ"); ("ꮢ", "Ꮢ"); ("ꮣ", "Ꮣ"); ("ꮤ", "Ꮤ")].

Definition caseTable20 : list (string * string) :=
  [("ꮥ", "Ꮥ"); ("ꮦ", "Ꮦ"); ("ꮧ", "Ꮧ"); ("ꮨ", "Ꮨ");
   ("ꮩ", "Ꮩ"); ("ꮪ", "Ꮪ"); ("ꮫ", "Ꮫ"); ("ꮬ", "Ꮬ");
   ("ꮭ", "Ꮭ"); ("ꮮ", "Ꮮ"); ("ꮯ", "Ꮯ"); ("ꮰ", "Ꮰ");
   ("ꮱ", "Ꮱ"); ("ꮲ", "Ꮲ"); ("ꮳ", "Ꮳ"); ("ꮴ", "Ꮴ");
   ("ꮵ", "Ꮵ"); ("ꮶ", "Ꮶ"); ("ꮷ", "Ꮷ"); ("ꮸ", "Ꮸ");
   ("ꮹ", "Ꮹ"); ("ꮺ", "Ꮺ"); ("ꮻ", "Ꮻ"); ("ꮼ", "Ꮼ");
   ("ꮽ", "Ꮽ"); ("ꮾ", "Ꮾ"); ("ꮿ", "Ꮿ"); ("ﬀ", "FF");
   ("ﬁ", "FI"); ("ﬂ", "FL"); ("ﬃ", "FFI"); ("ﬄ", "FFL"); ("ﬅ", "ST");
   ("ﬆ", "ST"); ("ﬓ", "ՄՆ"); ("ﬔ", "ՄԵ"); ("ﬕ", "ՄԻ");
   ("ﬖ", "ՎՆ"); ("ﬗ", "ՄԽ"); ("ａ", "Ａ"); ("ｂ", "Ｂ");
   ("ｃ", "Ｃ"); ("ｄ", "Ｄ"); ("ｅ", "Ｅ"); ("ｆ", "Ｆ");
   ("ｇ", "Ｇ"); ("ｈ", "Ｈ"); ("ｉ", "Ｉ"); ("ｊ", "Ｊ");
   ("ｋ", "Ｋ"); ("ｌ", "Ｌ"); ("ｍ", "Ｍ"); ("ｎ", "Ｎ");
   ("ｏ", "Ｏ"); ("ｐ", "Ｐ"); ("ｑ", "Ｑ"); ("ｒ", "Ｒ");
   ("ｓ", "Ｓ"); ("ｔ", "Ｔ"); ("ｕ", "Ｕ")].

Definition caseTable21 : list (string * string) :=
  [("ｖ", "Ｖ"); ("ｗ", "Ｗ"); ("ｘ", "Ｘ"); ("ｙ", "Ｙ");
   ("ｚ", "Ｚ"); ("𐐨", "𐐀"); ("𐐩", "𐐁"); ("𐐪", "𐐂");
   ("𐐫", "𐐃"); ("𐐬", "𐐄"); ("𐐭", "𐐅"); ("𐐮", "𐐆");
   ("𐐯", "𐐇"); ("𐐰", "𐐈"); ("𐐱", "𐐉"); ("𐐲", "𐐊");
   ("𐐳", "𐐋"); ("𐐴", "𐐌"); ("𐐵", "𐐍"); ("𐐶", "𐐎");
   ("𐐷", "𐐏"); ("𐐸", "𐐐"); ("𐐹", "𐐑"); ("𐐺", "𐐒");
   ("𐐻", "𐐓"); ("𐐼", "𐐔"); ("𐐽", "𐐕"); ("𐐾", "𐐖");
   ("𐐿", "𐐗"); ("𐑀", "𐐘"); ("𐑁", "𐐙"); ("𐑂", "𐐚");
   ("𐑃", "𐐛"); ("𐑄", "𐐜"); ("𐑅", "𐐝"); ("𐑆", "𐐞");
   ("𐑇", "𐐟"); ("𐑈", "𐐠"); ("𐑉", "𐐡"); ("𐑊", "𐐢");
   ("𐑋", "𐐣"); ("𐑌", "𐐤"); ("𐑍", "𐐥"); ("𐑎", "𐐦");
   ("𐑏", "𐐧"); ("𐓘", "𐒰"); ("𐓙", "𐒱"); ("𐓚", "𐒲");
   ("𐓛", "𐒳"); ("𐓜", "𐒴"); ("𐓝", "𐒵"); ("𐓞", "𐒶");
   ("𐓟", "𐒷"); ("𐓠", "𐒸"); ("𐓡", "𐒹"); ("𐓢", "𐒺");
   ("𐓣", "𐒻"); ("𐓤", "𐒼"); ("𐓥", "𐒽"); ("𐓦", "𐒾")].

Definition caseTable22 : list (string * string) :=
  [("𐓧", "𐒿"); ("𐓨", "𐓀"); ("𐓩", "𐓁"); ("𐓪", "𐓂");
   ("𐓫", "𐓃"); ("𐓬", "𐓄"); ("𐓭", "𐓅"); ("𐓮", "𐓆");
   ("𐓯", "𐓇"); ("𐓰", "𐓈"); ("𐓱", "𐓉"); ("𐓲", "𐓊");
   ("𐓳", "𐓋"); ("𐓴", "𐓌"); ("𐓵", "𐓍"); ("𐓶", "𐓎");
   ("𐓷", "𐓏"); ("𐓸", "𐓐"); ("𐓹", "𐓑"); ("𐓺", "𐓒");
   ("𐓻", "𐓓"); ("𐖗", "𐕰"); ("𐖘", "𐕱"); ("𐖙", "𐕲");
   ("𐖚", "𐕳"); ("𐖛", "𐕴"); ("𐖜", "𐕵"); ("𐖝", "𐕶");
   ("𐖞", "𐕷"); ("𐖟", "𐕸"); ("𐖠", "𐕹"); ("𐖡", "𐕺");
   ("𐖣", "𐕼"); ("𐖤", "𐕽"); ("𐖥", "𐕾"); ("𐖦", "𐕿");
   ("𐖧", "𐖀"); ("𐖨", "𐖁"); ("𐖩", "𐖂"); ("𐖪", "𐖃");
   ("𐖫", "𐖄"); ("𐖬", "𐖅"); ("𐖭", "𐖆"); ("𐖮", "𐖇");
   ("𐖯", "𐖈"); ("𐖰", "𐖉"); ("𐖱", "𐖊"); ("𐖳", "𐖌");
   ("𐖴", "𐖍"); ("𐖵", "𐖎"); ("𐖶", "𐖏"); ("𐖷", "𐖐");
   ("𐖸", "𐖑"); ("𐖹", "𐖒"); ("𐖻", "𐖔"); ("𐖼", "𐖕");
   ("𐳀", "𐲀"); ("𐳁", "𐲁"); ("𐳂", "𐲂"); ("𐳃", "𐲃")].

Definition caseTable23 : list (string * string) :=
  [("𐳄", "𐲄"); ("𐳅", "𐲅"); ("𐳆", "𐲆"); ("𐳇", "𐲇");
   ("𐳈", "𐲈"); ("𐳉", "𐲉"); ("𐳊", "𐲊"); ("𐳋", "𐲋");
   ("𐳌", "𐲌"); ("𐳍", "𐲍"); ("𐳎", "𐲎"); ("𐳏", "𐲏");
   ("𐳐", "𐲐"); ("𐳑", "𐲑"); ("𐳒", "𐲒"); ("𐳓", "𐲓");
   ("𐳔", "𐲔"); ("𐳕", "𐲕"); ("𐳖", "𐲖"); ("𐳗", "𐲗");
   ("𐳘", "𐲘"); ("𐳙", "𐲙"); ("𐳚", "𐲚"); ("𐳛", "𐲛");
   ("𐳜", "𐲜"); ("𐳝", "𐲝"); ("𐳞", "𐲞"); ("𐳟", "𐲟");
   ("𐳠", "𐲠"); ("𐳡", "𐲡"); ("𐳢", "𐲢"); ("𐳣", "𐲣");
   ("𐳤", "𐲤"); ("𐳥", "𐲥"); ("𐳦", "𐲦"); ("𐳧", "𐲧");
   ("𐳨", "𐲨"); ("𐳩", "𐲩"); ("𐳪", "𐲪"); ("𐳫", "𐲫");
   ("𐳬", "𐲬"); ("𐳭", "𐲭"); ("𐳮", "𐲮"); ("𐳯", "𐲯");
   ("𐳰", "𐲰"); ("𐳱", "𐲱"); ("𐳲", "𐲲"); ("𑣀", "𑢠");
   ("𑣁", "𑢡"); ("𑣂", "𑢢"); ("𑣃", "𑢣"); ("𑣄", "𑢤");
   ("𑣅", "𑢥"); ("𑣆", "𑢦"); ("𑣇", "𑢧"); ("𑣈", "𑢨");
   ("𑣉", "𑢩"); ("𑣊", "𑢪"); ("𑣋", "𑢫"); ("𑣌", "𑢬")].

Definition caseTable24 : list (string * string) :=
  [("𑣍", "𑢭"); ("𑣎", "𑢮"); ("𑣏", "𑢯"); ("𑣐", "𑢰");
   ("𑣑", "𑢱"); ("𑣒", "𑢲"); ("𑣓", "𑢳"); ("𑣔", "𑢴");
   ("𑣕", "𑢵"); ("𑣖", "𑢶"); ("𑣗", "𑢷"); ("𑣘", "𑢸");
   ("𑣙", "𑢹"); ("𑣚", "𑢺"); ("𑣛", "𑢻"); ("𑣜", "𑢼");
   ("𑣝", "𑢽"); ("𑣞", "𑢾"); ("𑣟", "𑢿"); ("𖹠", "𖹀");
   ("𖹡", "𖹁"); ("𖹢", "𖹂"); ("𖹣", "𖹃"); ("𖹤", "𖹄");
   ("𖹥", "𖹅"); ("𖹦", "𖹆"); ("𖹧", "𖹇"); ("𖹨", "𖹈");
   ("𖹩", "𖹉"); ("𖹪", "𖹊"); ("𖹫", "𖹋"); ("𖹬", "𖹌");
   ("𖹭", "𖹍"); ("𖹮", "𖹎"); ("𖹯", "𖹏"); ("𖹰", "𖹐");
   ("𖹱", "𖹑"); ("𖹲", "𖹒"); ("𖹳", "𖹓"); ("𖹴", "𖹔");
   ("𖹵", "𖹕"); ("𖹶", "𖹖"); ("𖹷", "𖹗"); ("𖹸", "𖹘");
   ("𖹹", "𖹙"); ("𖹺", "𖹚"); ("𖹻", "𖹛"); ("𖹼", "𖹜");
   ("𖹽", "𖹝"); ("𖹾", "𖹞"); ("𖹿", "𖹟"); ("𞤢", "𞤀");
   ("𞤣", "𞤁"); ("𞤤", "𞤂"); ("𞤥", "𞤃"); ("𞤦", "𞤄");
   ("𞤧", "𞤅"); ("𞤨", "𞤆"); ("𞤩", "𞤇"); ("𞤪", "𞤈")].

Definition caseTable25 : list (string * string) :=
  [("𞤫", "𞤉"); ("𞤬", "𞤊"); ("𞤭", "𞤋"); ("𞤮", "𞤌");
   ("𞤯", "𞤍"); ("𞤰", "𞤎"); ("𞤱", "𞤏"); ("𞤲", "𞤐");
   ("𞤳", "𞤑"); ("𞤴", "𞤒"); ("𞤵", "𞤓"); ("𞤶", "𞤔");
   ("𞤷", "𞤕"); ("𞤸", "𞤖"); ("𞤹", "𞤗"); ("𞤺", "𞤘");
   ("𞤻", "𞤙"); ("𞤼", "𞤚"); ("𞤽", "𞤛"); ("𞤾", "𞤜");
   ("𞤿", "𞤝"); ("𞥀", "𞤞"); ("𞥁", "𞤟"); ("𞥂", "𞤠");
   ("𞥃", "𞤡")].

Definition caseTable : list (string * string) :=
  caseTable00
  ++ caseTable01
  ++ caseTable02
  ++ caseTable03
  ++ caseTable04
  ++ caseTable05
  ++ caseTable06
  ++ caseTable07
  ++ caseTable08
  ++ caseTable09
  ++ caseTable10
  ++ caseTable11
  ++ caseTable12
  ++ caseTable13
  ++ caseTable14
  ++ caseTable15
  ++ caseTable16
  ++ caseTable17
  ++ caseTable18
  ++ caseTable19
  ++ caseTable20
  ++ caseTable21
  ++ caseTable22
  ++ caseTable23
  ++ caseTable24
  ++ caseTable25.

(** The entry of the table whose character starts [s]: its upper-case
    form and the number of bytes of the character. *)
Fixpoint lookupCase (table : list (string * string)) (s : string)
  : option (string * nat) :=
  match table with
  | [] => None
  | (lower, upper) :: more =>
      match stripPrefix lower s with
      | Some _ => Some (upper, String.length lower)
      | None => lookupCase more s
      end
  end.

(** Upper-casing from left to right; [skip] counts the bytes still to
    pass of a character already replaced. *)
Fixpoint upperFrom (skip : nat) (s : string) : string :=
  match s with
  | EmptyString => EmptyString
  | String c rest =>
      match skip with
      | S k => upperFrom k rest
      | O =>
          match lookupCase caseTable s with
          | Some (upper, n) => upper ++ upperFrom (Nat.pred n) rest
          | None => String c (upperFrom 0 rest)
          end
      end
  end.

(** [String.prototype.toUpperCase]. *)
Definition toUpperCase (s : string) : string := upperFrom 0 s.

(** The white space and line terminators [trim] strips: TAB, LF, VT, FF,
    CR, SPACE, U+00A0, U+1680, U+2000 to U+200A, U+2028, U+2029, U+202F,
    U+205F, U+3000 and U+FEFF. *)
Definition whiteSpaceChars : list string :=
  map ofBytes
    [[9]; [10]; [11]; [12]; [13]; [32]; [194; 160]; [225; 154; 128];
     [226; 128; 128]; [226; 128; 129]; [226; 128; 130]; [226; 128; 131];
     [226; 128; 132]; [226; 128; 133]; [226; 128; 134]; [226; 128; 135];
     [226; 128; 136]; [226; 128; 137]; [226; 128; 138]; [226; 128; 168];
     [226; 128; 169]; [226; 128; 175]; [226; 129; 159]; [227; 128; 128];
     [239; 187; 191]].

(** What follows the first of the given strings that starts [s]. *)
Fixpoint stripAny (candidates : list string) (s : string) : option string :=
  match candidates with
  | [] => None
  | w :: more =>
      match stripPrefix w s with
      | Some rest => Some rest
      | None => stripAny more s
      end
  end.

Definition stripWhiteSpace (s : string) : option string :=
  stripAny whiteSpaceChars s.

(** Leading white space removed, one character per unit of fuel. *)
Fixpoint trimStartN (fuel : nat) (s : string) : string :=
  match fuel with
  | O => s
  | S n =>
      match stripWhiteSpace s with
      | Some rest => trimStartN n rest
      | None => s
      end
  end.

Definition trimStart (s : string) : string := trimStartN (String.length s) s.

(** The string is white space from end to end. *)
Definition isBlank (s : string) : bool :=
  match trimStart s with
  | EmptyString => true
  | _ => false
  end.

Fixpoint trimEnd (s : string) : string :=
  match s with
  | EmptyString => EmptyString
  | String c rest => if isBlank s then EmptyString else String c (trimEnd rest)
  end.

(** [String.prototype.trim]. *)
Definition trim (s : string) : string := trimEnd (trimStart s).

(** Truthiness of a string: only the empty string is falsy. *)
Definition truthy (s : string) : bool :=
  match s with EmptyString => false | _ => true end.

(** [Array.prototype.join(sep)] on an array of strings. *)
Definition join (sep : string) (parts : list string) : string :=
  String.concat sep parts.

(** [String.prototype.split(sep)] for a one-character separator. *)
Fixpoint split (sep : ascii) (s : string) : list string :=
  match s with
  | EmptyString => [EmptyString]
  | String c rest =>
      if Ascii.eqb c sep then EmptyString :: split sep rest
      else match split sep rest with
           | [] => [String c EmptyString]
           | piece :: pieces => String c piece :: pieces
           end
  end.

(** [String.prototype.includes]. *)
Fixpoint includes (hay needle : string) : bool :=
  String.prefix needle hay ||
  match hay with
  | EmptyString => false
  | String _ rest => includes rest needle
  end.

(** Number-to-string conversion of an integer, as a template literal
    performs it: decimal digits, a leading minus sign when negative.
    (ECMAScript switches to exponent notation from 10^21 on; clock
    readings in milliseconds and array indices stay far below.) *)
Definition numberToString (z : Z) : string :=
  NilZero.string_of_int (Z.to_int z).

(** The same for an array index. *)
Definition indexToString (i : nat) : string :=
  numberToString (Z.of_nat i).

(** [Array.prototype.map] with the index passed to the callback. *)
Fixpoint mapi_from {A B : Type} (start : nat) (f : A -> nat -> B)
  (l : list A) : list B :=
  match l with
  | [] => []
  | x :: rest => f x start :: mapi_from (S start) f rest
  end.

Definition mapi {A B : Type} (f : A -> nat -> B) (l : list A) : list B :=
  mapi_from 0 f l.

End Js.

(** ** Data contracts ([src/types.ts]) *)

Inductive DietaryPreference := NONE | VEGETARIAN | VEGAN.

(** The string value of each member of the enum. *)
Definition preferenceValue (p : DietaryPreference) : string :=
  match p with
  | NONE => "Ninguna"
  | VEGETARIAN => "Vegetariano"
  | VEGAN => "Vegano"
  end.

Definition isNONE (p : DietaryPreference) : bool :=
  match p with NONE => true | _ => false end.

Record Ingredient := mkIngredient {
  id : string;
  name : string;
  isPriority : bool
}.

Inductive Difficulty := Facil | Media | Dificil.

Record Recipe := mkRecipe {
  recipe_id : string;
  title : string;
  description : string;
  ingredientsUsed : list string;
  missingIngredients : list string;
  steps : list string;
  difficulty : Difficulty;
  time : string
}.

Inductive ViewState := HOME | CAMERA | INGREDIENTS | RECIPES | RECIPE_DETAIL.

(** ** The browser objects the component touches *)

(** A [MediaStream], seen as the tracks [getTracks()] enumerates. *)
Record MediaStream := mkMediaStream { getTracks : list nat }.

(** The [<video>] element behind [videoRef]: its readiness, its natural
    dimensions and the frame it currently shows. *)
Record VideoElement := mkVideo {
  readyState : nat;
  videoWidth : nat;
  videoHeight : nat;
  currentFrame : nat
}.

Definition HAVE_ENOUGH_DATA : nat := 4.

(** What a canvas holds once a frame has been drawn on it. *)
Record Bitmap := mkBitmap {
  bitmapWidth : nat;
  bitmapHeight : nat;
  pixels : nat
}.

(** The hidden [<canvas>] behind [canvasRef]: whether [getContext('2d')]
    yields a context, and the browser's image serialiser (bitmap, MIME
    type, quality to payload). *)
Record CanvasElement := mkCanvas {
  context2d : bool;
  serialize : Bitmap -> string -> Q -> string
}.

(** [HTMLCanvasElement.toDataURL(type, quality)]: a bitmap without pixels
    serialises to ["data:,"]. *)
Definition toDataURL (canvas : CanvasElement) (b : Bitmap)
  (mime : string) (quality : Q) : string :=
  if Nat.eqb (bitmapWidth b) 0 || Nat.eqb (bitmapHeight b) 0 then "data:,"
  else "data:" ++ mime ++ ";base64," ++ serialize canvas b mime quality.

(** The two refs read by [capturePhoto]; [None] is a ref whose [current]
    is [null]. *)
Record Dom := mkDom {
  videoRef : option VideoElement;
  canvasRef : option CanvasElement
}.

(** ** Component state: one field per [useState] cell of [App] *)

Record AppState := mkState {
  view : ViewState;
  loading : bool;
  loadingMessage : string;
  ingredients : list Ingredient;
  recipes : list Recipe;
  selectedRecipe : option Recipe;
  dietaryPreference : DietaryPreference;
  newIngredientText : string;
  capturedImages : list string;
  stream : option MediaStream
}.

Definition initialState : AppState :=
  mkState HOME false "" [] [] None NONE "" [] None.

(** ** Effects and the handler monad *)

Inductive Provider := OpenAI | Gemini.

Inductive Effect :=
| Alert (message : string)
| ConsoleLog (message : string)
| ConsoleError (label reason : string)
| VisionRequest (provider : Provider) (images : list string)
| TextRequest (provider : Provider) (brief : string)
| GetUserMedia
| TrackStop (track : nat)
| CanvasResize (width height : nat)
| CanvasDrawImage (frame width height : nat).

(** A thrown [Error], by its message. *)
Definition JsError := string.

Inductive Outcome (A : Type) :=
| Returns (value : A)
| Throws (error : JsError).
Arguments Returns {A} value.
Arguments Throws {A} error.

(** How an awaited promise settles. *)
Inductive Reply (A : Type) :=
| Fulfilled (payload : A)
| Rejected (reason : JsError).
Arguments Fulfilled {A} payload.
Arguments Rejected {A} reason.

Definition Handler (A : Type) : Type :=
  AppState -> Outcome A * AppState * list Effect.

Definition ret {A : Type} (a : A) : Handler A :=
  fun s => (Returns a, s, []).

Definition bind {A B : Type} (m : Handler A) (k : A -> Handler B) : Handler B :=
  fun s =>
    match m s with
    | (Returns a, s1, t1) =>
        match k a s1 with
        | (o, s2, t2) => (o, s2, (t1 ++ t2)%list)
        end
    | (Throws e, s1, t1) => (Throws e, s1, t1)
    end.

Declare Scope handler_scope.
Delimit Scope handler_scope with handler.
Notation "x <- m ;; k" := (bind m (fun x => k))
  (at level 61, m at next level, right associativity) : handler_scope.
Notation "m ;; k" := (bind m (fun _ => k))
  (at level 61, right associativity) : handler_scope.
Open Scope handler_scope.

Definition throw {A : Type} (e : JsError) : Handler A :=
  fun s => (Throws e, s, []).

Definition emit (e : Effect) : Handler unit :=
  fun s => (Returns tt, s, [e]).

Definition getState : Handler AppState :=
  fun s => (Returns s, s, []).

Definition modify (f : AppState -> AppState) : Handler unit :=
  fun s => (Returns tt, f s, []).

(** [await p]: resume with the promise's value, or throw its reason. *)
Definition await {A : Type} (p : Reply A) : Handler A :=
  match p with
  | Fulfilled a => ret a
  | Rejected e => throw e
  end.

(** [try { body } catch (error) { handler }]. *)
Definition tryCatch {A : Type} (body : Handler A)
  (handler : JsError -> Handler A) : Handler A :=
  fun s =>
    match body s with
    | (Returns a, s1, t1) => (Returns a, s1, t1)
    | (Throws e, s1, t1) =>
        match handler e s1 with
        | (o, s2, t2) => (o, s2, (t1 ++ t2)%list)
        end
    end.

(** [try { body } finally { cleanup }]: the cleanup runs on both exits;
    its own exception, if any, replaces the body's outcome. *)
Definition tryFinally {A : Type} (body : Handler A)
  (cleanup : Handler unit) : Handler A :=
  fun s =>
    match body s with
    | (o, s1, t1) =>
        match cleanup s1 with
        | (Returns _, s2, t2) => (o, s2, (t1 ++ t2)%list)
        | (Throws e, s2, t2) => (Throws e, s2, (t1 ++ t2)%list)
        end
    end.

Definition tryCatchFinally {A : Type} (body : Handler A)
  (handler : JsError -> Handler A) (cleanup : Handler unit) : Handler A :=
  tryFinally (tryCatch body handler) cleanup.

(** [Array.prototype.forEach] with an effectful callback. *)
Fixpoint forEach {A : Type} (l : list A) (f : A -> Handler unit) : Handler unit :=
  match l with
  | [] => ret tt
  | x :: rest => f x ;; forEach rest f
  end.

Definition alert (message : string) : Handler unit := emit (Alert message).

Definition outcomeOf {A : Type} (r : Outcome A * AppState * list Effect) : Outcome A :=
  fst (fst r).
Definition stateOf {A : Type} (r : Outcome A * AppState * list Effect) : AppState :=
  snd (fst r).
Definition traceOf {A : Type} (r : Outcome A * AppState * list Effect) : list Effect :=
  snd r.

(** The user-visible messages of a trace, in order. *)
Fixpoint alerts (t : list Effect) : list string :=
  match t with
  | [] => []
  | Alert m :: rest => m :: alerts rest
  | _ :: rest => alerts rest
  end.

(** The provider requests of a trace, in order. *)
Fixpoint requests (t : list Effect) : list Effect :=
  match t with
  | [] => []
  | VisionRequest p i :: rest => VisionRequest p i :: requests rest
  | TextRequest p b :: rest => TextRequest p b :: requests rest
  | _ :: rest => requests rest
  end.

(** *** State setters *)

Definition setView (v : ViewState) : Handler unit :=
  modify (fun s => mkState v (loading s) (loadingMessage s) (ingredients s)
    (recipes s) (selectedRecipe s) (dietaryPreference s) (newIngredientText s)
    (capturedImages s) (stream s)).

Definition setLoading (b : bool) : Handler unit :=
  modify (fun s => mkState (view s) b (loadingMessage s) (ingredients s)
    (recipes s) (selectedRecipe s) (dietaryPreference s) (newIngredientText s)
    (capturedImages s) (stream s)).

Definition setLoadingMessage (m : string) : Handler unit :=
  modify (fun s => mkState (view s) (loading s) m (ingredients s)
    (recipes s) (selectedRecipe s) (dietaryPreference s) (newIngredientText s)
    (capturedImages s) (stream s)).

(** [setIngredients(prev => f(prev))], the functional form of the setter. *)
Definition updateIngredients (f : list Ingredient -> list Ingredient) : Handler unit :=
  modify (fun s => mkState (view s) (loading s) (loadingMessage s)
    (f (ingredients s)) (recipes s) (selectedRecipe s) (dietaryPreference s)
    (newIngredientText s) (capturedImages s) (stream s)).

Definition setIngredients (l : list Ingredient) : Handler unit :=
  updateIngredients (fun _ => l).

Definition setRecipes (l : list Recipe) : Handler unit :=
  modify (fun s => mkState (view s) (loading s) (loadingMessage s) (ingredients s)
    l (selectedRecipe s) (dietaryPreference s) (newIngredientText s)
    (capturedImages s) (stream s)).

Definition setSelectedRecipe (r : option Recipe) : Handler unit :=
  modify (fun s => mkState (view s) (loading s) (loadingMessage s) (ingredients s)
    (recipes s) r (dietaryPreference s) (newIngredientText s)
    (capturedImages s) (stream s)).

Definition setDietaryPreference (p : DietaryPreference) : Handler unit :=
  modify (fun s => mkState (view s) (loading s) (loadingMessage s) (ingredients s)
    (recipes s) (selectedRecipe s) p (newIngredientText s)
    (capturedImages s) (stream s)).

Definition setNewIngredientText (t : string) : Handler unit :=
  modify (fun s => mkState (view s) (loading s) (loadingMessage s) (ingredients s)
    (recipes s) (selectedRecipe s) (dietaryPreference s) t
    (capturedImages s) (stream s)).

(** [setCapturedImages(prev => f(prev))]. *)
Definition updateCapturedImages (f : list string -> list string) : Handler unit :=
  modify (fun s => mkState (view s) (loading s) (loadingMessage s) (ingredients s)
    (recipes s) (selectedRecipe s) (dietaryPreference s) (newIngredientText s)
    (f (capturedImages s)) (stream s)).

Definition setCapturedImages (l : list string) : Handler unit :=
  updateCapturedImages (fun _ => l).

Definition setStream (m : option MediaStream) : Handler unit :=
  modify (fun s => mkState (view s) (loading s) (loadingMessage s) (ingredients s)
    (recipes s) (selectedRecipe s) (dietaryPreference s) (newIngredientText s)
    (capturedImages s) m).

(** ** Provider gateway ([services/geminiService]) *)

(** [if (API_KEY_OPENAI)]: an unset or empty environment variable is
    falsy. *)
Definition keyPresent (API_KEY_OPENAI : option string) : bool :=
  match API_KEY_OPENAI with
  | Some k => Js.truthy k
  | None => false
  end.

Definition selectedProvider (API_KEY_OPENAI : option string) : Provider :=
  if keyPresent API_KEY_OPENAI then OpenAI else Gemini.

(** [x || []]. *)
Definition orEmpty {A : Type} (x : option (list A)) : list A :=
  match x with
  | Some l => l
  | None => []
  end.

(** The vision round trip of either provider.  [reply] is how the request
    and the decoding of its body settle: fulfilled with the [ingredients]
    member of the decoded object ([None] when the member is missing or
    null), rejected on a transport error, a non-ok status or a body that
    does not parse. *)
Definition callOpenAIVision (reply : Reply (option (list string)))
  (base64Images : list string) : Handler (list string) :=
  emit (VisionRequest OpenAI base64Images) ;;
  content_ingredients <- await reply ;;
  ret (orEmpty content_ingredients).

Definition callGeminiVision (reply : Reply (option (list string)))
  (base64Images : list string) : Handler (list string) :=
  emit (VisionRequest Gemini base64Images) ;;
  json_ingredients <- await reply ;;
  ret (orEmpty json_ingredients).

Definition detectionFailedMessage : string :=
  "No pudimos identificar los ingredientes. Inténtalo de nuevo.".

Definition detectIngredientsFromImages (API_KEY_OPENAI : option string)
  (reply : Reply (option (list string))) (base64Images : list string)
  : Handler (list string) :=
  tryCatch
    (if keyPresent API_KEY_OPENAI then
       emit (ConsoleLog "Using OpenAI for Vision") ;;
       callOpenAIVision reply base64Images
     else
       emit (ConsoleLog "Using Gemini for Vision") ;;
       callGeminiVision reply base64Images)
    (fun error =>
       emit (ConsoleError "Error detecting ingredients:" error) ;;
       throw detectionFailedMessage).

Definition newline : string := String "010"%char EmptyString.
Definition dquote : string := String "034"%char EmptyString.

Definition promptIntro (ingredientNames : string) : string :=
  "Tengo estos ingredientes disponibles: " ++ ingredientNames ++ ". ".

Definition promptPriority (priorityNames : string) : string :=
  "IMPORTANTE: Debes intentar usar estos ingredientes prioritarios que van a caducar: "
  ++ priorityNames ++ ". ".

Definition promptDiet (preference : DietaryPreference) : string :=
  "Restricción dietética estricta: " ++ preferenceValue preference ++ ". ".

Definition promptRequest : string :=
  newline
  ++ "      Sugiere 4 recetas sencillas y creativas que maximicen el uso de mis ingredientes disponibles. "
  ++ newline
  ++ "      Se permiten sugerir ingredientes básicos de despensa (sal, aceite, pimienta, agua) sin listarlos como "
  ++ dquote ++ "faltantes" ++ dquote ++ "."
  ++ newline
  ++ "      Prioriza recetas donde 'missingIngredients' sea una lista vacía o muy corta."
  ++ newline
  ++ "    ".

(** The [prompt] variable of [suggestRecipes], as it stands when the
    provider is chosen. *)
Definition buildPrompt (ingredients : list Ingredient)
  (preference : DietaryPreference) : string :=
  let ingredientNames := Js.join ", " (map name ingredients) in
  let priorityNames := Js.join ", " (map name (filter isPriority ingredients)) in
  let prompt := promptIntro ingredientNames in
  let prompt :=
    if Js.truthy priorityNames then prompt ++ promptPriority priorityNames
    else prompt in
  let prompt :=
    if negb (isNONE preference) then prompt ++ promptDiet preference
    else prompt in
  prompt ++ promptRequest.

(** [{ ...r, id }]. *)
Definition withId (r : Recipe) (newId : string) : Recipe :=
  mkRecipe newId (title r) (description r) (ingredientsUsed r)
    (missingIngredients r) (steps r) (difficulty r) (time r).

(** The text round trip.  [reply] is fulfilled with the decoded recipe
    array ([None] when it is missing); [now] is the reading of
    [Date.now()] in the mapping callback at each index. *)
Definition callOpenAIText (reply : Reply (option (list Recipe)))
  (now : nat -> Z) (prompt : string) : Handler (list Recipe) :=
  emit (TextRequest OpenAI prompt) ;;
  content_recipes <- await reply ;;
  ret (Js.mapi (fun r index =>
         withId r ("recipe-openai-" ++ Js.numberToString (now index)
                   ++ "-" ++ Js.indexToString index))
       (orEmpty content_recipes)).

Definition callGeminiText (reply : Reply (option (list Recipe)))
  (now : nat -> Z) (prompt : string) : Handler (list Recipe) :=
  emit (TextRequest Gemini (prompt ++ " Devuelve la respuesta en formato JSON.")) ;;
  rawRecipes <- await reply ;;
  ret (Js.mapi (fun r index =>
         withId r ("recipe-gemini-" ++ Js.numberToString (now index)
                   ++ "-" ++ Js.indexToString index))
       (orEmpty rawRecipes)).

Definition suggestionFailedMessage : string :=
  "No pudimos generar recetas en este momento.".

Definition suggestRecipes (API_KEY_OPENAI : option string)
  (reply : Reply (option (list Recipe))) (now : nat -> Z)
  (ingredients : list Ingredient) (preference : DietaryPreference)
  : Handler (list Recipe) :=
  tryCatch
    (let prompt := buildPrompt ingredients preference in
     if keyPresent API_KEY_OPENAI then
       emit (ConsoleLog "Using OpenAI for Recipes") ;;
       callOpenAIText reply now prompt
     else
       emit (ConsoleLog "Using Gemini for Recipes") ;;
       callGeminiText reply now prompt)
    (fun error =>
       emit (ConsoleError "Error generating recipes:" error) ;;
       throw suggestionFailedMessage).

(** ** Handlers of [App]

    An [async] handler is run from its call to its completion, the
    settled promise being passed in; the loading overlay covers the view
    while the request is in flight.  A handler reads the state cells as
    its closure holds them, that is as they are when it is called. *)

Definition ingestionAlert : string := "Ocurrió un error. Inténtalo de nuevo.".

(** The id and the display name [processImages] gives to the name
    detected at position [idx], [stamp] being the clock read for it. *)
Definition detectedId (stamp : Z) (idx : nat) : string :=
  "ing-" ++ Js.numberToString stamp ++ "-" ++ Js.indexToString idx.

Definition capitalize (name : string) : string :=
  Js.toUpperCase (Js.charAt0 name) ++ Js.slice1 name.

(** [processImages].  [now idx] is what [Date.now()] returns inside the
    mapping callback at index [idx]. *)
Definition processImages (API_KEY_OPENAI : option string)
  (reply : Reply (option (list string))) (now : nat -> Z)
  (images : list string) : Handler unit :=
  setLoading true ;;
  setLoadingMessage "Detectando ingredientes..." ;;
  tryCatchFinally
    (detectedNames <- detectIngredientsFromImages API_KEY_OPENAI reply images ;;
     let newIngredients :=
       Js.mapi (fun name idx =>
                  mkIngredient (detectedId (now idx) idx) (capitalize name) false)
               detectedNames in
     updateIngredients (fun prev => (prev ++ newIngredients)%list) ;;
     setView INGREDIENTS)
    (fun error => alert ingestionAlert)
    (setLoading false).

Definition cameraAlert : string :=
  "No pudimos acceder a la cámara. Revisa los permisos.".

(** [startCamera]; [granted] is how [getUserMedia] settles. *)
Definition startCamera (granted : Reply MediaStream) : Handler unit :=
  setCapturedImages [] ;;
  setView CAMERA ;;
  tryCatch
    (emit GetUserMedia ;;
     mediaStream <- await granted ;;
     setStream (Some mediaStream))
    (fun err =>
       emit (ConsoleError "Error connecting to camera:" err) ;;
       alert cameraAlert ;;
       setView HOME).

Definition stopCamera : Handler unit :=
  s <- getState ;;
  match stream s with
  | Some mediaStream =>
      forEach (getTracks mediaStream) (fun track => emit (TrackStop track)) ;;
      setStream None
  | None => ret tt
  end.

Definition jpegQuality : Q := 0.8%Q.

Definition capturePhoto (dom : Dom) : Handler unit :=
  match videoRef dom, canvasRef dom with
  | Some video, Some canvas =>
      if Nat.eqb (readyState video) HAVE_ENOUGH_DATA || Nat.ltb 0 (videoWidth video)
      then
        emit (CanvasResize (videoWidth video) (videoHeight video)) ;;
        if context2d canvas then
          emit (CanvasDrawImage (currentFrame video)
                  (videoWidth video) (videoHeight video)) ;;
          let dataUrl :=
            toDataURL canvas
              (mkBitmap (videoWidth video) (videoHeight video) (currentFrame video))
              "image/jpeg" jpegQuality in
          let base64 := nth 1 (Js.split "," dataUrl) "" in
          updateCapturedImages (fun prev => (prev ++ [base64])%list)
        else ret tt
      else ret tt
  | _, _ => ret tt
  end.

Definition finishCameraSession (API_KEY_OPENAI : option string)
  (reply : Reply (option (list string))) (now : nat -> Z) : Handler unit :=
  s <- getState ;;
  stopCamera ;;
  if Nat.ltb 0 (List.length (capturedImages s)) then
    processImages API_KEY_OPENAI reply now (capturedImages s)
  else setView HOME.

Definition manualId (stamp : Z) : string :=
  "manual-" ++ Js.numberToString stamp.

(** [addManualIngredient]; [now] is the reading of [Date.now()]. *)
Definition addManualIngredient (now : Z) : Handler unit :=
  s <- getState ;;
  if negb (Js.truthy (Js.trim (newIngredientText s))) then ret tt
  else
    let newIng :=
      mkIngredient (manualId now) (Js.trim (newIngredientText s)) false in
    setIngredients (ingredients s ++ [newIng])%list ;;
    setNewIngredientText "".

Definition removeIngredient (id0 : string) : Handler unit :=
  s <- getState ;;
  setIngredients (filter (fun i => negb (String.eqb (id i) id0)) (ingredients s)).

Definition togglePriority (id0 : string) : Handler unit :=
  s <- getState ;;
  setIngredients
    (map (fun i => if String.eqb (id i) id0
                   then mkIngredient (id i) (name i) (negb (isPriority i))
                   else i)
         (ingredients s)).

Definition validationAlert : string := "Añade al menos un ingrediente.".
Definition recipesAlert : string := "Error al generar recetas. Inténtalo más tarde.".

Definition handleGenerateRecipes (API_KEY_OPENAI : option string)
  (reply : Reply (option (list Recipe))) (now : nat -> Z) : Handler unit :=
  s <- getState ;;
  if Nat.eqb (List.length (ingredients s)) 0 then
    alert validationAlert
  else
    setLoading true ;;
    setLoadingMessage "Diseñando recetas con tus ingredientes..." ;;
    tryCatchFinally
      (generatedRecipes <-
         suggestRecipes API_KEY_OPENAI reply now (ingredients s) (dietaryPreference s) ;;
       setRecipes generatedRecipes ;;
       setView RECIPES)
      (fun error => alert recipesAlert)
      (setLoading false).

(** ** Roster operations as a script *)

(** One user-level operation on the roster, with what the environment
    supplies to it.  A manual add is the text being typed into the entry
    field followed by the add handler. *)
Inductive RosterOp :=
| DetectionBatch (API_KEY_OPENAI : option string)
    (reply : Reply (option (list string))) (now : nat -> Z) (images : list string)
| ManualAdd (text : string) (now : Z)
| Remove (id0 : string)
| TogglePriority (id0 : string).

Definition applyOp (op : RosterOp) : Handler unit :=
  match op with
  | DetectionBatch key reply now images => processImages key reply now images
  | ManualAdd text now => setNewIngredientText text ;; addManualIngredient now
  | Remove id0 => removeIngredient id0
  | TogglePriority id0 => togglePriority id0
  end.

Definition runOps (ops : list RosterOp) : Handler unit := forEach ops applyOp.

(** Where an id comes from: the clock reading and, for a detected name,
    its position in the batch. *)
Inductive IdSource :=
| FromDetection (stamp : Z) (idx : nat)
| FromManual (stamp : Z).

Definition renderId (k : IdSource) : string :=
  match k with
  | FromDetection stamp idx => detectedId stamp idx
  | FromManual stamp => manualId stamp
  end.

(** The id sources an operation draws. *)
Definition drawn (op : RosterOp) : list IdSource :=
  match op with
  | DetectionBatch _ (Fulfilled names) now _ =>
      Js.mapi (fun _ idx => FromDetection (now idx) idx) (orEmpty names)
  | DetectionBatch _ (Rejected _) _ _ => []
  | ManualAdd text now =>
      if Js.truthy (Js.trim text) then [FromManual now] else []
  | Remove _ => []
  | TogglePriority _ => []
  end.

(** ** Vocabulary of the properties *)

(** The device handle is held. *)
Definition deviceActive (s : AppState) : bool :=
  match stream s with Some _ => true | None => false end.

(** The video source has a decoded frame with non-zero natural
    dimensions. *)
Definition hasDecodedFrame (dom : Dom) : bool :=
  match videoRef dom with
  | Some video => Nat.ltb 0 (videoWidth video) && Nat.ltb 0 (videoHeight video)
  | None => false
  end.

(** The guard [capturePhoto] itself evaluates on the video element. *)
Definition videoReady (video : VideoElement) : bool :=
  Nat.eqb (readyState video) HAVE_ENOUGH_DATA || Nat.ltb 0 (videoWidth video).

(** The token [capturePhoto] stores for a frame: the part of the JPEG data
    URL after its first comma. *)
Definition encodedFrame (canvas : CanvasElement) (video : VideoElement) : string :=
  nth 1 (Js.split ","
           (toDataURL canvas
              (mkBitmap (videoWidth video) (videoHeight video) (currentFrame video))
              "image/jpeg" jpegQuality)) "".

(** Everything [capturePhoto] tests before it stores a frame: both refs
    set, the video ready, a 2D context obtained. *)
Definition captureGuard (dom : Dom) : bool :=
  match videoRef dom, canvasRef dom with
  | Some video, Some canvas => videoReady video && context2d canvas
  | _, _ => false
  end.

(** White space of ECMAScript, by code point: the [WhiteSpace] and
    [LineTerminator] productions. *)
Definition isWhiteSpaceCodePoint (cp : N) : bool :=
  ((9 <=? cp) && (cp <=? 13))%N
  || (cp =? 32)%N
  || (cp =? 160)%N
  || (cp =? 5760)%N
  || ((8192 <=? cp) && (cp <=? 8202))%N
  || (cp =? 8232)%N || (cp =? 8233)%N
  || (cp =? 8239)%N
  || (cp =? 8287)%N
  || (cp =? 12288)%N
  || (cp =? 65279)%N.

(** The UTF-8 form of a code point of the Basic Multilingual Plane. *)
Definition utf8 (cp : N) : string :=
  if (cp <? 128)%N then
    String (ascii_of_N cp) EmptyString
  else if (cp <? 2048)%N then
    String (ascii_of_N (192 + cp / 64))
      (String (ascii_of_N (128 + cp mod 64)) EmptyString)
  else
    String (ascii_of_N (224 + cp / 4096))
      (String (ascii_of_N (128 + (cp / 64) mod 64))
         (String (ascii_of_N (128 + cp mod 64)) EmptyString)).

(** The code points [isWhiteSpaceCodePoint] accepts, listed. *)
Definition whiteSpaceCodePoints : list N :=
  [9; 10; 11; 12; 13; 32; 160; 5760; 8192; 8193; 8194; 8195; 8196; 8197;
   8198; 8199; 8200; 8201; 8202; 8232; 8233; 8239; 8287; 12288; 65279]%N.

(** A string made of white space characters only. *)
Inductive WhiteSpaceRun : string -> Prop :=
| run_empty : WhiteSpaceRun EmptyString
| run_more (cp : N) (rest : string) :
    isWhiteSpaceCodePoint cp = true -> WhiteSpaceRun rest ->
    WhiteSpaceRun (utf8 cp ++ rest).

Definition startsWith (p s : string) : Prop := exists rest, s = p ++ rest.
Definition endsWith (p s : string) : Prop := exists front, s = front ++ p.

Definition isPrefix (p s : string) : bool :=
  match Js.stripPrefix p s with
  | Some _ => true
  | None => false
  end.

(** No string of the list starts another one. *)
Fixpoint prefixFree (l : list string) : bool :=
  match l with
  | [] => true
  | w :: more =>
      forallb (fun w' => negb (isPrefix w w') && negb (isPrefix w' w)) more
      && prefixFree more
  end.

(** A byte 10xxxxxx, which continues a character. *)
Definition isContinuation (c : ascii) : bool :=
  Nat.leb 128 (nat_of_ascii c) && Nat.ltb (nat_of_ascii c) 192.

Fixpoint allContinuation (s : string) : bool :=
  match s with
  | EmptyString => true
  | String c rest => isContinuation c && allContinuation rest
  end.

(** The number of bytes of the character a lead byte opens. *)
Definition charBytes (c : ascii) : nat :=
  let n := nat_of_ascii c in
  if Nat.ltb n 192 then 1
  else if Nat.ltb n 224 then 2
  else if Nat.ltb n 240 then 3
  else 4.

(** The upper-case form of an ASCII character. *)
Definition asciiUpper (c : ascii) : ascii :=
  let n := nat_of_ascii c in
  if Nat.leb 97 n && Nat.leb n 122 then ascii_of_nat (n - 32) else c.

(** No character of the string is the given one. *)
Fixpoint lacks (c : ascii) (s : string) : bool :=
  match s with
  | EmptyString => true
  | String a rest => negb (Ascii.eqb a c) && lacks c rest
  end.

(** The brief each provider receives for a prompt. *)
Definition briefFor (p : Provider) (prompt : string) : string :=
  match p with
  | OpenAI => prompt
  | Gemini => prompt ++ " Devuelve la respuesta en formato JSON."
  end.

(** Some ingredient of the roster carries the priority flag. *)
Definition anyPriority (l : list Ingredient) : bool := existsb isPriority l.

(** The text [needle] occurs somewhere in the text [hay]. *)
Definition occursIn (needle hay : string) : Prop :=
  exists front back, hay = front ++ needle ++ back.

(** The ingredients a detection response is mapped to. *)
Definition newIngredientsOf (now : nat -> Z) (detectedNames : list string) : list Ingredient :=
  Js.mapi (fun name idx =>
             mkIngredient (detectedId (now idx) idx) (capitalize name) false)
          detectedNames.

Definition withLoading (s : AppState) (b : bool) (m : string) : AppState :=
  mkState (view s) b m (ingredients s) (recipes s) (selectedRecipe s)
    (dietaryPreference s) (newIngredientText s) (capturedImages s) (stream s).

(** ** Closures, the effect hooks and the remaining handlers

    A function created during one render keeps the state cells of that
    render.  Handlers attached as props are replaced at every render and
    so read the state of the call; a function kept by an effect is only
    replaced when the effect's dependencies change, and what it holds
    (its [bound] state) is an explicit argument here. *)

(** [stopCamera] as a closure over the [stream] cell holds it. *)
Definition stopCameraWith (boundStream : option MediaStream) : Handler unit :=
  match boundStream with
  | Some mediaStream =>
      forEach (getTracks mediaStream) (fun track => emit (TrackStop track)) ;;
      setStream None
  | None => ret tt
  end.

Definition isCAMERA (v : ViewState) : bool :=
  match v with CAMERA => true | _ => false end.

(** The cleanup returned by the effect on [[view, stream]]: it tests the
    [view] and calls the [stopCamera] of the render that created it. *)
Definition streamEffectCleanup (boundView : ViewState)
  (boundStream : option MediaStream) : Handler unit :=
  if negb (isCAMERA boundView) then stopCameraWith boundStream else ret tt.

(** [handleKeyDown], the window listener installed by the effect on
    [[view]] while the view is CAMERA.  The value returned tells whether
    [preventDefault] was called on the event. *)
Definition handleKeyDown (boundStream : option MediaStream) (dom : Dom)
  (key : string) : Handler bool :=
  prevented <-
    (if String.eqb key "Enter" then capturePhoto dom ;; ret true else ret false) ;;
  (if String.eqb key "Escape" then stopCameraWith boundStream ;; setView HOME
   else ret tt) ;;
  ret prevented.

(** The close button of the camera view:
    [() => { stopCamera(); setView('HOME'); }]. *)
Definition cancelCamera : Handler unit :=
  stopCamera ;; setView HOME.

(** How [FileReader.readAsDataURL] ends: with an error, [result] being
    [null], or with a data URL, a header and a payload around the first
    comma of its data part. *)
Inductive ReadResult :=
| ReadFailed
| ReadDone (header payload : string).

Definition readerResult (r : ReadResult) : option string :=
  match r with
  | ReadFailed => None
  | ReadDone header payload => Some (header ++ "," ++ payload)
  end.

Definition nullSplitError : JsError := "TypeError".

(** The [onloadend] callback set by [handleFileUpload]; calling [split]
    on a [null] result throws. *)
Definition onloadend (API_KEY_OPENAI : option string)
  (reply : Reply (option (list string))) (now : nat -> Z)
  (result : option string) : Handler unit :=
  match result with
  | None => throw nullSplitError
  | Some base64String =>
      let base64Data := nth 1 (Js.split "," base64String) "" in
      processImages API_KEY_OPENAI reply now [base64Data]
  end.

(** [handleFileUpload] up to its return: [file] is [event.target.files?.[0]].
    Creating the reader and starting the read do not throw, so the [catch]
    block is not entered; the reset of the file input in [finally] touches
    no state cell. *)
Definition handleFileUpload (file : option ReadResult) : Handler unit :=
  match file with
  | None => ret tt
  | Some _ =>
      setLoading true ;;
      setLoadingMessage "Analizando imagen..."
  end.

(** A promise nobody awaits: its rejection goes nowhere. *)
Definition detached {A : Type} (h : Handler A) : Handler unit :=
  tryCatch (h ;; ret tt) (fun _ => ret tt).

(** A file selection from the change event to the end of the read. *)
Definition uploadFile (API_KEY_OPENAI : option string)
  (reply : Reply (option (list string))) (now : nat -> Z)
  (file : option ReadResult) : Handler unit :=
  handleFileUpload file ;;
  match file with
  | None => ret tt
  | Some read => detached (onloadend API_KEY_OPENAI reply now (readerResult read))
  end.

(** ** The rendered controls

    One event per control of the five screens, with what the environment
    supplies to its handler.  A control acts only while its screen is the
    one rendered ([view === ... && render...()]), the done button only
    with a non-empty capture buffer, the suggest button only while not
    [disabled], a row button only for a row that exists.  [KeyPressed] is
    the window listener, installed while the view is CAMERA, with the
    stream of the render that installed it; [CleanupRun] is the cleanup of
    the stream effect, which may run at any time, with the view and the
    stream of the render that created it. *)
Inductive UiEvent :=
| ScanClicked (granted : Reply MediaStream)
| FilePicked (API_KEY_OPENAI : option string)
    (reply : Reply (option (list string))) (now : nat -> Z)
    (file : option ReadResult)
| ManualEntryClicked
| CancelClicked
| CaptureClicked (dom : Dom)
| DoneClicked (API_KEY_OPENAI : option string)
    (reply : Reply (option (list string))) (now : nat -> Z)
| KeyPressed (boundStream : option MediaStream) (dom : Dom) (key : string)
| CleanupRun (boundView : ViewState) (boundStream : option MediaStream)
| IngredientsBackClicked
| TextTyped (text : string)
| AddSubmitted (now : Z)
| PriorityClicked (row : nat)
| TrashClicked (row : nat)
| PreferenceClicked (pref : DietaryPreference)
| SuggestClicked (API_KEY_OPENAI : option string)
    (reply : Reply (option (list Recipe))) (now : nat -> Z)
| RecipesBackClicked
| RecipeClicked (row : nat)
| DetailBackClicked.

Definition viewIs (v : ViewState) (s : AppState) : bool :=
  match v, view s with
  | HOME, HOME => true
  | CAMERA, CAMERA => true
  | INGREDIENTS, INGREDIENTS => true
  | RECIPES, RECIPES => true
  | RECIPE_DETAIL, RECIPE_DETAIL => true
  | _, _ => false
  end.

Definition when (b : bool) (h : Handler unit) : Handler unit :=
  if b then h else ret tt.

Definition dispatch (e : UiEvent) : Handler unit :=
  s <- getState ;;
  match e with
  | ScanClicked granted => when (viewIs HOME s) (startCamera granted)
  | FilePicked key reply now file =>
      when (viewIs HOME s) (uploadFile key reply now file)
  | ManualEntryClicked => when (viewIs HOME s) (setView INGREDIENTS)
  | CancelClicked => when (viewIs CAMERA s) cancelCamera
  | CaptureClicked dom => when (viewIs CAMERA s) (capturePhoto dom)
  | DoneClicked key reply now =>
      when (viewIs CAMERA s && Nat.ltb 0 (List.length (capturedImages s)))
           (finishCameraSession key reply now)
  | KeyPressed boundStream dom key =>
      when (viewIs CAMERA s) (handleKeyDown boundStream dom key ;; ret tt)
  | CleanupRun boundView boundStream => streamEffectCleanup boundView boundStream
  | IngredientsBackClicked => when (viewIs INGREDIENTS s) (setView HOME)
  | TextTyped text => when (viewIs INGREDIENTS s) (setNewIngredientText text)
  | AddSubmitted now => when (viewIs INGREDIENTS s) (addManualIngredient now)
  | PriorityClicked row =>
      when (viewIs INGREDIENTS s)
           (match nth_error (ingredients s) row with
            | Some ing => togglePriority (id ing)
            | None => ret tt
            end)
  | TrashClicked row =>
      when (viewIs INGREDIENTS s)
           (match nth_error (ingredients s) row with
            | Some ing => removeIngredient (id ing)
            | None => ret tt
            end)
  | PreferenceClicked pref => when (viewIs INGREDIENTS s) (setDietaryPreference pref)
  | SuggestClicked key reply now =>
      when (viewIs INGREDIENTS s && negb (Nat.eqb (List.length (ingredients s)) 0))
           (handleGenerateRecipes key reply now)
  | RecipesBackClicked => when (viewIs RECIPES s) (setView INGREDIENTS)
  | RecipeClicked row =>
      when (viewIs RECIPES s)
           (match nth_error (recipes s) row with
            | Some recipe => setSelectedRecipe (Some recipe) ;; setView RECIPE_DETAIL
            | None => ret tt
            end)
  | DetailBackClicked =>
      when (viewIs RECIPE_DETAIL s
            && match selectedRecipe s with Some _ => true | None => false end)
           (setView RECIPES)
  end.

Definition runEvents (events : list UiEvent) : Handler unit :=
  forEach events dispatch.

(** The detail screen has something to show: the selected recipe, one of
    the current batch. *)
Definition detailShowsRecipe (s : AppState) : Prop :=
  view s = RECIPE_DETAIL ->
  exists recipe, selectedRecipe s = Some recipe /\ In recipe (recipes s).

(** A file selection whose read fails. *)
Definition isFailedRead (e : UiEvent) : bool :=
  match e with
  | FilePicked _ _ _ (Some ReadFailed) => true
  | _ => false
  end.

(** The id the recipe at position [index] of a batch receives. *)
Definition recipeId (p : Provider) (stamp : Z) (index : nat) : string :=
  match p with
  | OpenAI => "recipe-openai-"
  | Gemini => "recipe-gemini-"
  end ++ Js.numberToString stamp ++ "-" ++ Js.indexToString index.

(** Two recipes agree on everything the provider supplied but the id. *)
Definition sameBody (a b : Recipe) : Prop :=
  title a = title b /\ description a = description b
  /\ ingredientsUsed a = ingredientsUsed b
  /\ missingIngredients a = missingIngredients b
  /\ steps a = steps b /\ difficulty a = difficulty b /\ time a = time b.

(** [l] starts with [p]. *)
Definition isPrefixOf {A : Type} (p l : list A) : Prop :=
  exists rest, l = (p ++ rest)%list.

(** What [togglePriority] maps over the roster and what
    [removeIngredient] filters it with. *)
Definition toggleEntry (id0 : string) (i : Ingredient) : Ingredient :=
  if String.eqb (id i) id0
  then mkIngredient (id i) (name i) (negb (isPriority i))
  else i.

Definition otherThan (id0 : string) (i : Ingredient) : bool :=
  negb (String.eqb (id i) id0).

(** The screens a screen can hand over to, itself included. *)
Definition nextViews (v : ViewState) : list ViewState :=
  match v with
  | HOME => [HOME; CAMERA; INGREDIENTS]
  | CAMERA => [CAMERA; HOME; INGREDIENTS]
  | INGREDIENTS => [INGREDIENTS; HOME; RECIPES]
  | RECIPES => [RECIPES; INGREDIENTS; RECIPE_DETAIL]
  | RECIPE_DETAIL => [RECIPE_DETAIL; RECIPES]
  end.

(** * Properties *)

(** ** Indexed mapping *)

Section Mapi.
Context {A B : Type}.

Lemma mapi_from_length (f : A -> nat -> B) (l : list A) :
  forall k, List.length (Js.mapi_from k f l) = List.length l.
Proof. induction l as [|x l IH]; intros k; simpl; [|rewrite IH]; reflexivity. Qed.

Lemma map_mapi_from {C : Type} (g : B -> C) (f : A -> nat -> B) (l : list A) :
  forall k, map g (Js.mapi_from k f l) = Js.mapi_from k (fun x i => g (f x i)) l.
Proof. induction l as [|x l IH]; intros k; simpl; [|rewrite IH]; reflexivity. Qed.

Lemma mapi_from_index_only (h : nat -> B) (l : list A) :
  forall k, Js.mapi_from k (fun _ i => h i) l = map h (seq k (List.length l)).
Proof. induction l as [|x l IH]; intros k; simpl; [|rewrite IH]; reflexivity. Qed.

Lemma mapi_from_value_only (h : A -> B) (l : list A) :
  forall k, Js.mapi_from k (fun x _ => h x) l = map h l.
Proof. induction l as [|x l IH]; intros k; simpl; [|rewrite IH]; reflexivity. Qed.
End Mapi.

Lemma nth_error_mapi_from {A B : Type} (f : A -> nat -> B) (l : list A) :
  forall k i,
    nth_error (Js.mapi_from k f l) i
    = option_map (fun x => f x (k + i)) (nth_error l i).
Proof.
  induction l as [|x l IH]; intros k i.
  - destruct i; reflexivity.
  - destruct i as [|i]; cbn [Js.mapi_from nth_error option_map].
    + rewrite Nat.add_0_r. reflexivity.
    + rewrite IH. rewrite <- plus_n_Sm. reflexivity.
Qed.

Lemma map_const_repeat {A B : Type} (b : B) (l : list A) :
  map (fun _ => b) l = repeat b (List.length l).
Proof. induction l as [|x l IH]; simpl; [|rewrite IH]; reflexivity. Qed.

(** ** Ingestion: [processImages] *)

Lemma processImages_fulfilled key names now images s :
  processImages key (Fulfilled names) now images s =
  (Returns tt,
   mkState INGREDIENTS false "Detectando ingredientes..."
     (ingredients s ++ newIngredientsOf now (orEmpty names))%list
     (recipes s) (selectedRecipe s) (dietaryPreference s) (newIngredientText s)
     (capturedImages s) (stream s),
   [ConsoleLog (match selectedProvider key with
                | OpenAI => "Using OpenAI for Vision"
                | Gemini => "Using Gemini for Vision"
                end);
    VisionRequest (selectedProvider key) images]).
Proof.
  unfold processImages, detectIngredientsFromImages, selectedProvider.
  destruct (keyPresent key); reflexivity.
Qed.

Lemma processImages_rejected key reason now images s :
  processImages key (Rejected reason) now images s =
  (Returns tt,
   withLoading s false "Detectando ingredientes...",
   [ConsoleLog (match selectedProvider key with
                | OpenAI => "Using OpenAI for Vision"
                | Gemini => "Using Gemini for Vision"
                end);
    VisionRequest (selectedProvider key) images;
    ConsoleError "Error detecting ingredients:" reason;
    Alert ingestionAlert]).
Proof.
  unfold processImages, detectIngredientsFromImages, selectedProvider.
  destruct (keyPresent key); reflexivity.
Qed.

(** C2 (confirmed). Processing a detection response appends to the roster
    one new ingredient per name of the response list, in order, and none
    when the response carries no list.  The ingredient at position [idx]
    has the id "ing-", the clock reading, "-", the position; its name is
    the detected name with its first code unit in upper case; its flag is
    false.  The entries already in the roster stay, unchanged and in
    place, in front of the new ones, and the view becomes INGREDIENTS. *)
Theorem processImages_appends_detected :
  forall key names now images s,
    let r := processImages key (Fulfilled names) now images s in
    outcomeOf r = Returns tt
    /\ view (stateOf r) = INGREDIENTS
    /\ exists added,
         ingredients (stateOf r) = (ingredients s ++ added)%list
         /\ match names with
            | Some detectedNames =>
                List.length added = List.length detectedNames
                /\ forall idx detected,
                     nth_error detectedNames idx = Some detected ->
                     nth_error added idx
                     = Some (mkIngredient
                               ("ing-" ++ Js.numberToString (now idx) ++ "-"
                                ++ Js.indexToString idx)
                               (Js.toUpperCase (Js.charAt0 detected)
                                ++ Js.slice1 detected)
                               false)
            | None => added = []
            end.
Proof.
  intros key names now images s r.
  subst r. rewrite processImages_fulfilled.
  cbn [outcomeOf stateOf fst snd view ingredients].
  split; [reflexivity|]. split; [reflexivity|].
  exists (newIngredientsOf now (orEmpty names)).
  split; [reflexivity|].
  destruct names as [detectedNames|]; cbn [orEmpty]; [|reflexivity].
  unfold newIngredientsOf, Js.mapi. split; [apply mapi_from_length|].
  intros idx detected Hnth.
  rewrite nth_error_mapi_from, Hnth. reflexivity.
Qed.

(** Whatever makes the round trip fail, the gateway throws the same
    error. *)
Lemma detectIngredients_normalizes key reason images s :
  outcomeOf (detectIngredientsFromImages key (Rejected reason) images s)
  = Throws detectionFailedMessage.
Proof.
  unfold detectIngredientsFromImages. destruct (keyPresent key); reflexivity.
Qed.

(** C3 (confirmed). When the detection round trip fails, whatever the
    reason, the handler returns normally, the user sees exactly one
    message, always the same one; the roster and the view are as before
    (nothing but the loading flag and its caption is written) and the
    loading flag is false.  On the success path the loading flag is false
    at the end as well. *)
Theorem processImages_failure_cleanup :
  forall key now images s,
    (forall reason,
       let r := processImages key (Rejected reason) now images s in
       outcomeOf (detectIngredientsFromImages key (Rejected reason) images s)
         = Throws detectionFailedMessage
       /\ outcomeOf r = Returns tt
       /\ alerts (traceOf r) = [ingestionAlert]
       /\ ingredients (stateOf r) = ingredients s
       /\ view (stateOf r) = view s
       /\ loading (stateOf r) = false
       /\ stateOf r = withLoading s false "Detectando ingredientes...")
    /\ (forall names,
          let r := processImages key (Fulfilled names) now images s in
          outcomeOf r = Returns tt
          /\ alerts (traceOf r) = []
          /\ loading (stateOf r) = false).
Proof.
  intros key now images s. split.
  - intros reason r. subst r.
    rewrite detectIngredients_normalizes, processImages_rejected.
    repeat split.
  - intros names r. subst r. rewrite processImages_fulfilled.
    repeat split.
Qed.

(** ** Recipe requests: [handleGenerateRecipes] *)

Lemma suggestRecipes_normalizes key reason now ings pref s :
  suggestRecipes key (Rejected reason) now ings pref s =
  (Throws suggestionFailedMessage, s,
   [ConsoleLog (match selectedProvider key with
                | OpenAI => "Using OpenAI for Recipes"
                | Gemini => "Using Gemini for Recipes"
                end);
    TextRequest (selectedProvider key)
      (briefFor (selectedProvider key) (buildPrompt ings pref));
    ConsoleError "Error generating recipes:" reason]).
Proof.
  unfold suggestRecipes, selectedProvider.
  destruct (keyPresent key); reflexivity.
Qed.

(** C4 (confirmed). With an empty roster the handler only shows the
    validation message: the trace is that single alert, so no request
    reaches a provider, and the state, the view included, is the state it
    started from. *)
Theorem handleGenerateRecipes_empty_roster :
  forall key reply now s,
    ingredients s = [] ->
    handleGenerateRecipes key reply now s = (Returns tt, s, [Alert validationAlert])
    /\ alerts (traceOf (handleGenerateRecipes key reply now s)) = [validationAlert]
    /\ requests (traceOf (handleGenerateRecipes key reply now s)) = []
    /\ stateOf (handleGenerateRecipes key reply now s) = s
    /\ view (stateOf (handleGenerateRecipes key reply now s)) = view s.
Proof.
  intros key reply now s Hempty.
  assert (Hrun : handleGenerateRecipes key reply now s
                 = (Returns tt, s, [Alert validationAlert])).
  { unfold handleGenerateRecipes, bind, getState. rewrite Hempty. reflexivity. }
  rewrite Hrun. repeat split.
Qed.

Lemma handleGenerateRecipes_empty_roster_witness :
  let s := mkState INGREDIENTS false "" [] [] None VEGAN "" [] None in
  view (stateOf (handleGenerateRecipes None (Rejected "offline") (fun _ => 0%Z) s))
  = INGREDIENTS.
Proof.
  intros s.
  destruct (handleGenerateRecipes_empty_roster None (Rejected "offline")
              (fun _ => 0%Z) s eq_refl) as (_ & _ & _ & _ & Hview).
  exact Hview.
Defined.

Lemma handleGenerateRecipes_rejected key reason now s :
  ingredients s <> [] ->
  handleGenerateRecipes key (Rejected reason) now s =
  (Returns tt,
   withLoading s false "Diseñando recetas con tus ingredientes...",
   [ConsoleLog (match selectedProvider key with
                | OpenAI => "Using OpenAI for Recipes"
                | Gemini => "Using Gemini for Recipes"
                end);
    TextRequest (selectedProvider key)
      (briefFor (selectedProvider key)
         (buildPrompt (ingredients s) (dietaryPreference s)));
    ConsoleError "Error generating recipes:" reason;
    Alert recipesAlert]).
Proof.
  intros Hne.
  unfold handleGenerateRecipes, bind at 1, getState.
  destruct (ingredients s) as [|i rest] eqn:Hing; [contradiction|].
  cbn [List.length Nat.eqb].
  unfold tryCatchFinally, tryFinally, tryCatch, bind.
  cbn [setLoading setLoadingMessage modify].
  rewrite suggestRecipes_normalizes.
  cbn. unfold withLoading. rewrite Hing. reflexivity.
Qed.

(** C5 (confirmed). When the recipe round trip fails on a non-empty
    roster, whatever the reason, the gateway throws its one error, the
    user sees exactly one message, and the state afterwards is the
    starting state with the loading flag false and the loading caption
    set: recipe batch, roster, view, selection, preference, entry field,
    capture buffer and device handle are all as before. *)
Theorem handleGenerateRecipes_failure_preserves :
  forall key reason now s,
    ingredients s <> [] ->
    let r := handleGenerateRecipes key (Rejected reason) now s in
    outcomeOf (suggestRecipes key (Rejected reason) now (ingredients s)
                 (dietaryPreference s) s) = Throws suggestionFailedMessage
    /\ outcomeOf r = Returns tt
    /\ alerts (traceOf r) = [recipesAlert]
    /\ recipes (stateOf r) = recipes s
    /\ ingredients (stateOf r) = ingredients s
    /\ view (stateOf r) = view s
    /\ loading (stateOf r) = false
    /\ stateOf r = withLoading s false "Diseñando recetas con tus ingredientes...".
Proof.
  intros key reason now s Hne r. subst r.
  rewrite suggestRecipes_normalizes, (handleGenerateRecipes_rejected _ _ _ _ Hne).
  repeat split.
Qed.

Lemma handleGenerateRecipes_failure_preserves_witness :
  let held := mkRecipe "recipe-gemini-1-0" "Tortilla" "" ["Huevo"] [] ["Batir"] Facil "10 min" in
  let s := mkState INGREDIENTS false "" [mkIngredient "manual-1" "Huevo" false]
             [held] None NONE "" [] None in
  recipes (stateOf (handleGenerateRecipes None (Rejected "offline") (fun _ => 0%Z) s))
  = [held].
Proof.
  intros held s.
  assert (Hne : ingredients s <> []) by (subst s; simpl; discriminate).
  destruct (handleGenerateRecipes_failure_preserves None "offline" (fun _ => 0%Z) s Hne)
    as (_ & _ & _ & Hrec & _).
  exact Hrec.
Defined.

(** ** Camera release and roster edits that find nothing to do *)

Lemma stopCamera_inactive s :
  stream s = None -> stopCamera s = (Returns tt, s, []).
Proof.
  intros Hnone. unfold stopCamera, bind, getState. rewrite Hnone. reflexivity.
Qed.

Lemma forEach_emit_returns {A : Type} (l : list A) (e : A -> Effect) s :
  forEach l (fun x => emit (e x)) s = (Returns tt, s, map e l).
Proof.
  induction l as [|x l IH]; [reflexivity|].
  cbn [forEach]. unfold bind. cbn [emit]. rewrite IH. reflexivity.
Qed.

Lemma stopCamera_active s m :
  stream s = Some m ->
  stopCamera s =
  (Returns tt,
   mkState (view s) (loading s) (loadingMessage s) (ingredients s) (recipes s)
     (selectedRecipe s) (dietaryPreference s) (newIngredientText s)
     (capturedImages s) None,
   map TrackStop (getTracks m)).
Proof.
  intros Hsome. unfold stopCamera, bind at 1, getState. rewrite Hsome.
  unfold bind. rewrite forEach_emit_returns. cbn.
  rewrite app_nil_r. reflexivity.
Qed.

Lemma stopCamera_releases s : stream (stateOf (stopCamera s)) = None.
Proof.
  destruct (stream s) as [m|] eqn:Hs.
  - rewrite (stopCamera_active s m Hs). reflexivity.
  - rewrite (stopCamera_inactive s Hs). exact Hs.
Qed.

Lemma filter_other_ids id0 (l : list Ingredient) :
  ~ In id0 (map id l) ->
  filter (fun i => negb (String.eqb (id i) id0)) l = l.
Proof.
  induction l as [|i l IH]; intros Hnot; [reflexivity|].
  cbn [filter]. destruct (String.eqb_spec (id i) id0) as [Heq|Hneq].
  - exfalso. apply Hnot. left. exact Heq.
  - cbn [negb]. f_equal. apply IH. intros Hin. apply Hnot. right. exact Hin.
Qed.

Lemma toggle_other_ids id0 (l : list Ingredient) :
  ~ In id0 (map id l) ->
  map (fun i => if String.eqb (id i) id0
                then mkIngredient (id i) (name i) (negb (isPriority i))
                else i) l = l.
Proof.
  induction l as [|i l IH]; intros Hnot; [reflexivity|].
  cbn [map]. destruct (String.eqb_spec (id i) id0) as [Heq|Hneq].
  - exfalso. apply Hnot. left. exact Heq.
  - f_equal. apply IH. intros Hin. apply Hnot. right. exact Hin.
Qed.

(** C9 (confirmed). A second [stopCamera] right after a first one, and
    more generally any [stopCamera] without a device handle, returns
    normally with the state untouched and nothing done to the outside
    world; so do [removeIngredient] and [togglePriority] for an id that no
    roster entry carries. *)
Theorem stop_remove_toggle_noop :
  forall s id0,
    ~ In id0 (map id (ingredients s)) ->
    stopCamera (stateOf (stopCamera s)) = (Returns tt, stateOf (stopCamera s), [])
    /\ (stream s = None -> stopCamera s = (Returns tt, s, []))
    /\ removeIngredient id0 s = (Returns tt, s, [])
    /\ togglePriority id0 s = (Returns tt, s, []).
Proof.
  intros s id0 Hnot. repeat split.
  - apply stopCamera_inactive, stopCamera_releases.
  - apply stopCamera_inactive.
  - unfold removeIngredient, bind, getState. cbn.
    rewrite (filter_other_ids id0 _ Hnot). destruct s; reflexivity.
  - unfold togglePriority, bind, getState. cbn.
    rewrite (toggle_other_ids id0 _ Hnot). destruct s; reflexivity.
Qed.

Lemma stop_remove_toggle_noop_witness :
  let s := mkState CAMERA false "" [mkIngredient "manual-7" "Sal" true] [] None NONE ""
             ["QUJD"] (Some (mkMediaStream [0; 1])) in
  traceOf (stopCamera s) = [TrackStop 0; TrackStop 1]
  /\ stopCamera (stateOf (stopCamera s)) = (Returns tt, stateOf (stopCamera s), [])
  /\ removeIngredient "manual-8" s = (Returns tt, s, [])
  /\ togglePriority "manual-8" s = (Returns tt, s, []).
Proof.
  intros s.
  assert (Hnot : ~ In "manual-8" (map id (ingredients s))).
  { subst s. simpl. intros [H|[]]. discriminate H. }
  destruct (stop_remove_toggle_noop s "manual-8" Hnot) as (H1 & _ & H3 & H4).
  split; [reflexivity|]. split; [exact H1|]. split; [exact H3 | exact H4].
Defined.

(** ** Manual entry: [addManualIngredient] *)

Lemma append_assoc (a b c : string) : (a ++ b) ++ c = a ++ (b ++ c).
Proof. induction a as [|x a IH]; cbn [append]; [|rewrite IH]; reflexivity. Qed.

Lemma append_empty_r (s : string) : s ++ "" = s.
Proof. induction s as [|x s IH]; cbn [append]; [|rewrite IH]; reflexivity. Qed.

Lemma length_append (a b : string) :
  String.length (a ++ b) = String.length a + String.length b.
Proof. induction a as [|x a IH]; cbn [append String.length]; [|rewrite IH]; reflexivity. Qed.

Lemma stripPrefix_app p r : Js.stripPrefix p (p ++ r) = Some r.
Proof.
  induction p as [|a p IH]; cbn [append Js.stripPrefix]; [reflexivity|].
  rewrite Ascii.eqb_refl. exact IH.
Qed.

Lemma stripPrefix_Some p : forall s r, Js.stripPrefix p s = Some r -> s = p ++ r.
Proof.
  induction p as [|a p IH]; intros s r; cbn [Js.stripPrefix append].
  - intros H. injection H as H. exact H.
  - destruct s as [|b s]; [discriminate|].
    destruct (Ascii.eqb_spec a b) as [->|_]; [|discriminate].
    intros H. f_equal. apply IH, H.
Qed.

(** Two strings that both start a third are one the start of the other. *)
Lemma isPrefix_comparable a : forall b x y,
  a ++ x = b ++ y -> isPrefix a b = true \/ isPrefix b a = true.
Proof.
  unfold isPrefix. induction a as [|c a IH]; intros b x y Heq.
  - left. reflexivity.
  - destruct b as [|d b]; [right; reflexivity|].
    cbn [append] in Heq. injection Heq as Hc Heq. subst d.
    cbn [Js.stripPrefix]. rewrite Ascii.eqb_refl. exact (IH b x y Heq).
Qed.

Lemma isPrefix_refl a : isPrefix a a = true.
Proof.
  unfold isPrefix. rewrite <- (append_empty_r a) at 2.
  rewrite stripPrefix_app. reflexivity.
Qed.

Lemma stripAny_Some ws : forall s r,
  Js.stripAny ws s = Some r -> exists w, In w ws /\ s = w ++ r.
Proof.
  induction ws as [|w ws IH]; intros s r; cbn [Js.stripAny]; [discriminate|].
  destruct (Js.stripPrefix w s) as [rest|] eqn:Hw.
  - intros H. injection H as ->. exists w. split; [left; reflexivity|].
    apply stripPrefix_Some, Hw.
  - intros H. destruct (IH s r H) as (w' & Hin & Heq).
    exists w'. split; [right; exact Hin | exact Heq].
Qed.

Lemma stripAny_None ws : forall s,
  Js.stripAny ws s = None -> forall w r, In w ws -> s <> w ++ r.
Proof.
  induction ws as [|w0 ws IH]; intros s Hnone w r Hin; [destruct Hin|].
  cbn [Js.stripAny] in Hnone.
  destruct (Js.stripPrefix w0 s) as [rest|] eqn:Hw; [discriminate|].
  destruct Hin as [->|Hin].
  - intros ->. rewrite stripPrefix_app in Hw. discriminate.
  - exact (IH s Hnone w r Hin).
Qed.

(** In a list where no string starts another, the string found at the
    head of [w ++ r] is [w]. *)
Lemma stripAny_unique ws : forall w r,
  prefixFree ws = true -> In w ws -> Js.stripAny ws (w ++ r) = Some r.
Proof.
  induction ws as [|w0 ws IH]; intros w r Hfree Hin; [destruct Hin|].
  cbn [prefixFree] in Hfree. apply andb_true_iff in Hfree.
  destruct Hfree as (Hhead & Hfree). cbn [Js.stripAny].
  destruct Hin as [->|Hin]; [rewrite stripPrefix_app; reflexivity|].
  destruct (Js.stripPrefix w0 (w ++ r)) as [rest|] eqn:Hw; [|exact (IH w r Hfree Hin)].
  exfalso. apply stripPrefix_Some in Hw.
  rewrite forallb_forall in Hhead. specialize (Hhead w Hin).
  apply andb_true_iff in Hhead. destruct Hhead as (H1 & H2).
  apply negb_true_iff in H1, H2.
  destruct (isPrefix_comparable w0 w rest r (eq_sym Hw)) as [H|H]; congruence.
Qed.

Lemma whiteSpaceChars_utf8 : Js.whiteSpaceChars = map utf8 whiteSpaceCodePoints.
Proof. vm_compute. reflexivity. Qed.

Lemma whiteSpaceChars_prefixFree : prefixFree Js.whiteSpaceChars = true.
Proof. vm_compute. reflexivity. Qed.

Lemma whiteSpace_listed cp :
  isWhiteSpaceCodePoint cp = true <-> In cp whiteSpaceCodePoints.
Proof.
  split.
  - unfold isWhiteSpaceCodePoint. intros H.
    repeat (apply orb_true_iff in H; destruct H as [H|H]);
      try (apply andb_true_iff in H; destruct H as (Hlo & Hhi);
           apply N.leb_le in Hlo, Hhi);
      try apply N.eqb_eq in H;
      cbn [whiteSpaceCodePoints In]; lia.
  - intros Hin. cbn [whiteSpaceCodePoints In] in Hin.
    repeat (destruct Hin as [<-|Hin]; [reflexivity|]). destruct Hin.
Qed.

Lemma whiteSpace_char_iff w :
  In w Js.whiteSpaceChars
  <-> exists cp, isWhiteSpaceCodePoint cp = true /\ w = utf8 cp.
Proof.
  rewrite whiteSpaceChars_utf8, in_map_iff. split.
  - intros (cp & Heq & Hin). exists cp. split; [apply whiteSpace_listed, Hin | auto].
  - intros (cp & Hws & Heq). exists cp. split; [auto | apply whiteSpace_listed, Hws].
Qed.

Lemma whiteSpace_char_length w :
  In w Js.whiteSpaceChars -> 0 < String.length w.
Proof.
  intros Hin.
  assert (Hall : forallb (fun w => Nat.ltb 0 (String.length w)) Js.whiteSpaceChars = true)
    by (vm_compute; reflexivity).
  rewrite forallb_forall in Hall. apply Nat.ltb_lt, Hall, Hin.
Qed.

Lemma stripWhiteSpace_shorter s r :
  Js.stripWhiteSpace s = Some r -> String.length r < String.length s.
Proof.
  intros H. apply stripAny_Some in H. destruct H as (w & Hin & ->).
  rewrite length_append. pose proof (whiteSpace_char_length w Hin). lia.
Qed.

Lemma stripWhiteSpace_char cp r :
  isWhiteSpaceCodePoint cp = true -> Js.stripWhiteSpace (utf8 cp ++ r) = Some r.
Proof.
  intros Hws. apply stripAny_unique; [apply whiteSpaceChars_prefixFree|].
  apply whiteSpace_char_iff. exists cp. split; [exact Hws | reflexivity].
Qed.

Lemma stripWhiteSpace_none s cp :
  Js.stripWhiteSpace s = None -> isWhiteSpaceCodePoint cp = true ->
  ~ startsWith (utf8 cp) s.
Proof.
  intros Hnone Hws (rest & Heq).
  apply (stripAny_None _ _ Hnone (utf8 cp) rest); [|exact Heq].
  apply whiteSpace_char_iff. exists cp. split; [exact Hws | reflexivity].
Qed.

Lemma trimStartN_splits n : forall s,
  exists lead, s = lead ++ Js.trimStartN n s /\ WhiteSpaceRun lead.
Proof.
  induction n as [|n IH]; intros s; cbn [Js.trimStartN].
  - exists "". split; [reflexivity | constructor].
  - destruct (Js.stripWhiteSpace s) as [rest|] eqn:Hs.
    + destruct (IH rest) as (lead & Heq & Hrun).
      unfold Js.stripWhiteSpace in Hs. apply stripAny_Some in Hs.
      destruct Hs as (w & Hin & ->).
      apply whiteSpace_char_iff in Hin. destruct Hin as (cp & Hws & ->).
      exists (utf8 cp ++ lead). split.
      * rewrite append_assoc, <- Heq. reflexivity.
      * constructor; assumption.
    + exists "". split; [reflexivity | constructor].
Qed.

(** With one unit of fuel per byte the stripping runs to its end. *)
Lemma trimStartN_done n : forall s,
  String.length s <= n -> Js.stripWhiteSpace (Js.trimStartN n s) = None.
Proof.
  induction n as [|n IH]; intros s Hlen; cbn [Js.trimStartN].
  - destruct s; [reflexivity | cbn [String.length] in Hlen; lia].
  - destruct (Js.stripWhiteSpace s) as [rest|] eqn:Hs; [|exact Hs].
    apply IH. apply stripWhiteSpace_shorter in Hs. lia.
Qed.

Lemma trimStartN_enough n : forall m s,
  String.length s <= n -> String.length s <= m ->
  Js.trimStartN n s = Js.trimStartN m s.
Proof.
  induction n as [|n IH]; intros m s Hn Hm.
  - destruct s; [|cbn [String.length] in Hn; lia]. destruct m; reflexivity.
  - destruct m as [|m].
    + destruct s; [reflexivity | cbn [String.length] in Hm; lia].
    + cbn [Js.trimStartN]. destruct (Js.stripWhiteSpace s) as [rest|] eqn:Hs;
        [|reflexivity].
      apply stripWhiteSpace_shorter in Hs. apply IH; lia.
Qed.

Lemma trimStart_splits s :
  exists lead, s = lead ++ Js.trimStart s /\ WhiteSpaceRun lead.
Proof. apply trimStartN_splits. Qed.

Lemma trimStart_done s : Js.stripWhiteSpace (Js.trimStart s) = None.
Proof. apply trimStartN_done. lia. Qed.

Lemma trimStart_char cp r :
  isWhiteSpaceCodePoint cp = true -> Js.trimStart (utf8 cp ++ r) = Js.trimStart r.
Proof.
  intros Hws. unfold Js.trimStart.
  destruct (String.length (utf8 cp ++ r)) as [|n] eqn:Hlen.
  - rewrite length_append in Hlen.
    assert (Hin : In (utf8 cp) Js.whiteSpaceChars)
      by (apply whiteSpace_char_iff; exists cp; auto).
    pose proof (whiteSpace_char_length _ Hin). lia.
  - cbn [Js.trimStartN]. rewrite (stripWhiteSpace_char cp r Hws).
    apply trimStartN_enough; [|lia].
    rewrite length_append in Hlen.
    assert (Hin : In (utf8 cp) Js.whiteSpaceChars)
      by (apply whiteSpace_char_iff; exists cp; auto).
    pose proof (whiteSpace_char_length _ Hin). lia.
Qed.

Lemma isBlank_true s : Js.isBlank s = true <-> Js.trimStart s = "".
Proof.
  unfold Js.isBlank. destruct (Js.trimStart s); split; intros H;
    try reflexivity; discriminate H.
Qed.

Lemma run_is_blank t : WhiteSpaceRun t -> Js.isBlank t = true.
Proof.
  induction 1 as [|cp rest Hws Hrun IH]; [reflexivity|].
  apply isBlank_true. rewrite (trimStart_char cp rest Hws).
  apply isBlank_true, IH.
Qed.

Lemma blank_is_run t : Js.isBlank t = true -> WhiteSpaceRun t.
Proof.
  intros H. apply isBlank_true in H.
  destruct (trimStart_splits t) as (lead & Heq & Hrun).
  rewrite H, append_empty_r in Heq. subst lead. exact Hrun.
Qed.

Lemma trimEnd_splits s :
  exists trail, s = Js.trimEnd s ++ trail /\ WhiteSpaceRun trail.
Proof.
  induction s as [|c s IH].
  - exists "". split; [reflexivity | constructor].
  - cbn [Js.trimEnd]. destruct (Js.isBlank (String c s)) eqn:Hb.
    + exists (String c s). split; [reflexivity | apply blank_is_run, Hb].
    + destruct IH as (trail & Heq & Hrun). exists trail. split; [|exact Hrun].
      cbn [append]. f_equal. exact Heq.
Qed.

Lemma trimEnd_end s : forall cp,
  isWhiteSpaceCodePoint cp = true -> ~ endsWith (utf8 cp) (Js.trimEnd s).
Proof.
  induction s as [|c s IH]; intros cp Hws (front & Heq).
  - cbn [Js.trimEnd] in Heq.
    assert (Hin : In (utf8 cp) Js.whiteSpaceChars)
      by (apply whiteSpace_char_iff; exists cp; auto).
    pose proof (whiteSpace_char_length _ Hin) as Hlen.
    apply (f_equal String.length) in Heq. rewrite length_append in Heq.
    cbn [String.length] in Heq. lia.
  - cbn [Js.trimEnd] in Heq. destruct (Js.isBlank (String c s)) eqn:Hb.
    + assert (Hin : In (utf8 cp) Js.whiteSpaceChars)
        by (apply whiteSpace_char_iff; exists cp; auto).
      pose proof (whiteSpace_char_length _ Hin) as Hlen.
      apply (f_equal String.length) in Heq. rewrite length_append in Heq.
      cbn [String.length] in Heq. lia.
    + destruct front as [|d front]; cbn [append] in Heq.
      * destruct (trimEnd_splits s) as (trail & Hs & Hrun).
        assert (Hall : WhiteSpaceRun (String c s)).
        { rewrite Hs.
          change (String c (Js.trimEnd s ++ trail))
            with (String c (Js.trimEnd s) ++ trail).
          rewrite Heq. constructor; assumption. }
        apply run_is_blank in Hall. congruence.
      * injection Heq as _ Heq. apply (IH cp Hws). exists front. exact Heq.
Qed.

(** What [trim] returns is the input without a leading and a trailing run
    of white space characters, and it neither starts nor ends with one. *)
Lemma trim_spec s :
  exists lead trail,
    s = lead ++ Js.trim s ++ trail
    /\ WhiteSpaceRun lead /\ WhiteSpaceRun trail
    /\ forall cp, isWhiteSpaceCodePoint cp = true ->
         ~ startsWith (utf8 cp) (Js.trim s) /\ ~ endsWith (utf8 cp) (Js.trim s).
Proof.
  destruct (trimStart_splits s) as (lead & Hlead & Hrl).
  destruct (trimEnd_splits (Js.trimStart s)) as (trail & Htrail & Hrt).
  exists lead, trail. unfold Js.trim. split; [|split; [|split]].
  - rewrite <- Htrail. exact Hlead.
  - exact Hrl.
  - exact Hrt.
  - intros cp Hws. split; [|apply trimEnd_end, Hws].
    intros (rest & Heq).
    apply (stripWhiteSpace_none (Js.trimStart s) cp (trimStart_done s) Hws).
    exists (rest ++ trail). rewrite Htrail, Heq. apply append_assoc.
Qed.

Lemma truthy_nonempty s : s <> "" -> Js.truthy s = true.
Proof. destruct s; [contradiction | reflexivity]. Qed.

(** C10 (confirmed). When the trimmed form of the entry text is not
    empty, the add handler appends exactly one ingredient, with the flag
    false and an id built from the clock reading, empties the entry field
    and changes nothing else.  The name it stores is the entry text cut
    at both ends: the text is a run of white space characters, the name,
    and another run of white space characters, and the name neither
    starts nor ends with a white space character (any of TAB, LF, VT, FF,
    CR, SPACE, U+00A0, U+1680, U+2000 to U+200A, U+2028, U+2029, U+202F,
    U+205F, U+3000, U+FEFF). *)
Theorem addManualIngredient_stores_trimmed :
  forall now s,
    Js.trim (newIngredientText s) <> "" ->
    exists stored,
      addManualIngredient now s =
      (Returns tt,
       mkState (view s) (loading s) (loadingMessage s)
         (ingredients s ++
          [mkIngredient ("manual-" ++ Js.numberToString now) stored false])%list
         (recipes s) (selectedRecipe s) (dietaryPreference s) ""
         (capturedImages s) (stream s),
       [])
      /\ stored <> ""
      /\ exists lead trail,
           newIngredientText s = lead ++ stored ++ trail
           /\ WhiteSpaceRun lead /\ WhiteSpaceRun trail
           /\ forall cp, isWhiteSpaceCodePoint cp = true ->
                ~ startsWith (utf8 cp) stored /\ ~ endsWith (utf8 cp) stored.
Proof.
  intros now s Hne. exists (Js.trim (newIngredientText s)).
  split; [|split; [exact Hne | apply trim_spec]].
  unfold addManualIngredient, bind at 1, getState.
  rewrite (truthy_nonempty _ Hne). reflexivity.
Qed.

(** The other branch: an entry text that trims to nothing is ignored. *)
Lemma addManualIngredient_blank now s :
  Js.trim (newIngredientText s) = "" ->
  addManualIngredient now s = (Returns tt, s, []).
Proof.
  intros Hblank. unfold addManualIngredient, bind, getState.
  rewrite Hblank. reflexivity.
Qed.

Lemma addManualIngredient_stores_trimmed_witness :
  let s := mkState INGREDIENTS false "" [] [] None NONE "  sal gorda  " [] None in
  ingredients (stateOf (addManualIngredient 1700000000000%Z s))
  = [mkIngredient "manual-1700000000000" "sal gorda" false]
  /\ newIngredientText (stateOf (addManualIngredient 1700000000000%Z s)) = "".
Proof.
  intros s.
  assert (Hne : Js.trim (newIngredientText s) <> "")
    by (subst s; vm_compute; discriminate).
  destruct (addManualIngredient_stores_trimmed 1700000000000%Z s Hne)
    as (stored & Hrun & _).
  split; [reflexivity|]. rewrite Hrun. reflexivity.
Defined.

(** Entry texts with white space outside ASCII: a text of no-break
    spaces only is ignored, a name between a no-break space and an
    ideographic space is stored bare. *)
Example trim_unicode_white_space :
  let nbsp := utf8 160 in
  let wide := utf8 12288 in
  Js.trim (nbsp ++ nbsp) = ""
  /\ Js.trim (nbsp ++ "sal" ++ wide ++ " ") = "sal"
  /\ Js.trim (utf8 65279 ++ "ñora" ++ utf8 8232) = "ñora".
Proof. vm_compute. repeat split. Qed.

(** ** Names given to detected ingredients *)

Lemma firstBytes_dropBytes n : forall s, Js.firstBytes n s ++ Js.dropBytes n s = s.
Proof.
  induction n as [|n IH]; intros s; [reflexivity|].
  destruct s as [|c s]; [reflexivity|].
  cbn [Js.firstBytes Js.dropBytes append]. rewrite IH. reflexivity.
Qed.

Lemma charAt0_slice1 s : Js.charAt0 s ++ Js.slice1 s = s.
Proof. destruct s as [|c s]; [reflexivity | apply firstBytes_dropBytes]. Qed.

Lemma unitBytes_positive c : exists k, Js.unitBytes c = S k.
Proof.
  unfold Js.unitBytes.
  destruct (Nat.leb 192 (nat_of_ascii c) && Nat.ltb (nat_of_ascii c) 224);
    [exists 1; reflexivity|].
  destruct (Nat.leb 224 (nat_of_ascii c) && Nat.ltb (nat_of_ascii c) 240);
    [exists 2 | exists 0]; reflexivity.
Qed.

Lemma charAt0_nonempty s : s <> "" -> Js.charAt0 s <> "".
Proof.
  destruct s as [|c s]; [contradiction|]. intros _.
  cbn [Js.charAt0]. destruct (unitBytes_positive c) as (k & ->). discriminate.
Qed.

Lemma lookupCase_In table : forall s upper n,
  Js.lookupCase table s = Some (upper, n) ->
  exists lower, In (lower, upper) table /\ n = String.length lower.
Proof.
  induction table as [|[l u] table IH]; intros s upper n; cbn [Js.lookupCase];
    [discriminate|].
  destruct (Js.stripPrefix l s).
  - intros H. injection H as <- <-. exists l. split; [left|]; reflexivity.
  - intros H. destruct (IH s upper n H) as (lower & Hin & Hn).
    exists lower. split; [right; exact Hin | exact Hn].
Qed.

(** In a table whose characters do not start one another, the entry found
    at the head of [lower ++ r] is the entry of [lower]. *)
Lemma lookupCase_unique table : forall lower upper r,
  prefixFree (map fst table) = true -> In (lower, upper) table ->
  Js.lookupCase table (lower ++ r) = Some (upper, String.length lower).
Proof.
  induction table as [|[l u] table IH]; intros lower upper r Hfree Hin;
    [destruct Hin|].
  cbn [map fst prefixFree] in Hfree. apply andb_true_iff in Hfree.
  destruct Hfree as (Hhead & Hfree). cbn [Js.lookupCase].
  destruct Hin as [Heq|Hin].
  - injection Heq as -> ->. rewrite stripPrefix_app. reflexivity.
  - destruct (Js.stripPrefix l (lower ++ r)) as [rest|] eqn:Hl;
      [|exact (IH lower upper r Hfree Hin)].
    exfalso. apply stripPrefix_Some in Hl.
    rewrite forallb_forall in Hhead.
    assert (Hkey : In lower (map fst table))
      by (apply in_map_iff; exists (lower, upper); split; [reflexivity | exact Hin]).
    specialize (Hhead lower Hkey).
    apply andb_true_iff in Hhead. destruct Hhead as (H1 & H2).
    apply negb_true_iff in H1, H2.
    destruct (isPrefix_comparable l lower rest r (eq_sym Hl)) as [H|H]; congruence.
Qed.

Lemma caseTable_prefixFree : prefixFree (map fst Js.caseTable) = true.
Proof. vm_compute. reflexivity. Qed.

(** Every entry of the table has a non-empty upper-case form, and a
    character of at most three bytes is exactly one code unit. *)
Lemma caseTable_entry lower upper :
  In (lower, upper) Js.caseTable ->
  upper <> ""
  /\ (String.length lower <= 3 ->
      exists c tail, lower = String c tail
                     /\ Js.unitBytes c = String.length lower).
Proof.
  intros Hin.
  assert (Hall :
    forallb
      (fun e =>
         negb (String.eqb (snd e) "")
         && (Nat.ltb 3 (String.length (fst e))
             || match fst e with
                | String c _ => Nat.eqb (Js.unitBytes c) (String.length (fst e))
                | EmptyString => false
                end))
      Js.caseTable = true) by (vm_compute; reflexivity).
  rewrite forallb_forall in Hall. specialize (Hall _ Hin). cbn [fst snd] in Hall.
  apply andb_true_iff in Hall. destruct Hall as (Hu & Hl). split.
  - intros ->. discriminate Hu.
  - intros Hlen. apply orb_true_iff in Hl. destruct Hl as [Hl|Hl].
    + apply Nat.ltb_lt in Hl. lia.
    + destruct lower as [|c tail]; [discriminate|].
      exists c, tail. split; [reflexivity | apply Nat.eqb_eq, Hl].
Qed.

Lemma upperFrom_skip_all : forall t k,
  String.length t <= k -> Js.upperFrom k t = "".
Proof.
  induction t as [|c t IH]; intros k Hlen; [reflexivity|].
  cbn [String.length] in Hlen. destruct k as [|k]; [lia|].
  cbn [Js.upperFrom]. apply IH. lia.
Qed.

Lemma toUpperCase_nonempty s : s <> "" -> Js.toUpperCase s <> "".
Proof.
  destruct s as [|c s]; [contradiction|]. intros _.
  unfold Js.toUpperCase. cbn [Js.upperFrom].
  destruct (Js.lookupCase Js.caseTable (String c s)) as [[upper n]|] eqn:Hl;
    [|discriminate].
  apply lookupCase_In in Hl. destruct Hl as (lower & Hin & _).
  destruct (caseTable_entry lower upper Hin) as (Hne & _).
  destruct upper; [contradiction | discriminate].
Qed.

(** A character of the table, alone, is upper-cased to its form. *)
Lemma toUpperCase_key lower upper :
  In (lower, upper) Js.caseTable -> String.length lower <= 3 ->
  Js.toUpperCase lower = upper.
Proof.
  intros Hin Hlen.
  destruct (caseTable_entry lower upper Hin) as (_ & Hunit).
  destruct (Hunit Hlen) as (c & tail & -> & _).
  unfold Js.toUpperCase. cbn [Js.upperFrom].
  pose proof (lookupCase_unique Js.caseTable (String c tail) upper ""
                caseTable_prefixFree Hin) as Hl.
  rewrite append_empty_r in Hl. rewrite Hl.
  rewrite upperFrom_skip_all by (cbn [String.length Nat.pred]; lia).
  apply append_empty_r.
Qed.

Lemma charAt0_app c t tail :
  Js.unitBytes c = String.length (String c t) ->
  Js.charAt0 (String c t ++ tail) = String c t
  /\ Js.slice1 (String c t ++ tail) = tail.
Proof.
  intros Hbytes. cbn [append Js.charAt0 Js.slice1]. rewrite Hbytes.
  change (String c (t ++ tail)) with (String c t ++ tail).
  generalize (String c t). clear. intros l. split.
  - induction l as [|x l IH]; cbn [String.length append Js.firstBytes];
      [destruct tail; reflexivity | rewrite IH; reflexivity].
  - induction l as [|x l IH]; cbn [String.length append Js.dropBytes];
      [destruct tail; reflexivity | exact IH].
Qed.

Lemma capitalize_key lower upper tail :
  In (lower, upper) Js.caseTable -> String.length lower <= 3 ->
  capitalize (lower ++ tail) = upper ++ tail.
Proof.
  intros Hin Hlen.
  destruct (caseTable_entry lower upper Hin) as (_ & Hunit).
  destruct (Hunit Hlen) as (c & rest & Hlower & Hbytes).
  rewrite Hlower in Hbytes.
  destruct (charAt0_app c rest tail Hbytes) as (Hc & Hs).
  unfold capitalize. rewrite Hlower, Hc, Hs, <- Hlower.
  rewrite (toUpperCase_key lower upper Hin Hlen). reflexivity.
Qed.

(** Every character of the table opens with a lead byte and has the
    length its lead byte announces. *)
Lemma caseTable_key_shape lower upper :
  In (lower, upper) Js.caseTable ->
  exists c t, lower = String c t
              /\ isContinuation c = false
              /\ String.length lower = charBytes c.
Proof.
  intros Hin.
  assert (Hall :
    forallb
      (fun e =>
         match fst e with
         | String c _ =>
             negb (isContinuation c)
             && Nat.eqb (String.length (fst e)) (charBytes c)
         | EmptyString => false
         end)
      Js.caseTable = true) by (vm_compute; reflexivity).
  rewrite forallb_forall in Hall. specialize (Hall _ Hin). cbn [fst] in Hall.
  destruct lower as [|c t]; [discriminate|].
  apply andb_true_iff in Hall. destruct Hall as (Hc & Hl).
  exists c, t. split; [reflexivity|].
  split; [apply negb_true_iff, Hc | apply Nat.eqb_eq, Hl].
Qed.

Lemma lookupCase_None table : forall s,
  (forall lower upper, In (lower, upper) table -> Js.stripPrefix lower s = None) ->
  Js.lookupCase table s = None.
Proof.
  induction table as [|[l u] table IH]; intros s Hnone; [reflexivity|].
  cbn [Js.lookupCase]. rewrite (Hnone l u (or_introl eq_refl)).
  apply IH. intros lower upper Hin. apply (Hnone lower upper). right. exact Hin.
Qed.

Lemma upperFrom_continuation : forall t,
  allContinuation t = true -> Js.upperFrom 0 t = t.
Proof.
  induction t as [|b t IH]; [reflexivity|].
  cbn [allContinuation]. intros H. apply andb_true_iff in H.
  destruct H as (Hb & Ht). cbn [Js.upperFrom].
  rewrite lookupCase_None; [rewrite (IH Ht); reflexivity|].
  intros lower upper Hin.
  destruct (caseTable_key_shape lower upper Hin) as (c & k & -> & Hc & _).
  cbn [Js.stripPrefix].
  destruct (Ascii.eqb c b) eqn:Heq; [|reflexivity].
  apply Ascii.eqb_eq in Heq. subst c. congruence.
Qed.

Lemma append_same_length : forall a b x y,
  a ++ x = b ++ y -> String.length a = String.length b -> a = b.
Proof.
  induction a as [|c a IH]; intros b x y Heq Hlen.
  - destruct b; [reflexivity | discriminate Hlen].
  - destruct b as [|d b]; [discriminate Hlen|].
    cbn [append] in Heq. injection Heq as -> Heq.
    cbn [String.length] in Hlen. injection Hlen as Hlen.
    rewrite (IH b x y Heq Hlen). reflexivity.
Qed.

Lemma nat_of_ascii_of_N n :
  (n < 256)%N -> nat_of_ascii (ascii_of_N n) = N.to_nat n.
Proof.
  intros H. unfold nat_of_ascii. rewrite N_ascii_embedding by exact H.
  reflexivity.
Qed.

(** The UTF-8 form of a character of the Basic Multilingual Plane beyond
    ASCII: a lead byte announcing two or three bytes, which is one code
    unit, then continuation bytes. *)
Lemma utf8_shape cp :
  (128 <= cp < 65536)%N ->
  exists c t,
    utf8 cp = String c t
    /\ Js.unitBytes c = String.length (String c t)
    /\ charBytes c = String.length (String c t)
    /\ allContinuation t = true.
Proof.
  intros (Hlo & Hhi). unfold utf8.
  destruct (N.ltb_spec cp 128) as [Hs|_]; [lia|].
  assert (Hm : (cp mod 64 < 64)%N) by (apply N.mod_lt; discriminate).
  assert (Hm' : ((cp / 64) mod 64 < 64)%N) by (apply N.mod_lt; discriminate).
  destruct (N.ltb_spec cp 2048) as [H2|H3].
  - assert (Hq : (2 <= cp / 64 < 32)%N).
    { split; [apply N.div_le_lower_bound; lia
             | apply N.Div0.div_lt_upper_bound; lia]. }
    eexists _, _. split; [reflexivity|].
    set (q := (cp / 64)%N) in *. set (m := (cp mod 64)%N) in *.
    clearbody q m.
    unfold Js.unitBytes, charBytes. cbn [allContinuation]. unfold isContinuation.
    rewrite !nat_of_ascii_of_N by lia.
    replace (Nat.leb 192 (N.to_nat (192 + q))) with true
      by (symmetry; apply Nat.leb_le; lia).
    replace (Nat.ltb (N.to_nat (192 + q)) 224) with true
      by (symmetry; apply Nat.ltb_lt; lia).
    replace (Nat.ltb (N.to_nat (192 + q)) 192) with false
      by (symmetry; apply Nat.ltb_ge; lia).
    replace (Nat.leb 128 (N.to_nat (128 + m))) with true
      by (symmetry; apply Nat.leb_le; lia).
    replace (Nat.ltb (N.to_nat (128 + m)) 192) with true
      by (symmetry; apply Nat.ltb_lt; lia).
    repeat split.
  - assert (Hq : (cp / 4096 < 16)%N) by (apply N.Div0.div_lt_upper_bound; lia).
    eexists _, _. split; [reflexivity|].
    set (q := (cp / 4096)%N) in *. set (m' := ((cp / 64) mod 64)%N) in *.
    set (m := (cp mod 64)%N) in *. clearbody q m m'.
    unfold Js.unitBytes, charBytes. cbn [allContinuation]. unfold isContinuation.
    rewrite !nat_of_ascii_of_N by lia.
    replace (Nat.leb 192 (N.to_nat (224 + q))) with true
      by (symmetry; apply Nat.leb_le; lia).
    replace (Nat.ltb (N.to_nat (224 + q)) 224) with false
      by (symmetry; apply Nat.ltb_ge; lia).
    replace (Nat.leb 224 (N.to_nat (224 + q))) with true
      by (symmetry; apply Nat.leb_le; lia).
    replace (Nat.ltb (N.to_nat (224 + q)) 240) with true
      by (symmetry; apply Nat.ltb_lt; lia).
    replace (Nat.ltb (N.to_nat (224 + q)) 192) with false
      by (symmetry; apply Nat.ltb_ge; lia).
    replace (Nat.leb 128 (N.to_nat (128 + m'))) with true
      by (symmetry; apply Nat.leb_le; lia).
    replace (Nat.ltb (N.to_nat (128 + m')) 192) with true
      by (symmetry; apply Nat.ltb_lt; lia).
    replace (Nat.leb 128 (N.to_nat (128 + m))) with true
      by (symmetry; apply Nat.leb_le; lia).
    replace (Nat.ltb (N.to_nat (128 + m)) 192) with true
      by (symmetry; apply Nat.ltb_lt; lia).
    repeat split.
Qed.

(** A character without an entry in the table is its own upper-case
    form. *)
Lemma capitalize_without_case cp tail :
  (128 <= cp < 65536)%N ->
  (forall upper, ~ In (utf8 cp, upper) Js.caseTable) ->
  capitalize (utf8 cp ++ tail) = utf8 cp ++ tail.
Proof.
  intros Hcp Hfree.
  destruct (utf8_shape cp Hcp) as (c & t & Hch & Hunit & Hchar & Hcont).
  rewrite Hch in *.
  destruct (charAt0_app c t tail Hunit) as (Hc & Hs).
  unfold capitalize. rewrite Hc, Hs. f_equal.
  unfold Js.toUpperCase. cbn [Js.upperFrom].
  rewrite lookupCase_None; [rewrite (upperFrom_continuation t Hcont); reflexivity|].
  intros lower upper Hin.
  destruct (Js.stripPrefix lower (String c t)) as [r|] eqn:Hp; [|reflexivity].
  exfalso. apply stripPrefix_Some in Hp.
  destruct (caseTable_key_shape lower upper Hin) as (c' & k & Hl & _ & Hlen).
  assert (Hlead : c' = c).
  { rewrite Hl in Hp. cbn [append] in Hp. injection Hp as -> _. reflexivity. }
  subst c'. rewrite Hchar in Hlen.
  assert (Hsame : String c t = lower).
  { apply (append_same_length (String c t) lower "" r).
    - rewrite append_empty_r. exact Hp.
    - symmetry. exact Hlen. }
  apply (Hfree upper). rewrite <- Hsame in Hin. exact Hin.
Qed.

Lemma capitalize_ascii c tail :
  nat_of_ascii c < 128 ->
  capitalize (String c tail) = String (asciiUpper c) tail.
Proof.
  destruct c as [b0 b1 b2 b3 b4 b5 b6 b7].
  destruct b7.
  - intros H. exfalso. revert H.
    destruct b0, b1, b2, b3, b4, b5, b6; vm_compute; lia.
  - intros _. destruct b0, b1, b2, b3, b4, b5, b6; vm_compute; reflexivity.
Qed.

Lemma capitalize_outside_bmp c tail :
  240 <= nat_of_ascii c ->
  capitalize (String c tail) = String c tail.
Proof.
  destruct c as [b0 b1 b2 b3 b4 b5 b6 b7].
  destruct b7, b6, b5, b4;
    try (intros H; exfalso; revert H; destruct b0, b1, b2, b3; vm_compute; lia).
  intros _. destruct b0, b1, b2, b3; vm_compute; reflexivity.
Qed.

(** C7, the claim as stated fails: when the detection response holds an
    empty name, the mapping keeps it, and the roster receives an
    ingredient whose name is empty. *)
Lemma detected_empty_name_is_kept :
  let r := processImages None (Fulfilled (Some ["tomate"; ""]))
             (fun _ => 1700000000000%Z) ["QUJD"] initialState in
  ingredients (stateOf r)
  = [mkIngredient "ing-1700000000000-0" "Tomate" false;
     mkIngredient "ing-1700000000000-1" "" false]
  /\ exists ing, In ing (ingredients (stateOf r)) /\ name ing = "".
Proof.
  split; [vm_compute; reflexivity|].
  exists (mkIngredient "ing-1700000000000-1" "" false).
  split; [vm_compute; right; left|]; reflexivity.
Qed.

(** C7 (corrected). Every non-empty detected name yields, at its position
    behind the previous roster, an ingredient whose name is non-empty:
    the upper-case form of the detected name's first code unit followed
    by the rest of the name, untouched.  For an ASCII first character
    that form is the capital letter of a letter a to z and the character
    itself otherwise; for a first character listed in the Unicode table
    it is the form the table gives (one or more characters); a first
    character outside the Basic Multilingual Plane, whose first code unit
    is half of a surrogate pair, is left as it is. *)
Theorem detected_nonempty_name_capitalized :
  forall key names now images s idx detected,
    nth_error (orEmpty names) idx = Some detected ->
    detected <> "" ->
    exists ing first rest,
      nth_error
        (ingredients (stateOf (processImages key (Fulfilled names) now images s)))
        (List.length (ingredients s) + idx) = Some ing
      /\ detected = first ++ rest
      /\ first = Js.charAt0 detected
      /\ first <> ""
      /\ name ing = Js.toUpperCase first ++ rest
      /\ name ing <> ""
      /\ (forall c tail,
            detected = String c tail -> nat_of_ascii c < 128 ->
            name ing =
            String (if Nat.leb 97 (nat_of_ascii c) && Nat.leb (nat_of_ascii c) 122
                    then ascii_of_nat (nat_of_ascii c - 32) else c) tail)
      /\ (forall lower upper tail,
            In (lower, upper) Js.caseTable -> String.length lower <= 3 ->
            detected = lower ++ tail -> name ing = upper ++ tail)
      /\ (forall cp tail,
            (128 <= cp < 65536)%N -> detected = utf8 cp ++ tail ->
            (forall upper, ~ In (utf8 cp, upper) Js.caseTable) ->
            name ing = detected)
      /\ (forall c tail,
            detected = String c tail -> 240 <= nat_of_ascii c ->
            name ing = detected).
Proof.
  intros key names now images s idx detected Hnth Hne.
  exists (mkIngredient (detectedId (now idx) idx) (capitalize detected) false),
    (Js.charAt0 detected), (Js.slice1 detected).
  rewrite processImages_fulfilled. cbn [stateOf fst snd ingredients name].
  split.
  { rewrite nth_error_app2 by apply Nat.le_add_r.
    replace (List.length (ingredients s) + idx - List.length (ingredients s))
      with idx by lia.
    unfold newIngredientsOf, Js.mapi.
    rewrite nth_error_mapi_from, Hnth. reflexivity. }
  split; [symmetry; apply charAt0_slice1|].
  split; [reflexivity|].
  split; [apply charAt0_nonempty, Hne|].
  split; [reflexivity|].
  split.
  { unfold capitalize. intros Hempty.
    apply (toUpperCase_nonempty (Js.charAt0 detected)
             (charAt0_nonempty detected Hne)).
    destruct (Js.toUpperCase (Js.charAt0 detected)); [reflexivity | discriminate]. }
  split; [intros c tail -> Hc; apply (capitalize_ascii c tail Hc)|].
  split; [intros lower upper tail Hin Hlen ->; apply capitalize_key; assumption|].
  split; [intros cp tail Hcp -> Hfree; apply capitalize_without_case; assumption|].
  intros c tail -> Hc. apply capitalize_outside_bmp, Hc.
Qed.

Lemma detected_nonempty_name_capitalized_witness :
  let s := mkState HOME false "" [mkIngredient "manual-1" "Sal" true] [] None NONE ""
             [] None in
  exists ing,
    nth_error
      (ingredients (stateOf (processImages None (Fulfilled (Some ["tomate"; "queso"]))
                               (fun _ => 1700000000000%Z) ["QUJD"] s))) 2 = Some ing
    /\ name ing = "Queso".
Proof.
  intros s.
  destruct (detected_nonempty_name_capitalized None (Some ["tomate"; "queso"])
              (fun _ => 1700000000000%Z) ["QUJD"] s 1 "queso" eq_refl)
    as (ing & first & rest & Hnth & _ & _ & _ & _ & _ & Hascii & _).
  - discriminate.
  - exists ing. split; [exact Hnth|].
    rewrite (Hascii "q"%char "ueso" eq_refl) by (vm_compute; lia).
    reflexivity.
Defined.

(** Detected names as the mapping stores them: an accented or special
    first letter takes its upper-case form, which can be two letters; a
    capital, a digit or a letter without case is kept, and so is a small
    letter outside the Basic Multilingual Plane, of which [charAt(0)]
    holds half only. *)
Example capitalize_examples :
  capitalize "tomate" = "Tomate"
  /\ capitalize "ñoquis" = "Ñoquis"
  /\ capitalize "ázimo" = "Ázimo"
  /\ capitalize "ßpätzle" = "SSpätzle"
  /\ capitalize "Queso" = "Queso"
  /\ capitalize "ﬁdeos" = "FIdeos"
  /\ capitalize "7 up" = "7 up"
  /\ capitalize "米" = "米"
  /\ capitalize "𐐨" = "𐐨"
  /\ Js.toUpperCase "𐐨" = "𐐀"
  /\ capitalize "" = "".
Proof. vm_compute. repeat split. Qed.

(** ** Still capture: [capturePhoto] *)

Lemma split_comma_free sep s :
  lacks sep s = true -> Js.split sep s = [s].
Proof.
  induction s as [|c s IH]; [reflexivity|].
  cbn [lacks Js.split]. destruct (Ascii.eqb c sep); [discriminate|].
  cbn [negb andb]. intros Hs. rewrite (IH Hs). reflexivity.
Qed.

Lemma split_app_sep sep a b :
  lacks sep a = true ->
  Js.split sep (a ++ String sep b) = a :: Js.split sep b.
Proof.
  induction a as [|c a IH].
  - intros _. cbn [append Js.split]. rewrite Ascii.eqb_refl. reflexivity.
  - cbn [lacks append Js.split]. destruct (Ascii.eqb c sep); [discriminate|].
    cbn [negb andb]. intros Ha. rewrite (IH Ha). reflexivity.
Qed.

(** For a bitmap with pixels and a serialiser that emits no comma (base64
    has none), the stored token is the serialiser's payload. *)
Lemma encodedFrame_payload canvas video :
  0 < videoWidth video -> 0 < videoHeight video ->
  lacks ","
    (serialize canvas
       (mkBitmap (videoWidth video) (videoHeight video) (currentFrame video))
       "image/jpeg" jpegQuality) = true ->
  encodedFrame canvas video
  = serialize canvas
      (mkBitmap (videoWidth video) (videoHeight video) (currentFrame video))
      "image/jpeg" jpegQuality.
Proof.
  intros Hw Hh Hfree. unfold encodedFrame, toDataURL.
  cbn [bitmapWidth bitmapHeight].
  destruct (videoWidth video) as [|w]; [lia|].
  destruct (videoHeight video) as [|h]; [lia|].
  cbn [Nat.eqb orb].
  change ("data:" ++ "image/jpeg" ++ ";base64," ++ ?p)
    with ("data:image/jpeg;base64" ++ String "," p).
  rewrite split_app_sep by reflexivity.
  rewrite (split_comma_free _ _ Hfree). reflexivity.
Qed.

Lemma split_nonempty sep s : Js.split sep s <> [].
Proof.
  destruct s as [|c s]; cbn [Js.split]; [discriminate|].
  destruct (Ascii.eqb c sep); [discriminate|].
  destruct (Js.split sep s); discriminate.
Qed.

(** A JPEG data URL always has a part after its first comma: the default
    of the indexing in [encodedFrame] is never used. *)
Lemma dataUrl_has_payload_part canvas b quality :
  exists piece,
    nth_error (Js.split "," (toDataURL canvas b "image/jpeg" quality)) 1 = Some piece.
Proof.
  unfold toDataURL.
  destruct (Nat.eqb (bitmapWidth b) 0 || Nat.eqb (bitmapHeight b) 0).
  - exists "". reflexivity.
  - change ("data:" ++ "image/jpeg" ++ ";base64," ++ ?p)
      with ("data:image/jpeg;base64" ++ String "," p).
    rewrite split_app_sep by reflexivity.
    destruct (Js.split "," (serialize canvas b "image/jpeg" quality))
      as [|piece pieces] eqn:Hs.
    + exfalso. exact (split_nonempty _ _ Hs).
    + exists piece. reflexivity.
Qed.

Lemma capturePhoto_guard_passes dom s video canvas :
  videoRef dom = Some video -> canvasRef dom = Some canvas ->
  videoReady video = true -> context2d canvas = true ->
  capturePhoto dom s =
  (Returns tt,
   mkState (view s) (loading s) (loadingMessage s) (ingredients s) (recipes s)
     (selectedRecipe s) (dietaryPreference s) (newIngredientText s)
     (capturedImages s ++ [encodedFrame canvas video])%list (stream s),
   [CanvasResize (videoWidth video) (videoHeight video);
    CanvasDrawImage (currentFrame video) (videoWidth video) (videoHeight video)]).
Proof.
  intros Hv Hc Hready Hctx. unfold capturePhoto. rewrite Hv, Hc.
  unfold videoReady in Hready. rewrite Hready, Hctx. reflexivity.
Qed.

Lemma capturePhoto_guard_fails dom s :
  captureGuard dom = false ->
  outcomeOf (capturePhoto dom s) = Returns tt
  /\ stateOf (capturePhoto dom s) = s
  /\ alerts (traceOf (capturePhoto dom s)) = [].
Proof.
  unfold captureGuard, capturePhoto, videoReady.
  destruct (videoRef dom) as [video|]; [|repeat split].
  destruct (canvasRef dom) as [canvas|]; [|repeat split].
  destruct (Nat.eqb (readyState video) HAVE_ENOUGH_DATA || Nat.ltb 0 (videoWidth video));
    [|repeat split].
  cbn [andb]. intros Hctx. rewrite Hctx. repeat split.
Qed.

(** C6, the claim as stated fails: the handler never looks at the device
    handle.  With no handle held ([stream] is [null], as after
    [stopCamera]) and a video element that still has its dimensions, a
    frame is stored all the same. *)
Lemma capturePhoto_without_device_handle :
  let s := mkState CAMERA false "" [] [] None NONE "" [] None in
  let dom := mkDom (Some (mkVideo HAVE_ENOUGH_DATA 640 480 7))
               (Some (mkCanvas true (fun _ _ _ => "QUJD"))) in
  deviceActive s = false
  /\ capturedImages s = []
  /\ capturedImages (stateOf (capturePhoto dom s)) = ["QUJD"]
  /\ capturedImages (stateOf (capturePhoto dom s)) <> capturedImages s.
Proof. repeat split. discriminate. Qed.

(** The other way the guard lets through what the claim excludes: enough
    data but no width yet.  The canvas then has no pixels and the token
    stored is the empty string. *)
Example capturePhoto_without_dimensions :
  let s := mkState CAMERA false "" [] [] None NONE "" ["QUJD"]
             (Some (mkMediaStream [0])) in
  let dom := mkDom (Some (mkVideo HAVE_ENOUGH_DATA 0 0 7))
               (Some (mkCanvas true (fun _ _ _ => "QUJD"))) in
  hasDecodedFrame dom = false
  /\ capturedImages (stateOf (capturePhoto dom s)) = ["QUJD"; ""].
Proof. split; reflexivity. Qed.

(** C6 (corrected). With both elements mounted, a 2D context available
    and a video of non-zero natural dimensions, the handler appends
    exactly one token at the end of the buffer, the payload of the frame
    serialised as JPEG at quality 0.8 at the video's natural size, and
    changes nothing else, whether or not a device handle is held.  When
    an element is missing, or the video has neither enough data nor a
    non-zero width, or no context is available, it returns normally with
    the state, the buffer included, as it was and no message shown. *)
Theorem capturePhoto_guarded :
  forall dom s,
    (captureGuard dom = false ->
     outcomeOf (capturePhoto dom s) = Returns tt
     /\ stateOf (capturePhoto dom s) = s
     /\ alerts (traceOf (capturePhoto dom s)) = [])
    /\ (forall video canvas,
          videoRef dom = Some video -> canvasRef dom = Some canvas ->
          context2d canvas = true ->
          0 < videoWidth video -> 0 < videoHeight video ->
          let payload :=
            serialize canvas
              (mkBitmap (videoWidth video) (videoHeight video) (currentFrame video))
              "image/jpeg" (8 # 10)%Q in
          lacks "," payload = true ->
          outcomeOf (capturePhoto dom s) = Returns tt
          /\ alerts (traceOf (capturePhoto dom s)) = []
          /\ stateOf (capturePhoto dom s) =
             mkState (view s) (loading s) (loadingMessage s) (ingredients s)
               (recipes s) (selectedRecipe s) (dietaryPreference s)
               (newIngredientText s) (capturedImages s ++ [payload])%list (stream s)).
Proof.
  intros dom s. split; [apply capturePhoto_guard_fails|].
  intros video canvas Hv Hc Hctx Hw Hh payload Hfree.
  assert (Hready : videoReady video = true).
  { unfold videoReady. apply orb_true_iff. right. apply Nat.ltb_lt. exact Hw. }
  rewrite (capturePhoto_guard_passes dom s video canvas Hv Hc Hready Hctx).
  rewrite (encodedFrame_payload canvas video Hw Hh Hfree).
  repeat split.
Qed.

Lemma capturePhoto_guarded_witness :
  let s := mkState CAMERA false "" [] [] None NONE "" ["AAAA"]
             (Some (mkMediaStream [0])) in
  let dom := mkDom (Some (mkVideo 2 640 480 7))
               (Some (mkCanvas true (fun _ _ _ => "QUJD"))) in
  capturedImages (stateOf (capturePhoto dom s)) = ["AAAA"; "QUJD"]
  /\ stateOf (capturePhoto (mkDom None (canvasRef dom)) s) = s.
Proof.
  intros s dom. split.
  - destruct (capturePhoto_guarded dom s) as (_ & Happend).
    destruct (Happend (mkVideo 2 640 480 7) (mkCanvas true (fun _ _ _ => "QUJD"))
                eq_refl eq_refl eq_refl) as (_ & _ & Hstate).
    + simpl. lia.
    + simpl. lia.
    + reflexivity.
    + rewrite Hstate. reflexivity.
  - destruct (capturePhoto_guarded (mkDom None (canvasRef dom)) s) as (Hnoop & _).
    destruct (Hnoop eq_refl) as (_ & Hstate & _). exact Hstate.
Defined.

(** ** The brief sent for a recipe request: [suggestRecipes] *)

Lemma prefix_app needle rest : String.prefix needle (needle ++ rest) = true.
Proof.
  induction needle as [|c needle IH]; cbn [append String.prefix].
  - destruct rest; reflexivity.
  - destruct (ascii_dec c c) as [_|Hneq]; [exact IH | contradiction].
Qed.

Lemma prefix_app_l needle : forall hay rest,
  String.prefix needle hay = true -> String.prefix needle (hay ++ rest) = true.
Proof.
  induction needle as [|c needle IH]; intros hay rest.
  - intros _. destruct (hay ++ rest); reflexivity.
  - destruct hay as [|a hay]; [discriminate|].
    cbn [append String.prefix].
    destruct (ascii_dec c a); [apply IH | discriminate].
Qed.

Lemma includes_prefix hay needle :
  String.prefix needle hay = true -> Js.includes hay needle = true.
Proof.
  intros Hp. destruct hay; cbn [Js.includes]; rewrite Hp; reflexivity.
Qed.

Lemma includes_app_r needle left right :
  Js.includes right needle = true -> Js.includes (left ++ right) needle = true.
Proof.
  intros Hr. induction left as [|c left IH]; [exact Hr|].
  cbn [append Js.includes]. rewrite IH. apply orb_true_r.
Qed.

Lemma includes_app_l needle : forall left right,
  Js.includes left needle = true -> Js.includes (left ++ right) needle = true.
Proof.
  induction left as [|c left IH]; intros right; cbn [Js.includes].
  - rewrite orb_false_r. intros Hp. apply includes_prefix.
    apply prefix_app_l. exact Hp.
  - intros H. apply orb_true_iff in H. destruct H as [Hp|Hrest].
    + apply includes_prefix. apply (prefix_app_l needle (String c left)). exact Hp.
    + cbn [append Js.includes]. rewrite (IH right Hrest). apply orb_true_r.
Qed.

Lemma includes_self_app needle rest : Js.includes (needle ++ rest) needle = true.
Proof. apply includes_prefix, prefix_app. Qed.

Lemma includes_self needle : Js.includes needle needle = true.
Proof.
  apply includes_prefix. induction needle as [|c needle IH]; [reflexivity|].
  cbn [String.prefix]. destruct (ascii_dec c c); [exact IH | contradiction].
Qed.

Lemma includes_join sep x (l : list string) :
  In x l -> Js.includes (Js.join sep l) x = true.
Proof.
  unfold Js.join. induction l as [|y l IH]; [contradiction|].
  intros [Heq|Hin].
  - subst y. destruct l as [|z l]; cbn [concat].
    + apply includes_self.
    + apply includes_self_app.
  - destruct l as [|z l]; [contradiction|].
    cbn [concat]. apply includes_app_r, includes_app_r. apply IH. exact Hin.
Qed.

Lemma includes_briefFor p prompt needle :
  Js.includes prompt needle = true -> Js.includes (briefFor p prompt) needle = true.
Proof.
  intros H. destruct p; cbn [briefFor]; [exact H | apply includes_app_l; exact H].
Qed.

(** The prompt, flattened: introduction, optional must-use clause,
    optional dietary clause, request. *)
Lemma buildPrompt_segments ings pref :
  buildPrompt ings pref =
  promptIntro (Js.join ", " (map name ings))
  ++ (if Js.truthy (Js.join ", " (map name (filter isPriority ings)))
      then promptPriority (Js.join ", " (map name (filter isPriority ings)))
      else "")
  ++ (if isNONE pref then "" else promptDiet pref)
  ++ promptRequest.
Proof.
  unfold buildPrompt.
  destruct (Js.truthy (Js.join ", " (map name (filter isPriority ings))));
    destruct (isNONE pref); cbn [negb];
    rewrite ?append_assoc; reflexivity.
Qed.

Lemma suggestRecipes_requests key reply now ings pref s :
  requests (traceOf (suggestRecipes key reply now ings pref s))
  = [TextRequest (selectedProvider key)
       (briefFor (selectedProvider key) (buildPrompt ings pref))].
Proof.
  unfold suggestRecipes, selectedProvider.
  destruct (keyPresent key); destruct reply; reflexivity.
Qed.

Lemma join_flagged_nonempty (l : list Ingredient) i :
  In i l -> isPriority i = true -> name i <> "" ->
  Js.truthy (Js.join ", " (map name (filter isPriority l))) = true.
Proof.
  intros Hin Hflag Hname.
  assert (Hfil : In i (filter isPriority l)) by (apply filter_In; split; assumption).
  destruct (filter isPriority l) as [|j rest]; [contradiction|].
  unfold Js.join. cbn [map concat].
  destruct rest as [|k rest].
  - destruct Hfil as [Heq|[]]. subst j. cbn [map].
    destruct (name i); [contradiction | reflexivity].
  - cbn [map]. destruct (name j); reflexivity.
Qed.

Lemma join_flagged_truthy (l : list Ingredient) :
  Js.truthy (Js.join ", " (map name (filter isPriority l))) = true ->
  anyPriority l = true.
Proof.
  unfold anyPriority. intros Ht.
  destruct (filter isPriority l) as [|j rest] eqn:Hfil; [discriminate Ht|].
  apply existsb_exists. exists j.
  assert (Hin : In j (filter isPriority l)) by (rewrite Hfil; left; reflexivity).
  apply filter_In in Hin. exact Hin.
Qed.

Lemma occursIn_self_app needle rest : occursIn needle (needle ++ rest).
Proof. exists "", rest. reflexivity. Qed.

Lemma occursIn_self needle : occursIn needle needle.
Proof. exists "", "". cbn [append]. symmetry. apply append_empty_r. Qed.

Lemma occursIn_app_l needle hay rest :
  occursIn needle hay -> occursIn needle (hay ++ rest).
Proof.
  intros (front & back & ->). exists front, (back ++ rest).
  rewrite !append_assoc. reflexivity.
Qed.

Lemma occursIn_app_r needle front hay :
  occursIn needle hay -> occursIn needle (front ++ hay).
Proof.
  intros (front' & back & ->). exists (front ++ front'), back.
  rewrite !append_assoc. reflexivity.
Qed.

Lemma occursIn_concat sep x (l : list string) :
  In x l -> occursIn x (String.concat sep l).
Proof.
  induction l as [|y l IH]; [contradiction|].
  intros [Heq|Hin].
  - subst y. destruct l as [|z l]; cbn [concat].
    + apply occursIn_self.
    + apply occursIn_self_app.
  - destruct l as [|z l]; [contradiction|].
    cbn [concat]. apply occursIn_app_r, occursIn_app_r. apply IH. exact Hin.
Qed.

(** C8, the claim as stated fails: the must-use clause is added when the
    comma-joined flagged names form a non-empty string, not when some
    ingredient is flagged.  A roster whose only flagged ingredient has an
    empty name (the name a detection response may carry) is sent without
    any must-use clause; the same roster with the name Queso is sent with
    the clause. *)
Lemma brief_omits_flagged_empty_name :
  let roster := [mkIngredient "ing-1700000000000-0" "" true] in
  let named := [mkIngredient "ing-1700000000000-0" "Queso" true] in
  let sent l :=
    requests (traceOf (suggestRecipes None (Fulfilled None) (fun _ => 0%Z)
                         l NONE initialState)) in
  let request :=
    String "010"
      ("      Sugiere 4 recetas sencillas y creativas que maximicen el uso de mis ingredientes disponibles. "
       ++ String "010"
       ("      Se permiten sugerir ingredientes básicos de despensa (sal, aceite, pimienta, agua) sin listarlos como "
        ++ String "034" ("faltantes" ++ String "034" ("."
        ++ String "010"
       ("      Prioriza recetas donde 'missingIngredients' sea una lista vacía o muy corta."
        ++ String "010" "    "))))) in
  roster <> []
  /\ anyPriority roster = true
  /\ sent roster
     = [TextRequest Gemini
          ("Tengo estos ingredientes disponibles: . " ++ request
           ++ " Devuelve la respuesta en formato JSON.")]
  /\ (forall p b, In (TextRequest p b) (sent roster) ->
        Js.includes b "IMPORTANTE" = false
        /\ Js.includes b "prioritarios" = false)
  /\ sent named
     = [TextRequest Gemini
          ("Tengo estos ingredientes disponibles: Queso. "
           ++ "IMPORTANTE: Debes intentar usar estos ingredientes prioritarios que van a caducar: Queso. "
           ++ request ++ " Devuelve la respuesta en formato JSON.")].
Proof.
  cbv zeta. split; [discriminate|]. split; [reflexivity|].
  split; [vm_compute; reflexivity|]. split; [|vm_compute; reflexivity].
  intros p b [Heq|[]]. injection Heq as <- <-. split; vm_compute; reflexivity.
Qed.

(** C8 (corrected). Whatever the roster, the preference, the key, the
    provider's reply and the state, exactly one brief is sent: to OpenAI
    when the key is a non-empty string, to Gemini, with the request for
    JSON at its end, otherwise.  The brief is the introduction listing
    the names of all roster ingredients, comma-separated; then, when the
    comma-separated list of the flagged ingredients' names is not the
    empty string, the must-use clause with exactly that list; then the
    strict dietary clause naming the preference, when it is not NONE;
    then the request for 4 recipes that allows the pantry staples without
    listing them as missing.  Every roster name occurs in the brief; the
    list of flagged names is non-empty as soon as some flagged ingredient
    has a non-empty name, and only if some ingredient is flagged. *)
Theorem suggestRecipes_brief :
  forall key reply now ings pref s,
    let ingredientNames := String.concat ", " (map name ings) in
    let priorityNames :=
      String.concat ", " (map name (filter isPriority ings)) in
    let mustUse :=
      "IMPORTANTE: Debes intentar usar estos ingredientes prioritarios que van a caducar: "
      ++ priorityNames ++ ". " in
    let diet :=
      match pref with
      | NONE => ""
      | VEGETARIAN => "Restricción dietética estricta: Vegetariano. "
      | VEGAN => "Restricción dietética estricta: Vegano. "
      end in
    let request :=
      String "010"
        ("      Sugiere 4 recetas sencillas y creativas que maximicen el uso de mis ingredientes disponibles. "
         ++ String "010"
         ("      Se permiten sugerir ingredientes básicos de despensa (sal, aceite, pimienta, agua) sin listarlos como "
          ++ String "034" ("faltantes" ++ String "034" ("."
          ++ String "010"
         ("      Prioriza recetas donde 'missingIngredients' sea una lista vacía o muy corta."
          ++ String "010" "    "))))) in
    let prompt :=
      "Tengo estos ingredientes disponibles: " ++ ingredientNames ++ ". "
      ++ match priorityNames with
         | EmptyString => ""
         | String _ _ => mustUse
         end
      ++ diet ++ request in
    let provider :=
      match key with
      | Some (String _ _) => OpenAI
      | _ => Gemini
      end in
    let brief :=
      match key with
      | Some (String _ _) => prompt
      | _ => prompt ++ " Devuelve la respuesta en formato JSON."
      end in
    requests (traceOf (suggestRecipes key reply now ings pref s))
      = [TextRequest provider brief]
    /\ (forall i, In i ings -> occursIn (name i) brief)
    /\ (forall i, In i ings -> isPriority i = true ->
        occursIn (name i) priorityNames)
    /\ (forall i, In i ings -> isPriority i = true -> name i <> "" ->
        priorityNames <> "" /\ occursIn mustUse brief)
    /\ (priorityNames <> "" -> anyPriority ings = true)
    /\ (pref <> NONE -> diet <> "" /\ occursIn diet brief)
    /\ occursIn "Sugiere 4 recetas" brief
    /\ occursIn
         ("ingredientes básicos de despensa (sal, aceite, pimienta, agua) sin listarlos como "
          ++ String "034" ("faltantes" ++ String "034" ""))
         brief.
Proof.
  intros key reply now ings pref s ingredientNames priorityNames mustUse diet
    request prompt provider brief.
  assert (Hprompt : buildPrompt ings pref = prompt).
  { rewrite buildPrompt_segments.
    unfold promptIntro, promptPriority, promptDiet, preferenceValue, Js.join.
    fold ingredientNames. fold priorityNames. subst prompt mustUse diet.
    rewrite !append_assoc.
    destruct priorityNames; destruct pref; reflexivity. }
  assert (Hbrief : forall needle, occursIn needle prompt -> occursIn needle brief).
  { intros needle H. subst brief.
    destruct key as [[|c k]|]; [apply occursIn_app_l| |apply occursIn_app_l];
      exact H. }
  assert (Hflag : forall i, In i ings -> isPriority i = true -> name i <> "" ->
                            priorityNames <> "").
  { intros i Hin Hp Hname Hempty.
    pose proof (join_flagged_nonempty ings i Hin Hp Hname) as Ht.
    unfold Js.join in Ht. fold priorityNames in Ht. rewrite Hempty in Ht.
    discriminate Ht. }
  split.
  { rewrite suggestRecipes_requests, Hprompt.
    unfold selectedProvider, keyPresent. subst provider brief.
    destruct key as [[|c k]|]; reflexivity. }
  split.
  { intros i Hin. apply Hbrief. subst prompt.
    apply occursIn_app_r, occursIn_app_l.
    apply occursIn_concat, in_map, Hin. }
  split.
  { intros i Hin Hp. apply occursIn_concat, in_map. apply filter_In.
    split; assumption. }
  split.
  { intros i Hin Hp Hname. split; [exact (Hflag i Hin Hp Hname)|].
    apply Hbrief. subst prompt.
    pose proof (Hflag i Hin Hp Hname) as Hne.
    destruct priorityNames as [|c0 rest0] eqn:Hpn; [contradiction|].
    do 3 apply occursIn_app_r. apply occursIn_self_app. }
  split.
  { intros Hne. apply join_flagged_truthy. unfold Js.join.
    fold priorityNames. destruct priorityNames; [contradiction | reflexivity]. }
  split.
  { intros Hpref. split; [subst diet; destruct pref; [contradiction| |]; discriminate|].
    apply Hbrief. subst prompt.
    do 4 apply occursIn_app_r. apply occursIn_self_app. }
  split; apply Hbrief; subst prompt; do 5 apply occursIn_app_r; subst request.
  - exists (String "010" "      "),
      (" sencillas y creativas que maximicen el uso de mis ingredientes disponibles. "
       ++ String "010"
       ("      Se permiten sugerir ingredientes básicos de despensa (sal, aceite, pimienta, agua) sin listarlos como "
        ++ String "034" ("faltantes" ++ String "034" ("."
        ++ String "010"
       ("      Prioriza recetas donde 'missingIngredients' sea una lista vacía o muy corta."
        ++ String "010" "    "))))).
    reflexivity.
  - exists (String "010"
      ("      Sugiere 4 recetas sencillas y creativas que maximicen el uso de mis ingredientes disponibles. "
       ++ String "010" "      Se permiten sugerir ")),
      ("." ++ String "010"
       ("      Prioriza recetas donde 'missingIngredients' sea una lista vacía o muy corta."
        ++ String "010" "    ")).
    reflexivity.
Qed.

Lemma suggestRecipes_brief_witness :
  let roster := [mkIngredient "manual-1" "Queso" true;
                 mkIngredient "manual-2" "Tomate" false] in
  requests (traceOf (suggestRecipes (Some "sk-test") (Rejected "offline")
                       (fun _ => 0%Z) roster VEGAN initialState))
  = [TextRequest OpenAI
       ("Tengo estos ingredientes disponibles: Queso, Tomate. "
        ++ "IMPORTANTE: Debes intentar usar estos ingredientes prioritarios que van a caducar: Queso. "
        ++ "Restricción dietética estricta: Vegano. "
        ++ String "010"
        ("      Sugiere 4 recetas sencillas y creativas que maximicen el uso de mis ingredientes disponibles. "
         ++ String "010"
         ("      Se permiten sugerir ingredientes básicos de despensa (sal, aceite, pimienta, agua) sin listarlos como "
          ++ String "034" ("faltantes" ++ String "034" ("."
          ++ String "010"
         ("      Prioriza recetas donde 'missingIngredients' sea una lista vacía o muy corta."
          ++ String "010" "    "))))))].
Proof.
  intros roster.
  destruct (suggestRecipes_brief (Some "sk-test") (Rejected "offline")
              (fun _ => 0%Z) roster VEGAN initialState) as (Hsent & _).
  rewrite Hsent. reflexivity.
Defined.

(** ** Identifiers in the roster *)

(** *** Rendering of numbers and ids is injective *)

Lemma to_int_proper z : Z.to_int z <> Decimal.Pos Decimal.Nil
                        /\ Z.to_int z <> Decimal.Neg Decimal.Nil.
Proof.
  destruct z as [|p|p]; cbn [Z.to_int]; split; try discriminate;
    intros H; injection H as H; exact (DecimalPos.Unsigned.to_uint_nonnil p H).
Qed.

Lemma numberToString_inj a b :
  Js.numberToString a = Js.numberToString b -> a = b.
Proof.
  unfold Js.numberToString. intros Heq.
  apply DecimalZ.to_int_inj.
  destruct (to_int_proper a) as (Ha1 & Ha2), (to_int_proper b) as (Hb1 & Hb2).
  pose proof (NilZero.isi _ Ha1 Ha2) as Ia.
  pose proof (NilZero.isi _ Hb1 Hb2) as Ib.
  rewrite Heq, Ib in Ia. injection Ia as Ia. symmetry. exact Ia.
Qed.

Lemma indexToString_inj i j :
  Js.indexToString i = Js.indexToString j -> i = j.
Proof.
  unfold Js.indexToString. intros H. apply Nat2Z.inj, numberToString_inj, H.
Qed.

Lemma digits_lack_dash d : lacks "-" (NilEmpty.string_of_uint d) = true.
Proof. induction d; cbn [NilEmpty.string_of_uint lacks]; try exact IHd; reflexivity. Qed.

Lemma indexToString_lacks_dash i : lacks "-" (Js.indexToString i) = true.
Proof.
  unfold Js.indexToString, Js.numberToString.
  destruct (Z.of_nat i) as [|p|p] eqn:Hz.
  - reflexivity.
  - cbn [Z.to_int NilZero.string_of_int]. unfold NilZero.string_of_uint.
    destruct (Pos.to_uint p); try apply digits_lack_dash. reflexivity.
  - pose proof (Nat2Z.is_nonneg i). lia.
Qed.

Lemma lacks_app_sep c a b : lacks c (a ++ String c b) = false.
Proof.
  induction a as [|x a IH]; cbn [append lacks].
  - rewrite Ascii.eqb_refl. reflexivity.
  - rewrite IH. apply andb_false_r.
Qed.

(** Two strings that end in a separator followed by a separator-free
    tail agree piecewise when they agree as a whole. *)
Lemma split_at_last c : forall a a' d d',
  lacks c d = true -> lacks c d' = true ->
  a ++ String c d = a' ++ String c d' -> a = a' /\ d = d'.
Proof.
  induction a as [|x a IH]; intros [|x' a'] d d' Hd Hd' Heq; cbn [append] in Heq.
  - injection Heq as Heq. split; [reflexivity | exact Heq].
  - injection Heq as _ Heq. rewrite Heq, lacks_app_sep in Hd. discriminate.
  - injection Heq as _ Heq. rewrite <- Heq, lacks_app_sep in Hd'. discriminate.
  - injection Heq as Hx Heq. destruct (IH a' d d' Hd Hd' Heq) as (Ha & Hdd).
    subst. split; reflexivity.
Qed.

Lemma append_inj_l (p a b : string) : p ++ a = p ++ b -> a = b.
Proof.
  induction p as [|x p IH]; cbn [append]; intros H; [exact H|].
  injection H as H. apply IH, H.
Qed.

Lemma renderId_inj k k' : renderId k = renderId k' -> k = k'.
Proof.
  destruct k as [t i|t], k' as [t' i'|t']; cbn [renderId]; intros H.
  - unfold detectedId in H. apply append_inj_l in H.
    change ("-" ++ ?x) with (String "-" x) in H.
    apply split_at_last in H; try apply indexToString_lacks_dash.
    destruct H as (Ht & Hi).
    apply numberToString_inj in Ht. apply indexToString_inj in Hi.
    subst. reflexivity.
  - discriminate H.
  - discriminate H.
  - unfold manualId in H. apply append_inj_l, numberToString_inj in H.
    subst. reflexivity.
Qed.

(** *** What each operation does to the ids of the roster *)

Lemma filter_all {A : Type} (l : list A) : filter (fun _ => true) l = l.
Proof. induction l as [|x l IH]; cbn [filter]; [|rewrite IH]; reflexivity. Qed.

Lemma newIngredientsOf_ids now detectedNames :
  map id (newIngredientsOf now detectedNames)
  = map renderId (Js.mapi (fun _ idx => FromDetection (now idx) idx) detectedNames).
Proof.
  unfold newIngredientsOf, Js.mapi. rewrite !map_mapi_from. reflexivity.
Qed.

Lemma toggle_keeps_ids id0 (l : list Ingredient) :
  map id (map (fun i => if String.eqb (id i) id0
                        then mkIngredient (id i) (name i) (negb (isPriority i))
                        else i) l) = map id l.
Proof.
  induction l as [|i l IH]; [reflexivity|].
  cbn [map]. rewrite IH. destruct (String.eqb (id i) id0); reflexivity.
Qed.

Lemma manualAdd_run text now s :
  (setNewIngredientText text ;; addManualIngredient now) s =
  (Returns tt,
   if Js.truthy (Js.trim text)
   then mkState (view s) (loading s) (loadingMessage s)
          (ingredients s ++ [mkIngredient (manualId now) (Js.trim text) false])%list
          (recipes s) (selectedRecipe s) (dietaryPreference s) ""
          (capturedImages s) (stream s)
   else mkState (view s) (loading s) (loadingMessage s) (ingredients s)
          (recipes s) (selectedRecipe s) (dietaryPreference s) text
          (capturedImages s) (stream s),
   []).
Proof.
  unfold bind at 1. cbn [setNewIngredientText modify].
  unfold addManualIngredient, bind at 1, getState. cbn [newIngredientText].
  destruct (Js.truthy (Js.trim text)); reflexivity.
Qed.

(** Every operation returns normally; the ids afterwards are some of the
    ids before, in their order, followed by the ids the operation draws. *)
Lemma applyOp_ids op s :
  outcomeOf (applyOp op s) = Returns tt
  /\ exists keep,
       map id (ingredients (stateOf (applyOp op s)))
       = (map id (filter keep (ingredients s)) ++ map renderId (drawn op))%list.
Proof.
  destruct op as [key reply now images|text now|id0|id0]; cbn [applyOp drawn].
  - destruct reply as [names|reason].
    + rewrite processImages_fulfilled. split; [reflexivity|].
      exists (fun _ => true). cbn [stateOf fst snd ingredients].
      rewrite filter_all, map_app, newIngredientsOf_ids. reflexivity.
    + rewrite processImages_rejected. split; [reflexivity|].
      exists (fun _ => true). cbn [stateOf fst snd ingredients withLoading map].
      rewrite filter_all, app_nil_r. reflexivity.
  - rewrite manualAdd_run.
    destruct (Js.truthy (Js.trim text)); cbn [outcomeOf stateOf fst snd ingredients].
    + split; [reflexivity|]. exists (fun _ => true).
      rewrite filter_all, map_app. reflexivity.
    + split; [reflexivity|]. exists (fun _ => true).
      rewrite filter_all. cbn [map]. rewrite app_nil_r. reflexivity.
  - split; [reflexivity|].
    exists (fun i => negb (String.eqb (id i) id0)). cbn.
    rewrite app_nil_r. reflexivity.
  - split; [reflexivity|]. exists (fun _ => true). cbn.
    rewrite filter_all, app_nil_r. apply toggle_keeps_ids.
Qed.

Lemma NoDup_filter_prefix (keep : Ingredient -> bool) (l : list Ingredient)
  (rest : list string) :
  NoDup (map id l ++ rest) -> NoDup (map id (filter keep l) ++ rest).
Proof.
  induction l as [|i l IH]; [exact (fun H => H)|].
  cbn [map app filter]. intros Hnd. inversion Hnd as [|x xs Hnotin Hrest]; subst.
  destruct (keep i); [|apply IH; exact Hrest].
  cbn [map app]. constructor; [|apply IH; exact Hrest].
  intros Hin. apply Hnotin. apply in_app_or in Hin. apply in_or_app.
  destruct Hin as [Hin|Hin]; [left|right; exact Hin].
  apply in_map_iff in Hin. destruct Hin as (j & Hj & Hfil).
  apply filter_In in Hfil. apply in_map_iff. exists j. split; [exact Hj | apply Hfil].
Qed.

Lemma runOps_ids ops : forall s,
  NoDup (map id (ingredients s) ++ map renderId (flat_map drawn ops)) ->
  outcomeOf (runOps ops s) = Returns tt
  /\ NoDup (map id (ingredients (stateOf (runOps ops s)))).
Proof.
  induction ops as [|op ops IH]; intros s Hnd.
  - cbn in Hnd. rewrite app_nil_r in Hnd. split; [reflexivity | exact Hnd].
  - destruct (applyOp_ids op s) as (Hret & keep & Hids).
    unfold runOps. cbn [forEach]. unfold bind.
    destruct (applyOp op s) as [[o s1] t1] eqn:Hrun.
    cbn [outcomeOf stateOf fst snd] in Hret, Hids. subst o.
    assert (Hnd1 : NoDup (map id (ingredients s1)
                          ++ map renderId (flat_map drawn ops))).
    { rewrite Hids, <- app_assoc.
      apply NoDup_filter_prefix.
      cbn [flat_map] in Hnd. rewrite map_app in Hnd. exact Hnd. }
    destruct (IH s1 Hnd1) as (Hret1 & Hnd2). unfold runOps in Hret1, Hnd2.
    destruct (forEach ops applyOp s1) as [[o2 s2] t2].
    cbn [outcomeOf stateOf fst snd] in *. split; assumption.
Qed.

Lemma NoDup_renderId (l : list IdSource) : NoDup l -> NoDup (map renderId l).
Proof.
  induction 1 as [|k l Hnotin Hnd IH]; cbn [map]; constructor; [|exact IH].
  intros Hin. apply in_map_iff in Hin. destruct Hin as (k' & Heq & Hin).
  apply renderId_inj in Heq. subst k'. exact (Hnotin Hin).
Qed.

(** C1, the claim as stated fails: a manual id is the clock reading alone,
    so two manual adds that read the same clock value put two entries
    with one id in the roster. *)
Lemma manual_adds_same_clock_collide :
  let ops := [ManualAdd "sal" 1700000000000%Z; ManualAdd "ajo" 1700000000000%Z] in
  ingredients (stateOf (runOps ops initialState))
  = [mkIngredient "manual-1700000000000" "sal" false;
     mkIngredient "manual-1700000000000" "ajo" false]
  /\ ~ NoDup (map id (ingredients (stateOf (runOps ops initialState)))).
Proof.
  split; [reflexivity|].
  intros Hnd. inversion Hnd as [|x xs Hnotin _]; subst.
  apply Hnotin. left. reflexivity.
Qed.

(** C1 (corrected). Take any script of detection batches, manual adds,
    removals and priority toggles, run from the initial state.  If the id
    sources it draws are pairwise different (no two manual adds read the
    same clock value, no two detected names share both clock reading and
    batch position), the script runs to its end and the ids in the roster
    are pairwise distinct. *)
Theorem roster_ids_distinct :
  forall ops,
    NoDup (flat_map drawn ops) ->
    outcomeOf (runOps ops initialState) = Returns tt
    /\ NoDup (map id (ingredients (stateOf (runOps ops initialState)))).
Proof.
  intros ops Hnd. apply runOps_ids. cbn [initialState ingredients map app].
  apply NoDup_renderId. exact Hnd.
Qed.

Lemma roster_ids_distinct_witness :
  let ops :=
    [DetectionBatch None (Fulfilled (Some ["tomate"; "queso"]))
       (fun _ => 1700000000000%Z) ["QUJD"];
     ManualAdd " sal " 1700000000500%Z;
     TogglePriority "ing-1700000000000-0";
     Remove "ing-1700000000000-1";
     DetectionBatch (Some "sk-test") (Fulfilled (Some ["ajo"]))
       (fun _ => 1700000000900%Z) ["QUJD"]] in
  map id (ingredients (stateOf (runOps ops initialState)))
  = ["ing-1700000000000-0"; "manual-1700000000500"; "ing-1700000000900-0"]
  /\ NoDup (map id (ingredients (stateOf (runOps ops initialState)))).
Proof.
  intros ops. split; [reflexivity|].
  apply (roster_ids_distinct ops).
  subst ops. vm_compute.
  repeat (constructor; [cbn; intuition congruence|]). constructor.
Defined.

(** ** Worked scenarios *)

Example scenario_detection_two_names :
  let s := mkState CAMERA false "" [] [] None NONE "" ["imgA"; "imgB"]
             (Some (mkMediaStream [0])) in
  let r := finishCameraSession None (Fulfilled (Some ["tomate"; "queso"]))
             (fun _ => 1700000000000%Z) s in
  requests (traceOf r) = [VisionRequest Gemini ["imgA"; "imgB"]]
  /\ map name (ingredients (stateOf r)) = ["Tomate"; "Queso"]
  /\ map isPriority (ingredients (stateOf r)) = [false; false]
  /\ view (stateOf r) = INGREDIENTS
  /\ stream (stateOf r) = None.
Proof. repeat split. Qed.

Example scenario_camera_denied :
  stateOf (startCamera (Rejected "NotAllowedError") initialState) = initialState
  /\ alerts (traceOf (startCamera (Rejected "NotAllowedError") initialState))
     = [cameraAlert].
Proof. split; reflexivity. Qed.

Example toggle_twice_restores :
  let s := mkState INGREDIENTS false "" [mkIngredient "manual-1" "Sal" false] []
             None NONE "" [] None in
  stateOf ((togglePriority "manual-1" ;; togglePriority "manual-1") s) = s.
Proof. reflexivity. Qed.

Example toUpperCase_tomate : Js.toUpperCase "tomate" = "TOMATE".
Proof. reflexivity. Qed.

Example trim_example : Js.trim "  sal gorda	 " = "sal gorda".
Proof. reflexivity. Qed.

Example split_example :
  Js.split "," "data:image/jpeg;base64,QUJD" = ["data:image/jpeg;base64"; "QUJD"].
Proof. reflexivity. Qed.

Example numberToString_example :
  Js.numberToString 1700000000000 = "1700000000000"
  /\ Js.numberToString 0 = "0" /\ Js.numberToString (-5) = "-5"
  /\ Js.indexToString 0 = "0" /\ Js.indexToString 12 = "12".
Proof. repeat split; reflexivity. Qed.

Example includes_example :
  Js.includes "Tengo queso" "queso" = true /\ Js.includes "Tengo queso" "ajo" = false.
Proof. split; reflexivity. Qed.

(** * Further properties of the gateway and of the component *)

(** ** The gateway operations *)

Lemma NoDup_map_injective {A B : Type} (f : A -> B) (l : list A) :
  (forall x y, f x = f y -> x = y) -> NoDup l -> NoDup (map f l).
Proof.
  intros Hinj. induction 1 as [|x l Hnotin Hnd IH]; cbn [map]; constructor; [|exact IH].
  intros Hin. apply in_map_iff in Hin. destruct Hin as (y & Heq & Hin).
  apply Hinj in Heq. subst y. exact (Hnotin Hin).
Qed.

(** An id that ends in a clock reading, a dash and an index determines
    the index, whatever the reading. *)
Lemma stamped_index_inj prefix t t' i i' :
  prefix ++ Js.numberToString t ++ "-" ++ Js.indexToString i
  = prefix ++ Js.numberToString t' ++ "-" ++ Js.indexToString i' ->
  i = i'.
Proof.
  intros H. apply append_inj_l in H.
  change ("-" ++ ?x) with (String "-" x) in H.
  apply split_at_last in H; try apply indexToString_lacks_dash.
  destruct H as (_ & Hi). apply indexToString_inj, Hi.
Qed.

(** X1. The detection operation sends exactly one request, carrying the
    images it was given in their order, shows nothing to the user and
    leaves the component state alone.  It returns the provider's list,
    the empty list when the provider's answer has none, and on any
    failure throws its one error: nothing else comes out of it. *)
Theorem detectIngredients_contract :
  forall key reply images s,
    let r := detectIngredientsFromImages key reply images s in
    stateOf r = s
    /\ requests (traceOf r) = [VisionRequest (selectedProvider key) images]
    /\ alerts (traceOf r) = []
    /\ outcomeOf r =
       match reply with
       | Fulfilled (Some names) => Returns names
       | Fulfilled None => Returns []
       | Rejected _ => Throws detectionFailedMessage
       end.
Proof.
  intros key reply images s r. subst r.
  unfold detectIngredientsFromImages, selectedProvider.
  destruct (keyPresent key); destruct reply as [[names|]|reason]; repeat split.
Qed.

(** X2. Both operations go to the same provider, chosen by the OpenAI key
    alone: Gemini when the key is unset or empty, OpenAI otherwise.  The
    Gemini brief is the prompt followed by the request for JSON, the
    OpenAI brief is the prompt itself. *)
Theorem provider_chosen_by_key :
  forall key visionReply textReply now images ings pref s,
    let p := match key with
             | Some (String _ _) => OpenAI
             | _ => Gemini
             end in
    requests (traceOf (detectIngredientsFromImages key visionReply images s))
      = [VisionRequest p images]
    /\ requests (traceOf (suggestRecipes key textReply now ings pref s))
      = [TextRequest p
           (match p with
            | OpenAI => buildPrompt ings pref
            | Gemini => buildPrompt ings pref
                        ++ " Devuelve la respuesta en formato JSON."
            end)].
Proof.
  intros key visionReply textReply now images ings pref s p. subst p.
  unfold detectIngredientsFromImages, suggestRecipes.
  destruct key as [[|c k]|]; cbn [keyPresent Js.truthy];
    destruct visionReply, textReply; split; reflexivity.
Qed.

Lemma suggestRecipes_fulfilled key raw now ings pref s :
  suggestRecipes key (Fulfilled raw) now ings pref s =
  (Returns (Js.mapi (fun r index =>
                       withId r (recipeId (selectedProvider key) (now index) index))
                    (orEmpty raw)),
   s,
   [ConsoleLog (match selectedProvider key with
                | OpenAI => "Using OpenAI for Recipes"
                | Gemini => "Using Gemini for Recipes"
                end);
    TextRequest (selectedProvider key)
      (briefFor (selectedProvider key) (buildPrompt ings pref))]).
Proof.
  unfold suggestRecipes, selectedProvider.
  destruct (keyPresent key); reflexivity.
Qed.

Lemma Forall2_mapi_from {A B : Type} (R : B -> A -> Prop) (f : A -> nat -> B)
  (l : list A) :
  (forall x i, R (f x i) x) -> forall k, Forall2 R (Js.mapi_from k f l) l.
Proof.
  intros HR. induction l as [|x l IH]; intros k; cbn [Js.mapi_from]; constructor.
  - apply HR.
  - apply IH.
Qed.

(** X3. A fulfilled recipe request leaves the component state alone and
    returns one recipe per recipe of the provider's answer (none when the
    answer has no list), in order, each with the provider's content and
    an id made of the provider's tag, the clock reading and the position.
    Whatever the clock does between two positions, and whatever id the
    provider had put, the ids of one batch are pairwise distinct. *)
Theorem suggestRecipes_batch :
  forall key raw now ings pref s,
    let r := suggestRecipes key (Fulfilled raw) now ings pref s in
    stateOf r = s
    /\ exists batch,
         outcomeOf r = Returns batch
         /\ List.length batch = List.length (orEmpty raw)
         /\ Forall2 sameBody batch (orEmpty raw)
         /\ map recipe_id batch =
            map (fun index => recipeId (selectedProvider key) (now index) index)
                (seq 0 (List.length (orEmpty raw)))
         /\ NoDup (map recipe_id batch).
Proof.
  intros key raw now ings pref s r. subst r.
  rewrite suggestRecipes_fulfilled. split; [reflexivity|].
  eexists. split; [reflexivity|].
  assert (Hids : map recipe_id
                   (Js.mapi (fun r index =>
                               withId r (recipeId (selectedProvider key) (now index) index))
                            (orEmpty raw))
                 = map (fun index => recipeId (selectedProvider key) (now index) index)
                       (seq 0 (List.length (orEmpty raw)))).
  { unfold Js.mapi. rewrite map_mapi_from. cbn [withId recipe_id].
    apply (mapi_from_index_only
             (fun index => recipeId (selectedProvider key) (now index) index)). }
  split; [apply mapi_from_length|].
  split; [apply Forall2_mapi_from; intros x i; repeat split|].
  split; [exact Hids|].
  rewrite Hids. apply NoDup_map_injective; [|apply seq_NoDup].
  intros i j. unfold recipeId. apply stamped_index_inj.
Qed.

(** ** Ids drawn by one detection batch *)

(** X4. The ingredients one detection response adds have pairwise
    distinct ids whatever the clock returns from one name to the next,
    and none of them can equal the id of a manual entry. *)
Theorem detected_batch_ids_distinct :
  forall key names now images s,
    exists added,
      ingredients (stateOf (processImages key (Fulfilled names) now images s))
      = (ingredients s ++ added)%list
      /\ List.length added = List.length (orEmpty names)
      /\ NoDup (map id added)
      /\ forall stamp, ~ In (manualId stamp) (map id added).
Proof.
  intros key names now images s.
  exists (newIngredientsOf now (orEmpty names)).
  rewrite processImages_fulfilled. cbn [stateOf fst snd ingredients].
  split; [reflexivity|].
  split; [apply mapi_from_length|].
  assert (Hids : map id (newIngredientsOf now (orEmpty names))
                 = map (fun idx => detectedId (now idx) idx)
                       (seq 0 (List.length (orEmpty names)))).
  { unfold newIngredientsOf, Js.mapi. rewrite map_mapi_from. cbn [id].
    apply (mapi_from_index_only (fun idx => detectedId (now idx) idx)). }
  rewrite Hids. split.
  - apply NoDup_map_injective; [|apply seq_NoDup].
    intros i j. unfold detectedId. apply stamped_index_inj.
  - intros stamp Hin. apply in_map_iff in Hin. destruct Hin as (idx & Heq & _).
    discriminate Heq.
Qed.

(** ** Roster edits *)

Lemma togglePriority_run id0 s :
  togglePriority id0 s =
  (Returns tt,
   mkState (view s) (loading s) (loadingMessage s)
     (map (toggleEntry id0) (ingredients s))
     (recipes s) (selectedRecipe s) (dietaryPreference s) (newIngredientText s)
     (capturedImages s) (stream s),
   []).
Proof. reflexivity. Qed.

Lemma removeIngredient_run id0 s :
  removeIngredient id0 s =
  (Returns tt,
   mkState (view s) (loading s) (loadingMessage s)
     (filter (otherThan id0) (ingredients s))
     (recipes s) (selectedRecipe s) (dietaryPreference s) (newIngredientText s)
     (capturedImages s) (stream s),
   []).
Proof. reflexivity. Qed.

Lemma filter_otherThan_absent id0 (l : list Ingredient) :
  ~ In id0 (map id l) -> filter (otherThan id0) l = l.
Proof. exact (filter_other_ids id0 l). Qed.

Lemma addManualIngredient_run now s :
  Js.trim (newIngredientText s) <> "" ->
  addManualIngredient now s =
  (Returns tt,
   mkState (view s) (loading s) (loadingMessage s)
     (ingredients s ++
      [mkIngredient (manualId now) (Js.trim (newIngredientText s)) false])%list
     (recipes s) (selectedRecipe s) (dietaryPreference s) ""
     (capturedImages s) (stream s),
   []).
Proof.
  intros Hne. unfold addManualIngredient, bind at 1, getState.
  rewrite (truthy_nonempty _ Hne). reflexivity.
Qed.

Lemma toggleEntry_involutive id0 i : toggleEntry id0 (toggleEntry id0 i) = i.
Proof.
  unfold toggleEntry. destruct (String.eqb (id i) id0) eqn:Hi.
  - cbn [id name isPriority]. rewrite Hi, negb_involutive. destruct i; reflexivity.
  - rewrite Hi. reflexivity.
Qed.

Lemma toggleEntry_id id0 i : id (toggleEntry id0 i) = id i.
Proof. unfold toggleEntry. destruct (String.eqb (id i) id0); reflexivity. Qed.

Lemma toggleEntry_name id0 i : name (toggleEntry id0 i) = name i.
Proof. unfold toggleEntry. destruct (String.eqb (id i) id0); reflexivity. Qed.

Lemma map_id_self {A : Type} (f : A -> A) (l : list A) :
  (forall x, f x = x) -> map f l = l.
Proof.
  intros Hf. induction l as [|x l IH]; cbn [map]; [|rewrite Hf, IH]; reflexivity.
Qed.

(** X5. Toggling the priority of an id twice in a row gives back the
    state it started from, for every roster, whether the id is carried by
    no entry, by one or by several. *)
Theorem togglePriority_twice_restores :
  forall s id0,
    (togglePriority id0 ;; togglePriority id0) s = (Returns tt, s, []).
Proof.
  intros s id0. unfold bind. rewrite !togglePriority_run. cbn [ingredients app].
  rewrite map_map, (map_id_self _ _ (toggleEntry_involutive id0)).
  destruct s; reflexivity.
Qed.

(** X6. Removing an id leaves no entry with that id (all of them go when
    several carry it), keeps exactly the entries with another id, touches
    no other state cell and does nothing to the outside world; removing
    the same id again changes nothing. *)
Theorem removeIngredient_removes_every_match :
  forall s id0,
    exists kept,
      removeIngredient id0 s =
      (Returns tt,
       mkState (view s) (loading s) (loadingMessage s) kept (recipes s)
         (selectedRecipe s) (dietaryPreference s) (newIngredientText s)
         (capturedImages s) (stream s),
       [])
      /\ ~ In id0 (map id kept)
      /\ (forall i, In i kept <-> In i (ingredients s) /\ id i <> id0)
      /\ List.length kept <= List.length (ingredients s)
      /\ removeIngredient id0 (stateOf (removeIngredient id0 s))
         = (Returns tt, stateOf (removeIngredient id0 s), []).
Proof.
  intros s id0. exists (filter (otherThan id0) (ingredients s)).
  assert (Hgone : ~ In id0 (map id (filter (otherThan id0) (ingredients s)))).
  { intros Hin. apply in_map_iff in Hin. destruct Hin as (i & Hid & Hin).
    apply filter_In in Hin. destruct Hin as (_ & Hkeep).
    unfold otherThan in Hkeep. rewrite Hid, String.eqb_refl in Hkeep.
    discriminate Hkeep. }
  split; [apply removeIngredient_run|].
  split; [exact Hgone|].
  split.
  { intros i. rewrite filter_In. unfold otherThan.
    destruct (String.eqb_spec (id i) id0) as [Heq|Hneq]; cbn [negb].
    - split; [intros (_ & H); discriminate H | intros (_ & H); contradiction].
    - split; intros (Hin & _); split; auto. }
  split; [apply filter_length_le|].
  rewrite !removeIngredient_run.
  cbn [stateOf fst snd ingredients view loading loadingMessage recipes
       selectedRecipe dietaryPreference newIngredientText capturedImages stream].
  rewrite (filter_otherThan_absent id0 _ Hgone). reflexivity.
Qed.

(** X7. Toggling the priority of an id keeps the roster's length, order,
    ids and names, flips the flag of exactly the entries carrying the id,
    and touches nothing else. *)
Theorem togglePriority_flips_matches_only :
  forall s id0,
    exists toggled,
      togglePriority id0 s =
      (Returns tt,
       mkState (view s) (loading s) (loadingMessage s) toggled (recipes s)
         (selectedRecipe s) (dietaryPreference s) (newIngredientText s)
         (capturedImages s) (stream s),
       [])
      /\ map id toggled = map id (ingredients s)
      /\ map name toggled = map name (ingredients s)
      /\ Forall2 (fun before after =>
                    isPriority after =
                    if String.eqb (id before) id0
                    then negb (isPriority before) else isPriority before)
                 (ingredients s) toggled.
Proof.
  intros s id0. exists (map (toggleEntry id0) (ingredients s)).
  split; [apply togglePriority_run|].
  split; [rewrite map_map; apply map_ext; apply toggleEntry_id|].
  split; [rewrite map_map; apply map_ext; apply toggleEntry_name|].
  induction (ingredients s) as [|i l IH]; cbn [map]; constructor; [|exact IH].
  unfold toggleEntry. destruct (String.eqb (id i) id0); reflexivity.
Qed.

Lemma filter_toggle_commute a b (l : list Ingredient) :
  filter (otherThan b) (map (toggleEntry a) l)
  = map (toggleEntry a) (filter (otherThan b) l).
Proof.
  induction l as [|i l IH]; [reflexivity|].
  cbn [map filter].
  assert (Hsame : otherThan b (toggleEntry a i) = otherThan b i)
    by (unfold otherThan; rewrite toggleEntry_id; reflexivity).
  rewrite Hsame. destruct (otherThan b i); cbn [map]; rewrite IH; reflexivity.
Qed.

(** X8. A priority toggle and a removal can be done in either order: the
    resulting state is the same, whatever the two ids. *)
Theorem toggle_and_remove_commute :
  forall s a b,
    (togglePriority a ;; removeIngredient b) s
    = (removeIngredient b ;; togglePriority a) s.
Proof.
  intros s a b. unfold bind.
  rewrite togglePriority_run, removeIngredient_run.
  rewrite removeIngredient_run, togglePriority_run.
  cbn [ingredients view loading loadingMessage recipes selectedRecipe
       dietaryPreference newIngredientText capturedImages stream app].
  rewrite filter_toggle_commute. reflexivity.
Qed.

(** X9. Adding a manual entry whose id is new to the roster and then
    removing that id gives back the roster as it was; only the entry field
    has been emptied. *)
Theorem add_then_remove_restores :
  forall now s,
    Js.trim (newIngredientText s) <> "" ->
    ~ In (manualId now) (map id (ingredients s)) ->
    (addManualIngredient now ;; removeIngredient (manualId now)) s =
    (Returns tt,
     mkState (view s) (loading s) (loadingMessage s) (ingredients s) (recipes s)
       (selectedRecipe s) (dietaryPreference s) "" (capturedImages s) (stream s),
     []).
Proof.
  intros now s Hne Hfresh. unfold bind at 1.
  rewrite (addManualIngredient_run now s Hne), removeIngredient_run.
  cbn [ingredients view loading loadingMessage recipes selectedRecipe
       dietaryPreference newIngredientText capturedImages stream app].
  rewrite filter_app, (filter_otherThan_absent _ _ Hfresh).
  cbn [filter]. unfold otherThan. cbn [id].
  rewrite String.eqb_refl. cbn [negb]. rewrite app_nil_r. reflexivity.
Qed.

Lemma add_then_remove_restores_witness :
  let s := mkState INGREDIENTS false "" [mkIngredient "manual-1" "Sal" true] [] None
             NONE " ajo " [] None in
  ingredients (stateOf ((addManualIngredient 2%Z ;; removeIngredient (manualId 2%Z)) s))
  = [mkIngredient "manual-1" "Sal" true].
Proof.
  intros s.
  assert (Hne : Js.trim (newIngredientText s) <> "") by (subst s; simpl; discriminate).
  assert (Hfresh : ~ In (manualId 2%Z) (map id (ingredients s))).
  { subst s. simpl. intros [H|[]]. discriminate H. }
  rewrite (add_then_remove_restores 2%Z s Hne Hfresh). reflexivity.
Defined.

(** ** Camera session *)

Lemma stopCameraWith_run bound s :
  stopCameraWith bound s =
  (Returns tt,
   match bound with
   | Some _ =>
       mkState (view s) (loading s) (loadingMessage s) (ingredients s) (recipes s)
         (selectedRecipe s) (dietaryPreference s) (newIngredientText s)
         (capturedImages s) None
   | None => s
   end,
   match bound with
   | Some m => map TrackStop (getTracks m)
   | None => []
   end).
Proof.
  destruct bound as [m|]; [|reflexivity].
  cbn [stopCameraWith]. unfold bind. rewrite forEach_emit_returns. cbn.
  rewrite app_nil_r. reflexivity.
Qed.

Lemma stopCamera_is_bound_to_call s : stopCamera s = stopCameraWith (stream s) s.
Proof.
  destruct (stream s) as [m|] eqn:Hs.
  - rewrite (stopCamera_active s m Hs), stopCameraWith_run. reflexivity.
  - rewrite (stopCamera_inactive s Hs). reflexivity.
Qed.

(** X10. Starting a scan empties the capture buffer whatever it held and
    asks once for the camera.  When access is granted the view is CAMERA
    and the granted stream is the held one; when it is refused the view is
    HOME, the user sees exactly one message, and the stream cell is left
    as it was.  Roster and recipes are untouched either way. *)
Theorem startCamera_outcomes :
  forall s,
    (forall mediaStream,
       startCamera (Fulfilled mediaStream) s =
       (Returns tt,
        mkState CAMERA (loading s) (loadingMessage s) (ingredients s) (recipes s)
          (selectedRecipe s) (dietaryPreference s) (newIngredientText s)
          [] (Some mediaStream),
        [GetUserMedia]))
    /\ (forall reason,
          let r := startCamera (Rejected reason) s in
          outcomeOf r = Returns tt
          /\ stateOf r =
             mkState HOME (loading s) (loadingMessage s) (ingredients s) (recipes s)
               (selectedRecipe s) (dietaryPreference s) (newIngredientText s)
               [] (stream s)
          /\ alerts (traceOf r) = [cameraAlert]
          /\ requests (traceOf r) = []).
Proof.
  intros s. split.
  - intros mediaStream. reflexivity.
  - intros reason r. subst r. repeat split.
Qed.

Lemma bind_getState {A : Type} (k : AppState -> Handler A) s :
  (s0 <- getState ;; k s0) s = k s s.
Proof.
  unfold bind, getState. destruct (k s s) as [[o s2] t2]. reflexivity.
Qed.

Lemma finishCameraSession_run key reply now s :
  finishCameraSession key reply now s =
  (stopCamera ;;
   if Nat.ltb 0 (List.length (capturedImages s))
   then processImages key reply now (capturedImages s)
   else setView HOME) s.
Proof.
  exact (bind_getState
           (fun s0 => stopCamera ;;
                      if Nat.ltb 0 (List.length (capturedImages s0))
                      then processImages key reply now (capturedImages s0)
                      else setView HOME) s).
Qed.

(** X11. Finishing a session with an empty capture buffer stops every
    track of the held stream, clears the handle and goes to HOME: no
    provider request, no message, roster untouched. *)
Theorem finishCameraSession_empty_buffer :
  forall key reply now s,
    capturedImages s = [] ->
    finishCameraSession key reply now s =
    (Returns tt,
     mkState HOME (loading s) (loadingMessage s) (ingredients s) (recipes s)
       (selectedRecipe s) (dietaryPreference s) (newIngredientText s) [] None,
     match stream s with
     | Some m => map TrackStop (getTracks m)
     | None => []
     end).
Proof.
  intros key reply now s Hempty.
  rewrite finishCameraSession_run, Hempty. cbn [List.length Nat.ltb Nat.leb].
  unfold bind. rewrite stopCamera_is_bound_to_call, stopCameraWith_run.
  destruct (stream s) as [m|] eqn:Hs; cbn; rewrite ?app_nil_r, ?Hempty.
  - reflexivity.
  - destruct s; cbn in *; subst; reflexivity.
Qed.

Lemma finishCameraSession_empty_buffer_witness :
  let s := mkState CAMERA false "" [] [] None NONE "" [] (Some (mkMediaStream [3; 4])) in
  finishCameraSession None (Rejected "offline") (fun _ => 0%Z) s
  = (Returns tt, mkState HOME false "" [] [] None NONE "" [] None,
     [TrackStop 3; TrackStop 4]).
Proof.
  intros s.
  rewrite (finishCameraSession_empty_buffer None (Rejected "offline")
             (fun _ => 0%Z) s eq_refl).
  reflexivity.
Defined.

(** X12. Finishing a session with captures stops every track of the held
    stream first, then sends one detection request carrying the whole
    buffer in capture order.  The handle is cleared and the buffer itself
    is left as it was.  On success the view is INGREDIENTS and the
    detected ingredients follow the roster; on failure the view and the
    roster are as before and the user sees one message. *)
Theorem finishCameraSession_submits_buffer :
  forall key reply now s,
    capturedImages s <> [] ->
    let r := finishCameraSession key reply now s in
    let released := match stream s with
                    | Some m => map TrackStop (getTracks m)
                    | None => []
                    end in
    outcomeOf r = Returns tt
    /\ (exists rest,
          traceOf r = (released ++ rest)%list
          /\ (forall track, ~ In (TrackStop track) rest)
          /\ requests rest = [VisionRequest (selectedProvider key) (capturedImages s)])
    /\ stream (stateOf r) = None
    /\ capturedImages (stateOf r) = capturedImages s
    /\ loading (stateOf r) = false
    /\ match reply with
       | Fulfilled names =>
           view (stateOf r) = INGREDIENTS
           /\ ingredients (stateOf r)
              = (ingredients s ++ newIngredientsOf now (orEmpty names))%list
           /\ alerts (traceOf r) = []
       | Rejected _ =>
           view (stateOf r) = view s
           /\ ingredients (stateOf r) = ingredients s
           /\ alerts (traceOf r) = [ingestionAlert]
       end.
Proof.
  intros key reply now s Hne r released. subst r released.
  rewrite finishCameraSession_run.
  destruct (capturedImages s) as [|img imgs] eqn:Himgs; [contradiction|].
  cbn [List.length Nat.ltb Nat.leb].
  unfold bind. rewrite stopCamera_is_bound_to_call, stopCameraWith_run.
  assert (Halerts : forall (m : MediaStream) (t : list Effect),
            alerts (map TrackStop (getTracks m) ++ t) = alerts t).
  { intros m t. induction (getTracks m) as [|x l IH]; [reflexivity | exact IH]. }
  destruct reply as [names|reason].
  - rewrite processImages_fulfilled.
    destruct (stream s) as [m|] eqn:Hs;
      cbn [outcomeOf stateOf traceOf fst snd stream capturedImages loading view
           ingredients];
      (split; [reflexivity|]);
      (split; [eexists; split; [reflexivity|]; split;
               [intros track [H|[H|[]]]; discriminate H | reflexivity]|]);
      rewrite ?Halerts, ?Himgs; repeat split; try assumption.
  - rewrite processImages_rejected.
    destruct (stream s) as [m|] eqn:Hs;
      cbn [outcomeOf stateOf traceOf fst snd stream capturedImages loading view
           ingredients withLoading];
      (split; [reflexivity|]);
      (split; [eexists; split; [reflexivity|]; split;
               [intros track [H|[H|[H|[H|[]]]]]; discriminate H | reflexivity]|]);
      rewrite ?Halerts, ?Himgs; repeat split; try assumption.
Qed.

Lemma finishCameraSession_submits_buffer_witness :
  let s := mkState CAMERA false "" [] [] None NONE "" ["imgA"; "imgB"]
             (Some (mkMediaStream [0])) in
  let r := finishCameraSession None (Rejected "offline") (fun _ => 0%Z) s in
  view (stateOf r) = CAMERA /\ stream (stateOf r) = None
  /\ capturedImages (stateOf r) = ["imgA"; "imgB"].
Proof.
  intros s r.
  assert (Hne : capturedImages s <> []) by (subst s; simpl; discriminate).
  destruct (finishCameraSession_submits_buffer None (Rejected "offline")
              (fun _ => 0%Z) s Hne) as (_ & _ & Hstream & Hbuf & _ & Hview & _).
  split; [exact Hview|]. split; [exact Hstream | exact Hbuf].
Defined.

(** X13. Whatever the refs hold, a capture returns normally, shows no
    message and sends nothing; every image already in the buffer stays in
    place, at most one token is added behind them, and no other state
    cell changes. *)
Theorem capturePhoto_only_extends_buffer :
  forall dom s,
    let r := capturePhoto dom s in
    outcomeOf r = Returns tt
    /\ alerts (traceOf r) = []
    /\ requests (traceOf r) = []
    /\ exists buffer,
         stateOf r =
         mkState (view s) (loading s) (loadingMessage s) (ingredients s)
           (recipes s) (selectedRecipe s) (dietaryPreference s)
           (newIngredientText s) buffer (stream s)
         /\ isPrefixOf (capturedImages s) buffer
         /\ List.length buffer <= S (List.length (capturedImages s)).
Proof.
  intros dom s r. subst r. unfold capturePhoto.
  assert (Hsame : exists buffer,
            s = mkState (view s) (loading s) (loadingMessage s) (ingredients s)
                  (recipes s) (selectedRecipe s) (dietaryPreference s)
                  (newIngredientText s) buffer (stream s)
            /\ isPrefixOf (capturedImages s) buffer
            /\ List.length buffer <= S (List.length (capturedImages s))).
  { exists (capturedImages s). split; [destruct s; reflexivity|].
    split; [exists []; rewrite app_nil_r; reflexivity | lia]. }
  destruct (videoRef dom) as [video|]; [|repeat split; exact Hsame].
  destruct (canvasRef dom) as [canvas|]; [|repeat split; exact Hsame].
  destruct (Nat.eqb (readyState video) HAVE_ENOUGH_DATA || Nat.ltb 0 (videoWidth video));
    [|repeat split; exact Hsame].
  destruct (context2d canvas); [|repeat split; exact Hsame].
  repeat split. eexists. split; [reflexivity|].
  split; [eexists; reflexivity|].
  rewrite length_app. cbn [List.length]. lia.
Qed.

Lemma capturePhoto_only_extends_buffer_run dom s :
  exists s1 t1, capturePhoto dom s = (Returns tt, s1, t1).
Proof.
  unfold capturePhoto.
  destruct (videoRef dom) as [video|]; [|eexists; eexists; reflexivity].
  destruct (canvasRef dom) as [canvas|]; [|eexists; eexists; reflexivity].
  destruct (Nat.eqb (readyState video) HAVE_ENOUGH_DATA || Nat.ltb 0 (videoWidth video));
    [|eexists; eexists; reflexivity].
  destruct (context2d canvas); eexists; eexists; reflexivity.
Qed.

Lemma cancelCamera_run s :
  cancelCamera s =
  (Returns tt,
   mkState HOME (loading s) (loadingMessage s) (ingredients s) (recipes s)
     (selectedRecipe s) (dietaryPreference s) (newIngredientText s)
     (capturedImages s) None,
   match stream s with
   | Some m => map TrackStop (getTracks m)
   | None => []
   end).
Proof.
  unfold cancelCamera, bind. rewrite stopCamera_is_bound_to_call, stopCameraWith_run.
  destruct (stream s) as [m|] eqn:Hs; cbn; rewrite ?app_nil_r.
  - reflexivity.
  - rewrite Hs. reflexivity.
Qed.

Lemma handleKeyDown_escape bound dom s :
  handleKeyDown bound dom "Escape" s =
  (Returns false,
   mkState HOME (loading s) (loadingMessage s) (ingredients s) (recipes s)
     (selectedRecipe s) (dietaryPreference s) (newIngredientText s)
     (capturedImages s)
     (match bound with Some _ => None | None => stream s end),
   match bound with
   | Some m => map TrackStop (getTracks m)
   | None => []
   end).
Proof.
  unfold handleKeyDown. cbn [String.eqb Ascii.eqb Bool.eqb andb].
  unfold bind. cbn [ret]. rewrite stopCameraWith_run.
  destruct bound as [m|]; cbn; rewrite ?app_nil_r; reflexivity.
Qed.

(** X14. Leaving the camera view.  The close button stops every track of
    the stream held at the click and clears the handle.  The Escape key
    stops the tracks of the stream its listener was created with: a
    listener created before the stream arrived stops nothing and leaves
    the handle in place.  Both go to HOME and keep the capture buffer.
    Enter captures as the shutter button does and is the only key whose
    default action is prevented; any other key does nothing. *)
Theorem leaving_camera_view :
  forall bound dom s,
    cancelCamera s =
      (Returns tt,
       mkState HOME (loading s) (loadingMessage s) (ingredients s) (recipes s)
         (selectedRecipe s) (dietaryPreference s) (newIngredientText s)
         (capturedImages s) None,
       match stream s with
       | Some m => map TrackStop (getTracks m)
       | None => []
       end)
    /\ handleKeyDown bound dom "Escape" s =
       (Returns false,
        mkState HOME (loading s) (loadingMessage s) (ingredients s) (recipes s)
          (selectedRecipe s) (dietaryPreference s) (newIngredientText s)
          (capturedImages s)
          (match bound with Some _ => None | None => stream s end),
        match bound with
        | Some m => map TrackStop (getTracks m)
        | None => []
        end)
    /\ stateOf (handleKeyDown bound dom "Enter" s) = stateOf (capturePhoto dom s)
    /\ traceOf (handleKeyDown bound dom "Enter" s) = traceOf (capturePhoto dom s)
    /\ outcomeOf (handleKeyDown bound dom "Enter" s) = Returns true
    /\ forall key, key <> "Enter" -> key <> "Escape" ->
         handleKeyDown bound dom key s = (Returns false, s, []).
Proof.
  intros bound dom s.
  split; [apply cancelCamera_run|].
  split; [apply handleKeyDown_escape|].
  destruct (capturePhoto_only_extends_buffer_run dom s) as (s1 & t1 & Hrun).
  split; [|split; [|split]].
  - unfold handleKeyDown. cbn [String.eqb Ascii.eqb Bool.eqb andb].
    unfold bind. rewrite Hrun. cbn. reflexivity.
  - unfold handleKeyDown. cbn [String.eqb Ascii.eqb Bool.eqb andb].
    unfold bind. rewrite Hrun. cbn. rewrite !app_nil_r. reflexivity.
  - unfold handleKeyDown. cbn [String.eqb Ascii.eqb Bool.eqb andb].
    unfold bind. rewrite Hrun. cbn. reflexivity.
  - intros key Henter Hescape. unfold handleKeyDown.
    apply String.eqb_neq in Henter, Hescape. rewrite Henter, Hescape. reflexivity.
Qed.

Lemma leaving_camera_view_witness :
  let s := mkState CAMERA false "" [] [] None NONE "" ["imgA"]
             (Some (mkMediaStream [0; 1])) in
  handleKeyDown None (mkDom None None) "a" s = (Returns false, s, [])
  /\ stream (stateOf (handleKeyDown None (mkDom None None) "Escape" s))
     = Some (mkMediaStream [0; 1])
  /\ stream (stateOf (cancelCamera s)) = None.
Proof.
  intros s.
  destruct (leaving_camera_view None (mkDom None None) s)
    as (Hcancel & Hescape & _ & _ & _ & Hother).
  split; [apply Hother; discriminate|].
  rewrite Hescape, Hcancel. split; reflexivity.
Defined.

(** ** File upload *)

Lemma detached_processImages key reply now images s :
  detached (processImages key reply now images) s
  = processImages key reply now images s.
Proof.
  unfold detached, tryCatch, bind.
  destruct reply as [names|reason].
  - rewrite processImages_fulfilled. reflexivity.
  - rewrite processImages_rejected. reflexivity.
Qed.

Lemma processImages_overwrites_caption key reply now images s b m :
  processImages key reply now images (withLoading s b m)
  = processImages key reply now images s.
Proof.
  destruct reply as [names|reason].
  - rewrite !processImages_fulfilled. reflexivity.
  - rewrite !processImages_rejected. reflexivity.
Qed.

Lemma payload_of_data_url header payload :
  lacks "," header = true -> lacks "," payload = true ->
  nth 1 (Js.split "," (header ++ "," ++ payload)) "" = payload.
Proof.
  intros Hh Hp. change ("," ++ payload) with (String "," payload).
  rewrite (split_app_sep _ _ _ Hh), (split_comma_free _ _ Hp). reflexivity.
Qed.

Lemma handleFileUpload_picked read s :
  handleFileUpload (Some read) s
  = (Returns tt, withLoading s true "Analizando imagen...", []).
Proof. reflexivity. Qed.

(** A change event that carries no file does nothing at all. *)
Lemma uploadFile_without_file :
  forall key reply now s,
    uploadFile key reply now None s = (Returns tt, s, []).
Proof. reflexivity. Qed.

(** X15. A file read as a data URL is submitted as exactly one image, the
    payload behind the header, and from there on the upload is the
    ingestion of that one image: same final state, same requests and
    messages, the loading flag cleared whether detection succeeds or
    fails. *)
Theorem uploadFile_submits_payload :
  forall key reply now header payload s,
    lacks "," header = true ->
    lacks "," payload = true ->
    uploadFile key reply now (Some (ReadDone header payload)) s
    = processImages key reply now [payload] s
    /\ requests (traceOf (uploadFile key reply now (Some (ReadDone header payload)) s))
       = [VisionRequest (selectedProvider key) [payload]]
    /\ loading (stateOf (uploadFile key reply now (Some (ReadDone header payload)) s))
       = false.
Proof.
  intros key reply now header payload s Hh Hp.
  assert (Hrun : uploadFile key reply now (Some (ReadDone header payload)) s
                 = processImages key reply now [payload] s).
  { unfold uploadFile, bind at 1. cbn [readerResult onloadend].
    rewrite handleFileUpload_picked, (payload_of_data_url _ _ Hh Hp).
    rewrite detached_processImages, processImages_overwrites_caption.
    destruct (processImages key reply now [payload] s) as [[o s2] t2].
    reflexivity. }
  rewrite Hrun. split; [reflexivity|].
  destruct reply as [names|reason].
  - rewrite processImages_fulfilled. split; reflexivity.
  - rewrite processImages_rejected. split; reflexivity.
Qed.

Lemma uploadFile_submits_payload_witness :
  requests (traceOf (uploadFile None (Rejected "offline") (fun _ => 0%Z)
                       (Some (ReadDone "data:image/png;base64" "iVBORw0KGgo="))
                       initialState))
  = [VisionRequest Gemini ["iVBORw0KGgo="]].
Proof.
  destruct (uploadFile_submits_payload None (Rejected "offline") (fun _ => 0%Z)
              "data:image/png;base64" "iVBORw0KGgo=" initialState eq_refl eq_refl)
    as (_ & Hreq & _).
  exact Hreq.
Defined.

(** X16. When the read of the selected file fails, nothing is sent and
    nothing is shown, and the loading flag set when the file was picked is
    never cleared: the state is the starting state with the flag raised
    and the caption of the upload. *)
Theorem uploadFile_failed_read_keeps_loading :
  forall key reply now s,
    uploadFile key reply now (Some ReadFailed) s
    = (Returns tt, withLoading s true "Analizando imagen...", [])
    /\ outcomeOf (onloadend key reply now None s) = Throws nullSplitError.
Proof. intros key reply now s. split; reflexivity. Qed.

(** ** A successful recipe request *)

Lemma handleGenerateRecipes_fulfilled key raw now s :
  ingredients s <> [] ->
  handleGenerateRecipes key (Fulfilled raw) now s =
  (Returns tt,
   mkState RECIPES false "Diseñando recetas con tus ingredientes..."
     (ingredients s)
     (Js.mapi (fun r index =>
                 withId r (recipeId (selectedProvider key) (now index) index))
              (orEmpty raw))
     (selectedRecipe s) (dietaryPreference s) (newIngredientText s)
     (capturedImages s) (stream s),
   [ConsoleLog (match selectedProvider key with
                | OpenAI => "Using OpenAI for Recipes"
                | Gemini => "Using Gemini for Recipes"
                end);
    TextRequest (selectedProvider key)
      (briefFor (selectedProvider key)
         (buildPrompt (ingredients s) (dietaryPreference s)))]).
Proof.
  intros Hne.
  unfold handleGenerateRecipes, bind at 1, getState.
  destruct (ingredients s) as [|i rest] eqn:Hing; [contradiction|].
  cbn [List.length Nat.eqb].
  unfold tryCatchFinally, tryFinally, tryCatch, bind.
  cbn [setLoading setLoadingMessage modify].
  rewrite suggestRecipes_fulfilled.
  cbn. rewrite Hing. reflexivity.
Qed.

(** X17. A successful recipe request on a non-empty roster replaces the
    held batch by the batch the gateway returned (one recipe per recipe
    of the provider's answer; nothing of the previous batch is kept),
    goes to RECIPES, clears the loading flag and shows no message.  The
    roster, the preference and an earlier selection are left as they
    were. *)
Theorem handleGenerateRecipes_replaces_batch :
  forall key raw now s,
    ingredients s <> [] ->
    let r := handleGenerateRecipes key (Fulfilled raw) now s in
    outcomeOf r = Returns tt
    /\ outcomeOf (suggestRecipes key (Fulfilled raw) now (ingredients s)
                    (dietaryPreference s) s) = Returns (recipes (stateOf r))
    /\ List.length (recipes (stateOf r)) = List.length (orEmpty raw)
    /\ view (stateOf r) = RECIPES
    /\ loading (stateOf r) = false
    /\ alerts (traceOf r) = []
    /\ ingredients (stateOf r) = ingredients s
    /\ dietaryPreference (stateOf r) = dietaryPreference s
    /\ selectedRecipe (stateOf r) = selectedRecipe s.
Proof.
  intros key raw now s Hne r. subst r.
  rewrite (handleGenerateRecipes_fulfilled _ _ _ _ Hne), suggestRecipes_fulfilled.
  cbn [outcomeOf stateOf traceOf fst snd recipes view loading ingredients
       dietaryPreference selectedRecipe].
  repeat split. apply mapi_from_length.
Qed.

Lemma handleGenerateRecipes_replaces_batch_witness :
  let old := mkRecipe "recipe-gemini-1-0" "Tortilla" "" ["Huevo"] [] ["Batir"] Facil "10 min" in
  let raw := mkRecipe "" "Gazpacho" "" ["Tomate"] ["Ajo"] ["Triturar"] Facil "15 min" in
  let s := mkState INGREDIENTS false "" [mkIngredient "manual-1" "Tomate" false]
             [old] (Some old) NONE "" [] None in
  let r := handleGenerateRecipes (Some "sk-test") (Fulfilled (Some [raw]))
             (fun _ => 5%Z) s in
  map recipe_id (recipes (stateOf r)) = ["recipe-openai-5-0"]
  /\ view (stateOf r) = RECIPES
  /\ selectedRecipe (stateOf r) = Some old.
Proof.
  intros old raw s r.
  assert (Hne : ingredients s <> []) by (subst s; simpl; discriminate).
  destruct (handleGenerateRecipes_replaces_batch (Some "sk-test") (Some [raw])
              (fun _ => 5%Z) s Hne) as (_ & _ & _ & Hview & _ & _ & _ & _ & Hsel).
  split; [reflexivity|]. split; [exact Hview | exact Hsel].
Defined.

(** ** The screens as a state machine *)

Lemma alerts_after_stops (l : list nat) (t : list Effect) :
  alerts (map TrackStop l ++ t) = alerts t.
Proof. induction l as [|x l IH]; [reflexivity | exact IH]. Qed.

Lemma requests_after_stops (l : list nat) (t : list Effect) :
  requests (map TrackStop l ++ t) = requests t.
Proof. induction l as [|x l IH]; [reflexivity | exact IH]. Qed.

Lemma alerts_of_stops (l : list nat) : alerts (map TrackStop l) = [].
Proof. induction l as [|x l IH]; [reflexivity | exact IH]. Qed.

Lemma requests_of_stops (l : list nat) : requests (map TrackStop l) = [].
Proof. induction l as [|x l IH]; [reflexivity | exact IH]. Qed.

Lemma requests_app (a b : list Effect) : requests (a ++ b) = (requests a ++ requests b)%list.
Proof.
  induction a as [|e a IH]; [reflexivity|].
  destruct e; cbn [app requests]; rewrite IH; reflexivity.
Qed.

Lemma alerts_app (a b : list Effect) : alerts (a ++ b) = (alerts a ++ alerts b)%list.
Proof.
  induction a as [|e a IH]; [reflexivity|].
  destruct e; cbn [app alerts]; rewrite IH; reflexivity.
Qed.

Lemma In_requests e (t : list Effect) :
  In e (requests t) -> In e t.
Proof.
  induction t as [|x t IH]; [exact (fun H => H)|].
  destruct x; cbn [requests]; intros H; try (right; apply IH; exact H);
    (destruct H as [H|H]; [left; exact H | right; apply IH; exact H]).
Qed.

Lemma TextRequest_in_requests p b (t : list Effect) :
  In (TextRequest p b) t -> In (TextRequest p b) (requests t).
Proof.
  induction t as [|x t IH]; [exact (fun H => H)|].
  intros [H|H].
  - subst x. left. reflexivity.
  - destruct x; cbn [requests]; try (apply IH; exact H); right; apply IH; exact H.
Qed.

Lemma uploadFile_done_run key reply now header payload s :
  uploadFile key reply now (Some (ReadDone header payload)) s
  = processImages key reply now
      [nth 1 (Js.split "," (header ++ "," ++ payload)) ""] s.
Proof.
  unfold uploadFile, bind at 1. cbn [readerResult onloadend].
  rewrite handleFileUpload_picked.
  rewrite detached_processImages, processImages_overwrites_caption.
  destruct (processImages key reply now _ s) as [[o s2] t2]. reflexivity.
Qed.

(** What a capture does, in one equation. *)
Lemma capturePhoto_footprint dom s :
  exists buffer t,
    capturePhoto dom s =
    (Returns tt,
     mkState (view s) (loading s) (loadingMessage s) (ingredients s)
       (recipes s) (selectedRecipe s) (dietaryPreference s)
       (newIngredientText s) buffer (stream s),
     t)
    /\ alerts t = [] /\ requests t = []
    /\ isPrefixOf (capturedImages s) buffer
    /\ List.length buffer <= S (List.length (capturedImages s)).
Proof.
  unfold capturePhoto.
  assert (Hsame : exists buffer t,
            (Returns tt, s, @nil Effect) =
            (Returns tt,
             mkState (view s) (loading s) (loadingMessage s) (ingredients s)
               (recipes s) (selectedRecipe s) (dietaryPreference s)
               (newIngredientText s) buffer (stream s), t)
            /\ alerts t = [] /\ requests t = []
            /\ isPrefixOf (capturedImages s) buffer
            /\ List.length buffer <= S (List.length (capturedImages s))).
  { exists (capturedImages s), []. split; [destruct s; reflexivity|].
    repeat split. exists []. rewrite app_nil_r. reflexivity. lia. }
  destruct (videoRef dom) as [video|]; [|exact Hsame].
  destruct (canvasRef dom) as [canvas|]; [|exact Hsame].
  destruct (Nat.eqb (readyState video) HAVE_ENOUGH_DATA || Nat.ltb 0 (videoWidth video)).
  - destruct (context2d canvas).
    + eexists. eexists. split; [reflexivity|]. repeat split.
      * eexists. reflexivity.
      * rewrite length_app. cbn [List.length]. lia.
    + destruct Hsame as (buffer & t & Heq & _ & _ & Hpre & Hlen).
      injection Heq as Heq _. exists buffer. eexists.
      split; [cbn; rewrite <- Heq; reflexivity|]. repeat split; assumption.
  - exact Hsame.
Qed.

Lemma handleKeyDown_footprint bound dom key s :
  exists v buffer st t b,
    handleKeyDown bound dom key s =
    (Returns b,
     mkState v (loading s) (loadingMessage s) (ingredients s) (recipes s)
       (selectedRecipe s) (dietaryPreference s) (newIngredientText s) buffer st,
     t)
    /\ (v = view s \/ v = HOME)
    /\ alerts t = [] /\ requests t = [].
Proof.
  unfold handleKeyDown.
  destruct (capturePhoto_footprint dom s) as (buffer & t1 & Hrun & Ha & Hr & _).
  destruct s as [v0 l0 lm0 i0 r0 sr0 dp0 nt0 ci0 st0].
  cbn [view loading loadingMessage ingredients recipes selectedRecipe
       dietaryPreference newIngredientText capturedImages stream] in *.
  destruct bound as [m|];
    destruct (String.eqb key "Enter"); destruct (String.eqb key "Escape");
    unfold bind; rewrite ?Hrun; cbn [ret]; rewrite ?stopCameraWith_run;
    cbn -[alerts requests];
    do 5 eexists;
    (split; [reflexivity|]);
    (split; [(left; reflexivity) || (right; reflexivity)|]);
    rewrite ?app_nil_r, ?alerts_app, ?requests_app, ?alerts_of_stops,
      ?requests_of_stops, ?Ha, ?Hr;
    split; reflexivity.
Qed.

Lemma when_false h s : when false h s = (Returns tt, s, []).
Proof. reflexivity. Qed.

Lemma when_true h s : when true h s = h s.
Proof. reflexivity. Qed.

Lemma dispatch_run e s :
  dispatch e s =
  match e with
  | ScanClicked granted => when (viewIs HOME s) (startCamera granted) s
  | FilePicked key reply now file =>
      when (viewIs HOME s) (uploadFile key reply now file) s
  | ManualEntryClicked => when (viewIs HOME s) (setView INGREDIENTS) s
  | CancelClicked => when (viewIs CAMERA s) cancelCamera s
  | CaptureClicked dom => when (viewIs CAMERA s) (capturePhoto dom) s
  | DoneClicked key reply now =>
      when (viewIs CAMERA s && Nat.ltb 0 (List.length (capturedImages s)))
           (finishCameraSession key reply now) s
  | KeyPressed boundStream dom key =>
      when (viewIs CAMERA s) (handleKeyDown boundStream dom key ;; ret tt) s
  | CleanupRun boundView boundStream => streamEffectCleanup boundView boundStream s
  | IngredientsBackClicked => when (viewIs INGREDIENTS s) (setView HOME) s
  | TextTyped text => when (viewIs INGREDIENTS s) (setNewIngredientText text) s
  | AddSubmitted now => when (viewIs INGREDIENTS s) (addManualIngredient now) s
  | PriorityClicked row =>
      when (viewIs INGREDIENTS s)
           (match nth_error (ingredients s) row with
            | Some ing => togglePriority (id ing)
            | None => ret tt
            end) s
  | TrashClicked row =>
      when (viewIs INGREDIENTS s)
           (match nth_error (ingredients s) row with
            | Some ing => removeIngredient (id ing)
            | None => ret tt
            end) s
  | PreferenceClicked pref => when (viewIs INGREDIENTS s) (setDietaryPreference pref) s
  | SuggestClicked key reply now =>
      when (viewIs INGREDIENTS s && negb (Nat.eqb (List.length (ingredients s)) 0))
           (handleGenerateRecipes key reply now) s
  | RecipesBackClicked => when (viewIs RECIPES s) (setView INGREDIENTS) s
  | RecipeClicked row =>
      when (viewIs RECIPES s)
           (match nth_error (recipes s) row with
            | Some recipe => setSelectedRecipe (Some recipe) ;; setView RECIPE_DETAIL
            | None => ret tt
            end) s
  | DetailBackClicked =>
      when (viewIs RECIPE_DETAIL s
            && match selectedRecipe s with Some _ => true | None => false end)
           (setView RECIPES) s
  end.
Proof.
  unfold dispatch. rewrite bind_getState. destruct e; reflexivity.
Qed.

Ltac step_facts :=
  unfold detailShowsRecipe;
  cbn [view loading loadingMessage ingredients recipes selectedRecipe
       dietaryPreference newIngredientText capturedImages stream
       isFailedRead withLoading] in *;
  rewrite ?alerts_after_stops, ?requests_after_stops, ?alerts_of_stops,
    ?requests_of_stops;
  cbn [alerts requests app];
  repeat split; intros; repeat split; intros;
  repeat match goal with
         | H : _ \/ _ |- _ => destruct H
         | H : In _ (_ :: _) |- _ => destruct H
         | H : In _ [] |- _ => destruct H
         | H : False |- _ => destruct H
         end;
  subst; cbn [nextViews In]; try discriminate; try congruence;
  eauto 7 using nth_error_In.

Ltac step_here := solve [eexists; eexists; split; [reflexivity | step_facts]].

(** One event, seen from the screens: what it can do to the loading
    flag, which messages it can show, what it keeps of the recipe
    screens, and when it can reach a text provider. *)
Lemma dispatch_step e s :
  exists s' t,
    dispatch e s = (Returns tt, s', t)
    /\ (loading s = false -> isFailedRead e = false -> loading s' = false)
    /\ (forall m, In m (alerts t) ->
          m = ingestionAlert \/ m = cameraAlert \/ m = recipesAlert)
    /\ (detailShowsRecipe s -> detailShowsRecipe s')
    /\ (view s = RECIPES \/ view s = RECIPE_DETAIL ->
        recipes s' = recipes s /\ ingredients s' = ingredients s
        /\ capturedImages s' = capturedImages s
        /\ requests t = [] /\ alerts t = []
        /\ (view s' = RECIPES \/ view s' = RECIPE_DETAIL \/ view s' = INGREDIENTS))
    /\ (forall p b, In (TextRequest p b) (requests t) ->
          view s = INGREDIENTS /\ ingredients s <> []
          /\ b = briefFor p (buildPrompt (ingredients s) (dietaryPreference s)))
    /\ In (view s') (nextViews (view s)).
Proof.
  rewrite dispatch_run.
  destruct s as [v l lm ings recs sel dp nt ci st].
  destruct e as [granted|key reply now file| | |dom|key reply now|bound dom key
                |bv bs| |text|now|row|row|pref|key reply now| |row| ];
    unfold viewIs;
    cbn [view ingredients recipes selectedRecipe capturedImages].
  - destruct v; destruct granted; step_here.
  - destruct v; try step_here.
    destruct file as [[|header payload]|]; try step_here.
    rewrite when_true, uploadFile_done_run.
    destruct reply; rewrite ?processImages_fulfilled, ?processImages_rejected;
      step_here.
  - destruct v; step_here.
  - destruct v; try step_here.
    rewrite when_true, cancelCamera_run. destruct st; step_here.
  - destruct v; try step_here.
    destruct (capturePhoto_footprint dom
                (mkState CAMERA l lm ings recs sel dp nt ci st))
      as (buffer & t & Hrun & Ha & Hr & _).
    rewrite when_true, Hrun. eexists; eexists; split; [reflexivity|].
    rewrite Ha, Hr. step_facts.
  - destruct v; try step_here.
    destruct ci as [|img imgs]; [step_here|].
    cbn [andb List.length Nat.ltb Nat.leb].
    rewrite when_true, finishCameraSession_run.
    cbn [capturedImages List.length Nat.ltb Nat.leb].
    unfold bind. rewrite stopCamera_is_bound_to_call, stopCameraWith_run.
    destruct st; destruct reply;
      rewrite ?processImages_fulfilled, ?processImages_rejected; step_here.
  - destruct v; try step_here.
    destruct (handleKeyDown_footprint bound dom key
                (mkState CAMERA l lm ings recs sel dp nt ci st))
      as (v' & buffer & st' & t & b & Hrun & Hv & Ha & Hr).
    rewrite when_true. unfold bind. rewrite Hrun. cbn [ret].
    eexists; eexists; split; [reflexivity|].
    rewrite app_nil_r, Ha, Hr. cbn [view] in Hv. step_facts.
  - unfold streamEffectCleanup.
    destruct bv; cbn [isCAMERA negb]; rewrite ?stopCameraWith_run;
      destruct bs; destruct v; step_here.
  - destruct v; step_here.
  - destruct v; step_here.
  - destruct v; try step_here.
    rewrite when_true. destruct (Js.trim nt) as [|c rest] eqn:Htrim.
    + rewrite addManualIngredient_blank by exact Htrim. step_here.
    + rewrite addManualIngredient_run
        by (cbn [newIngredientText]; rewrite Htrim; discriminate).
      step_here.
  - destruct v; try step_here.
    destruct (nth_error ings row) as [ing|];
      rewrite when_true, ?togglePriority_run; step_here.
  - destruct v; try step_here.
    destruct (nth_error ings row) as [ing|];
      rewrite when_true, ?removeIngredient_run; step_here.
  - destruct v; step_here.
  - destruct v; try step_here.
    destruct ings as [|i rest]; [step_here|].
    cbn [andb List.length Nat.eqb negb]. rewrite when_true.
    destruct reply.
    + rewrite handleGenerateRecipes_fulfilled by discriminate. step_here.
    + rewrite handleGenerateRecipes_rejected by discriminate. step_here.
  - destruct v; step_here.
  - destruct v; try step_here.
    destruct (nth_error recs row) as [recipe|] eqn:Hrow; step_here.
  - destruct v; try step_here.
    destruct sel; step_here.
Qed.

Lemma runEvents_cons e events s :
  exists s1 t1,
    dispatch e s = (Returns tt, s1, t1)
    /\ runEvents (e :: events) s
       = (outcomeOf (runEvents events s1), stateOf (runEvents events s1),
          (t1 ++ traceOf (runEvents events s1))%list).
Proof.
  destruct (dispatch_step e s) as (s1 & t1 & Hrun & _).
  exists s1, t1. split; [exact Hrun|].
  unfold runEvents. cbn [forEach]. unfold bind. rewrite Hrun.
  destruct (forEach events dispatch s1) as [[o s2] t2]. reflexivity.
Qed.

Lemma runEvents_returns events : forall s,
  outcomeOf (runEvents events s) = Returns tt.
Proof.
  induction events as [|e events IH]; intros s; [reflexivity|].
  destruct (runEvents_cons e events s) as (s1 & t1 & _ & Hrun).
  rewrite Hrun. apply IH.
Qed.

Lemma runEvents_keeps_detail events : forall s,
  detailShowsRecipe s -> detailShowsRecipe (stateOf (runEvents events s)).
Proof.
  induction events as [|e events IH]; intros s Hinv; [exact Hinv|].
  destruct (dispatch_step e s) as (s1 & t1 & Hstep & _ & _ & Hdetail & _).
  destruct (runEvents_cons e events s) as (s1' & t1' & Hstep' & Hrun).
  rewrite Hstep in Hstep'. injection Hstep' as <- <-.
  rewrite Hrun. apply IH, Hdetail, Hinv.
Qed.

(** X18. Whatever the user does from the start of the application, in
    whatever order, no event throws, and whenever the detail screen is
    the one shown a recipe is selected and it is one of the batch
    currently held: the screen's guard against a missing selection never
    fires. *)
Theorem detail_screen_always_has_recipe :
  forall events,
    let s := stateOf (runEvents events initialState) in
    outcomeOf (runEvents events initialState) = Returns tt
    /\ (view s = RECIPE_DETAIL ->
        exists recipe, selectedRecipe s = Some recipe /\ In recipe (recipes s)).
Proof.
  intros events s. split; [apply runEvents_returns|].
  apply (runEvents_keeps_detail events initialState).
  intros Hview. discriminate Hview.
Qed.

Lemma detail_screen_always_has_recipe_witness :
  let raw := mkRecipe "" "Gazpacho" "" ["Tomate"] [] ["Triturar"] Facil "15 min" in
  let events :=
    [ManualEntryClicked; TextTyped "tomate"; AddSubmitted 7%Z;
     SuggestClicked None (Fulfilled (Some [raw])) (fun _ => 9%Z);
     RecipeClicked 0] in
  let s := stateOf (runEvents events initialState) in
  view s = RECIPE_DETAIL
  /\ exists recipe, selectedRecipe s = Some recipe /\ In recipe (recipes s).
Proof.
  intros raw events s.
  assert (Hview : view s = RECIPE_DETAIL) by reflexivity.
  split; [exact Hview|].
  destruct (detail_screen_always_has_recipe events) as (_ & Hdetail).
  exact (Hdetail Hview).
Defined.

Lemma runEvents_clears_loading events : forall s,
  loading s = false ->
  forallb (fun e => negb (isFailedRead e)) events = true ->
  loading (stateOf (runEvents events s)) = false.
Proof.
  induction events as [|e events IH]; intros s Hload Hok; [exact Hload|].
  cbn [forallb] in Hok. apply andb_true_iff in Hok. destruct Hok as (He & Hok).
  apply negb_true_iff in He.
  destruct (dispatch_step e s) as (s1 & t1 & Hstep & Hl & _).
  destruct (runEvents_cons e events s) as (s1' & t1' & Hstep' & Hrun).
  rewrite Hstep in Hstep'. injection Hstep' as <- <-.
  rewrite Hrun. apply IH; [apply Hl; assumption | exact Hok].
Qed.

(** X19. Starting with the loading flag down, the flag is down again
    after every sequence of events in which no file read fails: every
    handler that raises it lowers it before it ends, on success and on
    failure alike. *)
Theorem loading_flag_cleared_after_events :
  forall events s,
    loading s = false ->
    forallb (fun e => negb (isFailedRead e)) events = true ->
    loading (stateOf (runEvents events s)) = false.
Proof. exact runEvents_clears_loading. Qed.

Lemma loading_flag_cleared_after_events_witness :
  let events :=
    [FilePicked None (Rejected "offline") (fun _ => 0%Z)
       (Some (ReadDone "data:image/png;base64" "iVBORw0KGgo="));
     ManualEntryClicked; TextTyped "sal"; AddSubmitted 3%Z;
     SuggestClicked None (Rejected "offline") (fun _ => 0%Z)] in
  alerts (traceOf (runEvents events initialState)) = [ingestionAlert; recipesAlert]
  /\ loading (stateOf (runEvents events initialState)) = false.
Proof.
  intros events. split; [reflexivity|].
  apply (loading_flag_cleared_after_events events initialState); reflexivity.
Defined.

Lemma runEvents_alerts events : forall s m,
  In m (alerts (traceOf (runEvents events s))) ->
  m = ingestionAlert \/ m = cameraAlert \/ m = recipesAlert.
Proof.
  induction events as [|e events IH]; intros s m Hin; [destruct Hin|].
  destruct (dispatch_step e s) as (s1 & t1 & Hstep & _ & Halerts & _).
  destruct (runEvents_cons e events s) as (s1' & t1' & Hstep' & Hrun).
  rewrite Hstep in Hstep'. injection Hstep' as <- <-.
  rewrite Hrun in Hin. cbn [traceOf snd] in Hin.
  rewrite alerts_app in Hin. apply in_app_or in Hin.
  destruct Hin as [Hin|Hin]; [apply Halerts; exact Hin | apply (IH s1); exact Hin].
Qed.

Lemma runEvents_state_cons e before s s1 t1 :
  dispatch e s = (Returns tt, s1, t1) ->
  stateOf (runEvents (e :: before) s) = stateOf (runEvents before s1).
Proof.
  intros Hstep.
  destruct (runEvents_cons e before s) as (s1' & t1' & Hstep' & Hrun).
  rewrite Hstep in Hstep'. injection Hstep' as <- <-.
  rewrite Hrun. reflexivity.
Qed.

(** Every brief in the trace of a run was sent by one of its events, from
    the state the events before it had led to. *)
Lemma runEvents_briefs events : forall s p b,
  In (TextRequest p b) (traceOf (runEvents events s)) ->
  exists before e after,
    events = (before ++ e :: after)%list
    /\ In (TextRequest p b) (traceOf (dispatch e (stateOf (runEvents before s))))
    /\ view (stateOf (runEvents before s)) = INGREDIENTS
    /\ ingredients (stateOf (runEvents before s)) <> []
    /\ b = briefFor p
             (buildPrompt (ingredients (stateOf (runEvents before s)))
                          (dietaryPreference (stateOf (runEvents before s)))).
Proof.
  induction events as [|e events IH]; intros s p b Hin; [destruct Hin|].
  destruct (dispatch_step e s) as (s1 & t1 & Hstep & _ & _ & _ & _ & Hbrief & _).
  destruct (runEvents_cons e events s) as (s1' & t1' & Hstep' & Hrun).
  rewrite Hstep in Hstep'. injection Hstep' as <- <-.
  rewrite Hrun in Hin. cbn [traceOf snd] in Hin. apply in_app_or in Hin.
  destruct Hin as [Hin|Hin].
  - exists [], e, events.
    change (stateOf (runEvents [] s)) with s.
    split; [reflexivity|]. rewrite Hstep. cbn [traceOf snd].
    split; [exact Hin|].
    apply Hbrief, TextRequest_in_requests, Hin.
  - destruct (IH s1 p b Hin) as (before & e' & after & -> & Hsent & Hfacts).
    exists (e :: before), e', after.
    rewrite (runEvents_state_cons e before s s1 t1 Hstep).
    split; [reflexivity|]. split; [exact Hsent | exact Hfacts].
Qed.

(** X20. Through the rendered controls the recipe request never meets an
    empty roster: from any state and for any sequence of events, the
    validation message is never shown (the only messages are the
    ingestion, camera and recipe failure ones), and every brief sent to a
    provider was sent by an event that found the ingredient screen shown
    and at least one ingredient in the roster, and is the brief of that
    very roster and of the dietary preference selected at that moment. *)
Theorem suggest_button_guards_empty_roster :
  forall events s,
    ~ In validationAlert (alerts (traceOf (runEvents events s)))
    /\ (forall m, In m (alerts (traceOf (runEvents events s))) ->
          m = ingestionAlert \/ m = cameraAlert \/ m = recipesAlert)
    /\ (forall p b, In (TextRequest p b) (traceOf (runEvents events s)) ->
          exists before e after,
            events = (before ++ e :: after)%list
            /\ In (TextRequest p b)
                 (traceOf (dispatch e (stateOf (runEvents before s))))
            /\ view (stateOf (runEvents before s)) = INGREDIENTS
            /\ ingredients (stateOf (runEvents before s)) <> []
            /\ b = briefFor p
                     (buildPrompt
                        (ingredients (stateOf (runEvents before s)))
                        (dietaryPreference (stateOf (runEvents before s))))).
Proof.
  intros events s. split; [|split].
  - intros Hin. apply runEvents_alerts in Hin.
    destruct Hin as [H|[H|H]]; discriminate H.
  - apply runEvents_alerts.
  - apply runEvents_briefs.
Qed.

(** X21. While a recipe screen is shown (the list or the detail), no
    event changes the recipe batch, the roster or the capture buffer,
    none sends a request or shows a message, and the next screen is a
    recipe screen or the ingredient screen. *)
Theorem browsing_recipes_changes_nothing :
  forall e s,
    view s = RECIPES \/ view s = RECIPE_DETAIL ->
    let r := dispatch e s in
    outcomeOf r = Returns tt
    /\ recipes (stateOf r) = recipes s
    /\ ingredients (stateOf r) = ingredients s
    /\ capturedImages (stateOf r) = capturedImages s
    /\ requests (traceOf r) = []
    /\ alerts (traceOf r) = []
    /\ (view (stateOf r) = RECIPES \/ view (stateOf r) = RECIPE_DETAIL
        \/ view (stateOf r) = INGREDIENTS).
Proof.
  intros e s Hview r. subst r.
  destruct (dispatch_step e s) as (s1 & t1 & Hstep & _ & _ & _ & Hframe & _).
  rewrite Hstep. cbn [outcomeOf stateOf traceOf fst snd].
  split; [reflexivity | exact (Hframe Hview)].
Qed.

Lemma browsing_recipes_changes_nothing_witness :
  let held := mkRecipe "recipe-gemini-1-0" "Tortilla" "" ["Huevo"] [] ["Batir"] Facil "10 min" in
  let s := mkState RECIPES false "" [mkIngredient "manual-1" "Huevo" false]
             [held] None NONE "" [] None in
  recipes (stateOf (dispatch (RecipeClicked 0) s)) = [held]
  /\ recipes (stateOf (dispatch (TrashClicked 0) s)) = [held]
  /\ ingredients (stateOf (dispatch (TrashClicked 0) s))
     = [mkIngredient "manual-1" "Huevo" false].
Proof.
  intros held s.
  assert (Hview : view s = RECIPES \/ view s = RECIPE_DETAIL) by (left; reflexivity).
  destruct (browsing_recipes_changes_nothing (RecipeClicked 0) s Hview)
    as (_ & Hrec & _).
  destruct (browsing_recipes_changes_nothing (TrashClicked 0) s Hview)
    as (_ & Hrec' & Hing & _).
  split; [exact Hrec|]. split; [exact Hrec' | exact Hing].
Defined.

